(** * Temporary-mail client: resilient fetch, domain discovery, provisioning

    A shallow embedding of [src/services/mailService.ts].  The service is a
    sequence of awaited network calls with retry loops, so every operation
    is a computation in a small trace-and-exception monad: it reads an
    environment (network, clock, random source), appends the effects it
    performs to a trace, and either returns a value or throws.

    Conventions of the embedding
    - a JavaScript string is a [string] of UTF-8 bytes;
    - a [Response] is a fully received message: a status and a body, the
      body being the JSON value it parses to, if any ([res.json()] rejects
      on [None]; [res.text()] always resolves);
    - the environment answers as a function of the history of effects so
      far, which covers every deterministic network, clock and generator;
    - [Math.floor(Math.random() * n)] is one primitive that yields an index
      below [n]. *)

From Stdlib Require Import String Ascii ZArith List Bool Lia PeanoNat DecimalString.
Import ListNotations.
Local Open Scope string_scope.
Local Open Scope list_scope.

Notation "a ^^ b" := (String.append a b) (at level 60, right associativity).

(** ** The JavaScript values the service touches *)

Module Js.

(** A JSON number is an IEEE double; the service only tests numbers for
    truthiness and converts them to text, so a number is carried as these
    two observations. *)
Record Num := { num_nonzero : bool; num_text : string }.

#[local] Set Warnings "-register-all".
Inductive JSON :=
| JNull
| JBool (b : bool)
| JNum (n : Num)
| JStr (s : string)
| JArr (items : list JSON)
| JObj (fields : list (string * JSON)).

(** A value of type [any]: [None] is [undefined]. *)
Definition Any := option JSON.

(** Thrown values. *)
Inductive Exn :=
| Error (message : string)
| TypeError (message : string)
| SyntaxError (message : string).

Inductive Result (A : Type) :=
| Ok (a : A)
| Throw (e : Exn).
Arguments Ok {A} a.
Arguments Throw {A} e.

Definition nonEmpty (s : string) : bool :=
  match s with EmptyString => false | String _ _ => true end.

(** ToBoolean. *)
Definition truthy (v : Any) : bool :=
  match v with
  | None => false
  | Some JNull => false
  | Some (JBool b) => b
  | Some (JNum n) => num_nonzero n
  | Some (JStr s) => nonEmpty s
  | Some (JArr _) => true
  | Some (JObj _) => true
  end.

(** ToBoolean of an optional string parameter ([!x], [!!x]). *)
Definition truthyStr (s : option string) : bool :=
  match s with Some s => nonEmpty s | None => false end.

Fixpoint lookup (k : string) (fields : list (string * JSON)) : Any :=
  match fields with
  | [] => None
  | (k', v) :: rest => if String.eqb k k' then Some v else lookup k rest
  end.

(** [v.k] and [v['k']] for the keys read by the service ([hydra:member],
    [isActive], [domain], [token], [id], [html], [text]): none of them is a
    property of strings, numbers, booleans or arrays, nor inherited from
    [Object.prototype]; reading a property of [null] throws. *)
Definition getProp (v : JSON) (k : string) : Result Any :=
  match v with
  | JNull => Throw (TypeError ("Cannot read properties of null (reading '" ^^ k ^^ "')"))
  | JObj fields => Ok (lookup k fields)
  | _ => Ok None
  end.

(** [Array.prototype.join] and ToString on parsed JSON: [null] elements
    join as the empty string, nested arrays join with a comma. *)
Fixpoint joinWith (toStr : JSON -> string) (sep : string) (l : list JSON) : string :=
  match l with
  | [] => EmptyString
  | [x] => toStr x
  | x :: rest => toStr x ^^ sep ^^ joinWith toStr sep rest
  end.

Fixpoint toStringJ (j : JSON) : string :=
  match j with
  | JNull => "null"
  | JBool true => "true"
  | JBool false => "false"
  | JNum n => num_text n
  | JStr s => s
  | JArr items =>
      (fix elems (l : list JSON) : string :=
         match l with
         | [] => EmptyString
         | x :: rest =>
             let sx := match x with JNull => EmptyString | _ => toStringJ x end in
             match rest with
             | [] => sx
             | _ :: _ => sx ^^ "," ^^ elems rest
             end
         end) items
  | JObj _ => "[object Object]"
  end.

Definition elemToString (j : JSON) : string :=
  match j with JNull => EmptyString | _ => toStringJ j end.

Definition join (sep : string) (l : list JSON) : string :=
  joinWith elemToString sep l.

(** Template-literal interpolation [`${v}`]. *)
Definition toString (v : Any) : string :=
  match v with None => "undefined" | Some j => toStringJ j end.

Definition strOrUndefined (s : option string) : string :=
  match s with None => "undefined" | Some s => s end.

(** Integers print in decimal ([Date.now()], HTTP statuses). *)
Definition showZ (z : Z) : string := NilZero.string_of_int (Z.to_int z).

(** [s.charAt(i)]: the empty string out of range. *)
Definition charAt (s : string) (i : nat) : string :=
  match String.get i s with Some c => String c EmptyString | None => EmptyString end.

(** *** encodeURIComponent *)

Definition inRange (lo hi c : ascii) : bool :=
  (nat_of_ascii lo <=? nat_of_ascii c)%nat && (nat_of_ascii c <=? nat_of_ascii hi)%nat.

Definition isOneOf (set : string) (c : ascii) : bool :=
  existsb (Ascii.eqb c) (list_ascii_of_string set).

Definition uriUnreserved (c : ascii) : bool :=
  inRange "A" "Z" c || inRange "a" "z" c || inRange "0" "9" c || isOneOf "-_.!~*'()" c.

Definition hexDigit (upper : bool) (n : nat) : ascii :=
  match String.get n (if upper then "0123456789ABCDEF" else "0123456789abcdef") with
  | Some c => c
  | None => "0"%char
  end.

Definition hexByte (upper : bool) (c : ascii) : string :=
  let n := nat_of_ascii c in
  String (hexDigit upper (n / 16)) (String (hexDigit upper (n mod 16)) EmptyString).

Fixpoint encodeURIComponent (s : string) : string :=
  match s with
  | EmptyString => EmptyString
  | String c rest =>
      if uriUnreserved c then String c (encodeURIComponent rest)
      else "%" ^^ hexByte true c ^^ encodeURIComponent rest
  end.

Definition hexValue (c : ascii) : option nat :=
  if inRange "0" "9" c then Some (nat_of_ascii c - 48)
  else if inRange "A" "F" c then Some (nat_of_ascii c - 55)
  else if inRange "a" "f" c then Some (nat_of_ascii c - 87)
  else None.

(** The inverse used to state what "percent-encoded" means. *)
Fixpoint percentDecode (s : string) : option string :=
  match s with
  | EmptyString => Some EmptyString
  | String c rest =>
      if Ascii.eqb c "%" then
        match rest with
        | String h (String l rest') =>
            match hexValue h, hexValue l, percentDecode rest' with
            | Some hv, Some lv, Some d => Some (String (ascii_of_nat (16 * hv + lv)) d)
            | _, _, _ => None
            end
        | _ => None
        end
      else
        match percentDecode rest with
        | Some d => Some (String c d)
        | None => None
        end
  end.

(** *** JSON.stringify on strings and on the credentials object *)

Definition dquote : ascii := "034"%char.
Definition backslash : ascii := "092"%char.

Definition jsonEscapeChar (c : ascii) : string :=
  if Ascii.eqb c dquote then String backslash (String dquote EmptyString)
  else if Ascii.eqb c backslash then String backslash (String backslash EmptyString)
  else if Ascii.eqb c "008" then String backslash "b"
  else if Ascii.eqb c "009" then String backslash "t"
  else if Ascii.eqb c "010" then String backslash "n"
  else if Ascii.eqb c "012" then String backslash "f"
  else if Ascii.eqb c "013" then String backslash "r"
  else if (nat_of_ascii c <? 32)%nat then String backslash ("u00" ^^ hexByte false c)
  else String c EmptyString.

Fixpoint jsonEscape (s : string) : string :=
  match s with
  | EmptyString => EmptyString
  | String c rest => jsonEscapeChar c ^^ jsonEscape rest
  end.

Definition jsonQuote (s : string) : string :=
  String dquote (jsonEscape s ^^ String dquote EmptyString).

(** [JSON.stringify({ address, password })]. *)
Definition stringifyCredentials (address password : string) : string :=
  "{" ^^ jsonQuote "address" ^^ ":" ^^ jsonQuote address ^^ ","
      ^^ jsonQuote "password" ^^ ":" ^^ jsonQuote password ^^ "}".

End Js.
Import Js.

(** ** Requests, responses and the environment *)

(** [RequestInit], as far as the service fills it in. *)
Record RequestInit := {
  method : option string;
  headers : list (string * string);
  body : option string
}.

Definition noInit : RequestInit :=
  {| method := None; headers := []; body := None |}.

Record Response := {
  status : Z;
  payload : option JSON
}.

(** [res.ok]: the status is in the range 200-299. *)
Definition ok (r : Response) : bool :=
  (200 <=? status r)%Z && (status r <=? 299)%Z.

Inductive Level := Warn | Err.

(** What the service does to the outside world, in order. *)
Inductive Event :=
| EvFetch (url : string) (init : RequestInit)
| EvNow
| EvRandom
| EvSleep (ms : Z)
| EvConsole (lvl : Level) (msg : string) (err : option Exn).

Definition Trace := list Event.

(** The outside world: each answer may depend on everything done so far. *)
Record Env := {
  net : Trace -> string -> RequestInit -> Result Response;
  clock : Trace -> Z;
  dice : Trace -> nat
}.

(** ** The monad of awaited computations

    [m env h] runs [m] after the history [h] and yields the events it
    appended and its outcome. *)
Definition M (A : Type) : Type := Env -> Trace -> Trace * Result A.

Definition ret {A} (a : A) : M A := fun _ _ => ([], Ok a).

Definition throw {A} (e : Exn) : M A := fun _ _ => ([], Throw e).

Definition bind {A B} (m : M A) (k : A -> M B) : M B :=
  fun env h =>
    let (t1, r1) := m env h in
    match r1 with
    | Ok a => let (t2, r2) := k a env (h ++ t1) in (t1 ++ t2, r2)
    | Throw e => (t1, Throw e)
    end.

(** [try { m } catch (e) { handler e }]. *)
Definition tryCatch {A} (m : M A) (handler : Exn -> M A) : M A :=
  fun env h =>
    let (t1, r1) := m env h in
    match r1 with
    | Ok a => (t1, Ok a)
    | Throw e => let (t2, r2) := handler e env (h ++ t1) in (t1 ++ t2, r2)
    end.

Notation "x <- m ;; k" := (bind m (fun x => k))
  (at level 100, m at next level, right associativity).
Notation "m ;;; k" := (bind m (fun _ => k))
  (at level 100, right associativity).

Definition emit (ev : Event) : M unit := fun _ _ => ([ev], Ok tt).

Definition liftR {A} (r : Result A) : M A := fun _ _ => ([], r).

(** [fetch(url, init)]. *)
Definition fetch (url : string) (init : RequestInit) : M Response :=
  fun env h => ([EvFetch url init], net env h url init).

(** [Date.now()] and [new Date().getTime()]. *)
Definition dateNow : M Z := fun env h => ([EvNow], Ok (clock env h)).

(** [Math.floor(Math.random() * n)]. *)
Definition randomBelow (n : nat) : M nat :=
  fun env h => ([EvRandom], Ok (dice env h mod n)%nat).

(** [await new Promise(r => setTimeout(r, ms))]. *)
Definition sleep (ms : Z) : M unit := emit (EvSleep ms).

Definition console (lvl : Level) (msg : string) (err : option Exn) : M unit :=
  emit (EvConsole lvl msg err).

(** [res.json()]. *)
Definition json (r : Response) : M JSON :=
  match payload r with
  | Some j => ret j
  | None => throw (SyntaxError "Unexpected token in JSON")
  end.

(** [res.text()]: the text is read and dropped by the only caller. *)
Definition text (r : Response) : M unit := ret tt.

Definition events {A} (out : Trace * Result A) : Trace := fst out.
Definition outcome {A} (out : Trace * Result A) : Result A := snd out.

(** ** mailService.ts *)

Definition API_BASE : string := "https://api.mail.tm".
Definition PROXY_BASE : string := "https://corsproxy.io/?".

(** [randomString(length)], lines 7-14. *)
Definition chars : string := "abcdefghijklmnopqrstuvwxyz0123456789".

Fixpoint randomStringFrom (result : string) (length : nat) : M string :=
  match length with
  | O => ret result
  | S length' =>
      i <- randomBelow (String.length chars) ;;
      randomStringFrom (result ^^ charAt chars i) length'
  end.

Definition randomString (length : nat) : M string :=
  randomStringFrom EmptyString length.

(** [smartFetch], lines 19-33. *)
Definition blocked (res : Response) : bool :=
  (status res =? 403)%Z || (status res =? 429)%Z.

Definition proxyUrlFor (url : string) (now : Z) : string :=
  let targetUrl := encodeURIComponent url in
  let cacheBuster := "&_cb=" ^^ showZ now in
  PROXY_BASE ^^ targetUrl ^^ cacheBuster.

Definition smartFetch (url : string) (options : RequestInit) : M Response :=
  tryCatch
    (res <- fetch url options ;;
     if blocked res then throw (Error "Blocked") else ret res)
    (fun _ =>
       now <- dateNow ;;
       fetch (proxyUrlFor url now) options).

(** [(data['hydra:member'] || []).filter(d => d.isActive)], lines 46-49
    and 58-61.  Calling [filter] on a truthy value that is not an array
    throws. *)
Fixpoint filterActive (domains : list JSON) : Result (list JSON) :=
  match domains with
  | [] => Ok []
  | d :: rest =>
      match getProp d "isActive" with
      | Throw e => Throw e
      | Ok v =>
          match filterActive rest with
          | Throw e => Throw e
          | Ok kept => Ok (if truthy v then d :: kept else kept)
          end
      end
  end.

Definition activeMembers (data : JSON) : Result (list JSON) :=
  match getProp data "hydra:member" with
  | Throw e => Throw e
  | Ok member =>
      match (if truthy member then member else Some (JArr [])) with
      | Some (JArr domains) => filterActive domains
      | _ => Throw (TypeError "filter is not a function")
      end
  end.

Definition nonEmptyList {A} (l : list A) : bool :=
  match l with [] => false | _ :: _ => true end.

Definition domainsUrlA (now : Z) : string :=
  API_BASE ^^ "/domains?page=1&itemsPerPage=100&_t=" ^^ showZ now.

Definition domainsUrlB (now : Z) : string :=
  API_BASE ^^ "/domains?_t=" ^^ showZ now.

(** Strategy 1, lines 42-52: [Some domains] is the early [return]. *)
Definition strategyA : M (option (list JSON)) :=
  now <- dateNow ;;
  res <- smartFetch (domainsUrlA now) noInit ;;
  if ok res then
    data <- json res ;;
    domains <- liftR (activeMembers data) ;;
    if nonEmptyList domains then ret (Some domains) else ret None
  else ret None.

(** Strategy 2, lines 55-66. *)
Definition strategyB : M (list JSON) :=
  now <- dateNow ;;
  res2 <- smartFetch (domainsUrlB now) noInit ;;
  if ok res2 then
    data <- json res2 ;;
    liftR (activeMembers data)
  else ret [].

(** [getAvailableDomains], lines 39-71. *)
Definition getAvailableDomains : M (list JSON) :=
  tryCatch
    (early <- strategyA ;;
     match early with
     | Some domains => ret domains
     | None => strategyB
     end)
    (fun error =>
       console Err "Critical: Could not fetch domains." (Some error) ;;;
       ret []).

(** *** createRealAccount, lines 76-176 *)

Record UserSession := {
  emailAddress : string;
  createdAt : Z;
  expiresAt : option Z;
  isPremium : bool;
  token : Any;
  accountId : Any;
  password : string;
  isMock : bool
}.

Definition noDomainsMessage : string :=
  "لا يوجد نطاقات متاحة حالياً من الخادم. يرجى المحاولة لاحقاً.".
Definition usernameUnavailableMessage : string :=
  "اسم المستخدم هذا غير متاح (محجوز مسبقاً). يرجى اختيار اسم آخر.".
Definition creationFailedPrefix : string := "فشل إنشاء الحساب: ".
Definition exhaustedMessage : string := "تعذر إنشاء حساب جديد بعد عدة محاولات.".
Definition loginFailedMessage : string := "فشل تسجيل الدخول (Token Failed)".

Definition accountsUrl : string := API_BASE ^^ "/accounts".
Definition tokenUrl : string := API_BASE ^^ "/token".
Definition meUrl : string := API_BASE ^^ "/me".

Definition postCredentials (address password : string) : RequestInit :=
  {| method := Some "POST";
     headers := [("Content-Type", "application/json")];
     body := Some (stringifyCredentials address password) |}.

Definition bearer (token : Any) : RequestInit :=
  {| method := None;
     headers := [("Authorization", "Bearer " ^^ toString token)];
     body := None |}.

(** The domain loop, lines 84-88: [remaining] counts the iterations left
    of [for (k = 0; k < 3; k++)], [domains] is the variable of the same
    name. *)
Fixpoint domainLoop (remaining : nat) (domains : list JSON) : M (list JSON) :=
  match remaining with
  | O => ret domains
  | S remaining' =>
      domains <- getAvailableDomains ;;
      if nonEmptyList domains then ret domains
      else (sleep 500 ;;; domainLoop remaining' domains)
  end.

(** Step 1, lines 78-97: the value of [domain] after the first block. *)
Definition resolveDomain (customDomain : option string) : M Any :=
  if truthyStr customDomain then
    ret (option_map JStr customDomain)
  else
    domains <- domainLoop 3 [] ;;
    if (List.length domains =? 0)%nat then throw (Error noDomainsMessage)
    else
      randomIndex <- randomBelow (List.length domains) ;;
      match nth_error domains randomIndex with
      | Some d => liftR (getProp d "domain")
      | None => throw (TypeError "Cannot read properties of undefined (reading 'domain')")
      end.

(** One pass through lines 108-116: the credentials of this attempt and
    the answer to the creation request. *)
Record Attempt := {
  att_username : string;
  att_password : string;
  att_address : string;
  att_response : Response
}.

Definition createAttempt (isCustom : bool) (customUsername : option string)
    (domain : Any) : M Attempt :=
  currentUsername <-
    (if isCustom then ret (strOrUndefined customUsername) else randomString 10) ;;
  password <- randomString 12 ;;
  let address := currentUsername ^^ "@" ^^ toString domain in
  createRes <- smartFetch accountsUrl (postCredentials address password) ;;
  ret {| att_username := currentUsername; att_password := password;
         att_address := address; att_response := createRes |}.

Definition collisionWarning (currentUsername : string) : string :=
  "Random username collision (" ^^ currentUsername ^^ "), retrying...".

(** The loop variables [address], [password], [accountCreated]. *)
Record Creation := {
  cr_address : string;
  cr_password : string;
  cr_accountCreated : bool
}.

(** The retry loop, lines 107-134: [remaining] counts the iterations left
    of [for (i = 0; i < maxRetries; i++)]. *)
Fixpoint createLoop (isCustom : bool) (customUsername : option string)
    (domain : Any) (remaining : nat) (st : Creation) : M Creation :=
  match remaining with
  | O => ret st
  | S remaining' =>
      a <- createAttempt isCustom customUsername domain ;;
      let st' := {| cr_address := att_address a; cr_password := att_password a;
                    cr_accountCreated := cr_accountCreated st |} in
      if ok (att_response a) then
        ret {| cr_address := att_address a; cr_password := att_password a;
               cr_accountCreated := true |}
      else
        let status := status (att_response a) in
        if (status =? 422)%Z then
          if isCustom then throw (Error usernameUnavailableMessage)
          else
            (console Warn (collisionWarning (att_username a)) None ;;;
             createLoop isCustom customUsername domain remaining' st')
        else
          (text (att_response a) ;;;
           throw (Error (creationFailedPrefix ^^ showZ status)))
  end.

Definition maxRetries (isCustom : bool) : nat := if isCustom then 1 else 5.

Definition initialCreation : Creation :=
  {| cr_address := EmptyString; cr_password := EmptyString;
     cr_accountCreated := false |}.

(** Step 2, lines 99-138. *)
Definition createAccount (isCustom : bool) (customUsername : option string)
    (domain : Any) : M Creation :=
  st <- createLoop isCustom customUsername domain (maxRetries isCustom)
          initialCreation ;;
  if negb (cr_accountCreated st) then throw (Error exhaustedMessage)
  else ret st.

(** Step 3, lines 141-150. *)
Definition login (address password : string) : M Any :=
  tokenRes <- smartFetch tokenUrl (postCredentials address password) ;;
  if negb (ok tokenRes) then throw (Error loginFailedMessage)
  else
    tokenData <- json tokenRes ;;
    liftR (getProp tokenData "token").

Definition tenMinutes : Z := 10 * 60 * 1000.

(** Step 4 and the returned object, lines 153-170. *)
Definition finishSession (isCustom : bool) (address password : string)
    (token : Any) : M UserSession :=
  meRes <- smartFetch meUrl (bearer token) ;;
  meData <- json meRes ;;
  now <- dateNow ;;
  let expiresAt := if isCustom then None else Some (now + tenMinutes)%Z in
  id <- liftR (getProp meData "id") ;;
  ret {| emailAddress := address;
         createdAt := now;
         expiresAt := expiresAt;
         isPremium := isCustom;
         token := token;
         accountId := id;
         password := password;
         isMock := false |}.

(** Lines 99-170: what follows once [domain] is known. *)
Definition provisionWith (customUsername : option string) (domain : Any)
    : M UserSession :=
  let isCustom := truthyStr customUsername in
  st <- createAccount isCustom customUsername domain ;;
  token <- login (cr_address st) (cr_password st) ;;
  finishSession isCustom (cr_address st) (cr_password st) token.

(** The body of the [try] block, lines 78-170. *)
Definition provision (customUsername customDomain : option string)
    : M UserSession :=
  domain <- resolveDomain customDomain ;;
  provisionWith customUsername domain.

Definition createRealAccount (customUsername customDomain : option string)
    : M UserSession :=
  tryCatch
    (provision customUsername customDomain)
    (fun error =>
       console Err "Account Creation Logic Error:" (Some error) ;;;
       throw error).

(** *** fetchMessageDetails, lines 210-233, and deleteMessage, lines 235-245 *)

Record MessageDetails := {
  md_body : JSON;
  md_hasFullDetails : bool
}.

Definition messageUrl (messageId : string) : string :=
  API_BASE ^^ "/messages/" ^^ messageId.

Definition isNonEmptyArray (v : Any) : option (list JSON) :=
  match v with
  | Some (JArr (x :: rest)) => Some (x :: rest)
  | _ => None
  end.

Definition isNonEmptyString (v : Any) : option string :=
  match v with
  | Some (JStr s) => if nonEmpty s then Some s else None
  | _ => None
  end.

(** Lines 217-224. *)
Definition resolveBody (data : JSON) : Result JSON :=
  match getProp data "html" with
  | Throw e => Throw e
  | Ok html =>
      match isNonEmptyArray html with
      | Some fragments => Ok (JStr (join EmptyString fragments))
      | None =>
          match isNonEmptyString html with
          | Some s => Ok (JStr s)
          | None =>
              match getProp data "text" with
              | Throw e => Throw e
              | Ok (Some txt) =>
                  if truthy (Some txt) then Ok txt else Ok (JStr "No content")
              | Ok None => Ok (JStr "No content")
              end
          end
      end
  end.

Definition fetchMessageDetails (token messageId : string)
    : M (option MessageDetails) :=
  tryCatch
    (res <- smartFetch (messageUrl messageId) (bearer (Some (JStr token))) ;;
     data <- json res ;;
     bodyContent <- liftR (resolveBody data) ;;
     ret (Some {| md_body := bodyContent; md_hasFullDetails := true |}))
    (fun _ => ret None).

Definition deleteInit (token : string) : RequestInit :=
  {| method := Some "DELETE";
     headers := [("Authorization", "Bearer " ^^ token)];
     body := None |}.

Definition deleteMessage (token messageId : string) : M bool :=
  tryCatch
    (smartFetch (messageUrl messageId) (deleteInit token) ;;;
     ret true)
    (fun _ => ret false).

(** ** Observing a trace *)

Definition isFetchOf (p : string -> bool) (e : Event) : bool :=
  match e with EvFetch url _ => p url | _ => false end.

(** A pause of 500 ms. *)
Definition isSleep (e : Event) : bool :=
  match e with EvSleep ms => (ms =? 500)%Z | _ => false end.

Definition count (p : Event -> bool) (t : Trace) : nat :=
  List.length (filter p t).

(** Requests sent to the account-creation endpoint itself. *)
Definition isCreateRequest : Event -> bool :=
  isFetchOf (String.eqb accountsUrl).

(** The request that opens every call of [getAvailableDomains]. *)
Definition isPaginatedQuery : Event -> bool :=
  isFetchOf (prefix (API_BASE ^^ "/domains?page=1&itemsPerPage=100&_t=")).

(** The request of Strategy 2. *)
Definition isDefaultQuery : Event -> bool :=
  isFetchOf (prefix (API_BASE ^^ "/domains?_t=")).

(** The direct attempt of [smartFetch] counts as failed when it throws or
    is answered 403 or 429. *)
Definition directFailed (direct : Result Response) : bool :=
  match direct with
  | Throw _ => true
  | Ok res => (status res =? 403)%Z || (status res =? 429)%Z
  end.

(** The [isActive] field of a catalog entry, [undefined] when absent. *)
Definition isActiveOf (d : JSON) : Any :=
  match getProp d "isActive" with Ok v => v | Throw _ => None end.

(** An entry that passes the filter [d => d.isActive]. *)
Definition activeEntry (d : JSON) : Prop := truthy (isActiveOf d) = true.

Definition is2xx (s : Z) : bool := (200 <=? s)%Z && (s <=? 299)%Z.

(** A predicate on events that ignores clock reads, random draws, console
    output and requests to the proxy. *)
Definition quiet (q : Event -> bool) : Prop :=
  q EvNow = false /\ q EvRandom = false
  /\ (forall l m e, q (EvConsole l m e) = false)
  /\ (forall u now o, q (EvFetch (proxyUrlFor u now) o) = false).



(** The warning that follows an attempt answered 422 in random mode. *)
Definition warnAfter (out : Trace * Result Attempt) : Trace :=
  match outcome out with
  | Ok a => [EvConsole Warn (collisionWarning (att_username a)) None]
  | Throw _ => []
  end.

(** The history at which the [k]-th creation attempt of random mode starts
    when every earlier attempt was answered 422. *)
Fixpoint attemptStart (env : Env) (u : option string) (domain : Any)
    (h : Trace) (k : nat) : Trace :=
  match k with
  | O => h
  | S k' =>
      let out := createAttempt false u domain env h in
      attemptStart env u domain ((h ++ events out) ++ warnAfter out) k'
  end.

(** The status that attempt is answered with, if it is answered. *)
Definition attemptStatus (env : Env) (u : option string) (domain : Any)
    (h : Trace) (k : nat) : option Z :=
  match outcome (createAttempt false u domain env (attemptStart env u domain h k)) with
  | Ok a => Some (status (att_response a))
  | Throw _ => None
  end.

(** A creation request, if [e] is one, registers an address at [domain]. *)
Definition addressedTo (domain : Any) (e : Event) : Prop :=
  isCreateRequest e = true ->
  exists user pw,
    e = EvFetch accountsUrl (postCredentials (user ^^ "@" ^^ toString domain) pw).

(** The value of [data.k], [undefined] when it cannot be read. *)
Definition propOf (data : JSON) (k : string) : Any :=
  match getProp data k with Ok v => v | Throw _ => None end.

(** The HTML field as one string, when it carries content: a non-empty
    array of fragments joined without separator, or a non-empty string. *)
Definition htmlContent (html : Any) : option string :=
  match html with
  | Some (JArr (x :: rest)) => Some (join EmptyString (x :: rest))
  | Some (JStr s) => if nonEmpty s then Some s else None
  | _ => None
  end.

(** ** Sample environments and payloads

    Concrete worlds on which the service can be run. *)

Definition respond (st : Z) (j : option JSON) : Response :=
  {| status := st; payload := j |}.

(** A stateless server: the answer depends on the request only; the clock
    stands still and the generator always draws 0. *)
Definition serverEnv (answer : string -> RequestInit -> Result Response) : Env :=
  {| net := fun _ => answer;
     clock := fun _ => 1700000000000%Z;
     dice := fun _ => 0%nat |}.

Definition domainEntry (name : string) (active : bool) : JSON :=
  JObj [("domain", JStr name); ("isActive", JBool active); ("isPrivate", JBool false)].

Definition catalog (entries : list JSON) : JSON :=
  JObj [("hydra:member", JArr entries)].

Definition mixedCatalog : JSON :=
  catalog [domainEntry "a.com" true; domainEntry "b.com" false].

(** Every request is answered [st] with body [j]. *)
Definition uniformEnv (st : Z) (j : option JSON) : Env :=
  serverEnv (fun _ _ => Ok (respond st j)).

(** The origin refuses with [st]; the proxy answers 200 with body [j]. *)
Definition proxyOnlyEnv (st : Z) (j : option JSON) : Env :=
  serverEnv (fun url _ =>
    if prefix PROXY_BASE url then Ok (respond 200 j) else Ok (respond st None)).

(** No request gets through. *)
Definition offlineEnv : Env :=
  serverEnv (fun _ _ => Throw (TypeError "Failed to fetch")).

(** The paginated query lists nothing; the default query lists the mixed
    catalog. *)
Definition defaultOnlyEnv : Env :=
  serverEnv (fun url _ =>
    if prefix (API_BASE ^^ "/domains?_t=") url
    then Ok (respond 200 (Some mixedCatalog))
    else Ok (respond 200 (Some (catalog [])))).

(** The creation endpoint answers 422 to its first [n] requests and [st]
    afterwards. *)
Definition collisionsThenEnv (n : nat) (st : Z) : Env :=
  {| net := fun h _ _ =>
       if (count isCreateRequest h <? n)%nat then Ok (respond 422 None)
       else Ok (respond st None);
     clock := fun _ => 1700000000000%Z;
     dice := fun _ => 0%nat |}.

(** A provider on which creation and login succeed; the metadata request
    is answered [meStatus] with body [meBody]. *)
Definition apiAnswer (meStatus : Z) (meBody : option JSON) (url : string)
    : Result Response :=
  if String.eqb url accountsUrl then Ok (respond 201 (Some (JObj [])))
  else if String.eqb url tokenUrl then
    Ok (respond 200 (Some (JObj [("token", JStr "secret")])))
  else if String.eqb url meUrl then Ok (respond meStatus meBody)
  else Ok (respond 404 None).

Definition providerEnv (meStatus : Z) (meBody : option JSON) : Env :=
  serverEnv (fun url _ => apiAnswer meStatus meBody url).

Definition account42 : JSON := JObj [("id", JStr "42")].

(** The catalog is empty until two paginated queries have been made; the
    third one lists the mixed catalog.  Everything else succeeds. *)
Definition flakyCatalogEnv : Env :=
  {| net := fun h url _ =>
       if prefix (API_BASE ^^ "/domains?") url then
         if isPaginatedQuery (EvFetch url noInit)
            && (2 <=? count isPaginatedQuery h)%nat
         then Ok (respond 200 (Some mixedCatalog))
         else Ok (respond 200 (Some (catalog [])))
       else apiAnswer 200 (Some account42) url;
     clock := fun _ => 1700000000000%Z;
     dice := fun _ => 0%nat |}.

(** The catalog never lists a domain. *)
Definition emptyCatalogEnv : Env :=
  uniformEnv 200 (Some (catalog [])).

(** Message bodies as the provider sends them. *)
Definition htmlMessage : JSON :=
  JObj [("html", JArr [JStr "<p>Hi</p>"; JStr "<p>there</p>"]); ("text", JStr "Hi there")].

Definition textMessage : JSON :=
  JObj [("html", JArr []); ("text", JStr "Hi there")].

Definition bareMessage : JSON := JObj [("id", JStr "m1")].

(** ** Further observations *)

(** A character of [chars]: a lower-case letter or a digit. *)
Definition isLowerAlnum (c : ascii) : bool :=
  inRange "a" "z" c || inRange "0" "9" c.

Definition allChars (p : ascii -> bool) (s : string) : bool :=
  forallb p (list_ascii_of_string s).

(** Requests sent to the token and account-metadata endpoints. *)
Definition isTokenRequest : Event -> bool := isFetchOf (String.eqb tokenUrl).
Definition isMeRequest : Event -> bool := isFetchOf (String.eqb meUrl).

(** The entries kept by [d => d.isActive]. *)
Definition keepActive (items : list JSON) : list JSON :=
  filter (fun d => truthy (isActiveOf d)) items.

(** The array under [hydra:member], empty when the key is missing or
    falsy. *)
Definition membersOf (data : JSON) : option (list JSON) :=
  match propOf data "hydra:member" with
  | Some (JArr items) => Some items
  | v => if truthy v then None else Some []
  end.

(** Accounts can be created, but every login is refused with [st]. *)
Definition loginRefusedEnv (st : Z) : Env :=
  serverEnv (fun url _ =>
    if String.eqb url accountsUrl then Ok (respond 201 (Some (JObj [])))
    else Ok (respond st None)).

(** The creation endpoint answers 422 to its first [n] requests; after
    that the provider works. *)
Definition collisionsThenProviderEnv (n : nat) : Env :=
  {| net := fun h url _ =>
       if String.eqb url accountsUrl && (count isCreateRequest h <? n)%nat
       then Ok (respond 422 None)
       else apiAnswer 200 (Some account42) url;
     clock := fun _ => 1700000000000%Z;
     dice := fun _ => 0%nat |}.

(** ** The rest of mailService.ts: fetchMessages, lines 181-205 *)

(** [v.k] where [v] may be [undefined]. *)
Definition getPropAny (v : Any) (k : string) : Result Any :=
  match v with
  | None =>
      Throw (TypeError ("Cannot read properties of undefined (reading '" ^^ k ^^ "')"))
  | Some j => getProp j k
  end.

(** [a || b]. *)
Definition orElse (a b : Any) : Any := if truthy a then a else b.

(** [s.split('@')[0]]: what precedes the first [@], all of [s] when there
    is none. *)
Fixpoint beforeAt (s : string) : string :=
  match s with
  | EmptyString => EmptyString
  | String c rest =>
      if Ascii.eqb c "@" then EmptyString else String c (beforeAt rest)
  end.

(** [address.split('@')[0]] on a value of type [any]: only strings have
    [split]. *)
Definition localPart (address : Any) : Result Any :=
  match address with
  | Some (JStr s) => Ok (Some (JStr (beforeAt s)))
  | None => Throw (TypeError "Cannot read properties of undefined (reading 'split')")
  | Some JNull => Throw (TypeError "Cannot read properties of null (reading 'split')")
  | Some _ => Throw (TypeError "split is not a function")
  end.

(** [new Date(v)]: the date is kept as the value it is built from. *)
Inductive JsDate := NewDate (v : Any).

(** [EmailMessage] of types.ts; the fields read from the provider's JSON
    hold whatever value was there. *)
Record EmailMessage := {
  msg_id : Any;
  msg_sender : Any;
  msg_senderAddress : Any;
  msg_subject : Any;
  msg_preview : Any;
  msg_body : Any;
  msg_receivedAt : JsDate;
  msg_isRead : Any;
  msg_type : string;
  msg_hasFullDetails : bool
}.

(** The callback of [map], lines 190-201, fields in source order. *)
Definition toEmailMessage (msg : JSON) : Result EmailMessage :=
  match getProp msg "id" with Throw e => Throw e | Ok id =>
  match getProp msg "from" with Throw e => Throw e | Ok from =>
  match getPropAny from "name" with Throw e => Throw e | Ok name =>
  match (if truthy name then Ok name
         else match getPropAny from "address" with
              | Throw e => Throw e
              | Ok address => localPart address
              end) with Throw e => Throw e | Ok sender =>
  match getPropAny from "address" with Throw e => Throw e | Ok senderAddress =>
  match getProp msg "subject" with Throw e => Throw e | Ok subject =>
  match getProp msg "intro" with Throw e => Throw e | Ok intro =>
  match getProp msg "createdAt" with Throw e => Throw e | Ok createdAt =>
  match getProp msg "seen" with Throw e => Throw e | Ok seen =>
    Ok {| msg_id := id;
          msg_sender := sender;
          msg_senderAddress := senderAddress;
          msg_subject := subject;
          msg_preview := orElse intro (Some (JStr "No preview available"));
          msg_body := orElse intro (Some (JStr EmptyString));
          msg_receivedAt := NewDate createdAt;
          msg_isRead := seen;
          msg_type := "normal";
          msg_hasFullDetails := false |}
  end end end end end end end end end.

(** [array.map(f)] with a callback that may throw. *)
Fixpoint mapResult {A B} (f : A -> Result B) (l : list A) : Result (list B) :=
  match l with
  | [] => Ok []
  | x :: rest =>
      match f x with
      | Throw e => Throw e
      | Ok y =>
          match mapResult f rest with
          | Throw e => Throw e
          | Ok ys => Ok (y :: ys)
          end
      end
  end.

(** [data['hydra:member'].map(...)]: only arrays have [map]. *)
Definition mapMembers (data : JSON) : Result (list EmailMessage) :=
  match getProp data "hydra:member" with
  | Throw e => Throw e
  | Ok (Some (JArr msgs)) => mapResult toEmailMessage msgs
  | Ok None =>
      Throw (TypeError "Cannot read properties of undefined (reading 'map')")
  | Ok (Some JNull) =>
      Throw (TypeError "Cannot read properties of null (reading 'map')")
  | Ok (Some _) => Throw (TypeError "map is not a function")
  end.

Definition messagesUrl : string := API_BASE ^^ "/messages?page=1".

Definition fetchMessages (token : string) : M (list EmailMessage) :=
  tryCatch
    (res <- smartFetch messagesUrl (bearer (Some (JStr token))) ;;
     if negb (ok res) then ret []
     else
       data <- json res ;;
       liftR (mapMembers data))
    (fun _ => ret []).

(** A message as the provider lists it. *)
Definition listedMessage (id name address intro : string) : JSON :=
  JObj [("id", JStr id);
        ("from", JObj [("name", JStr name); ("address", JStr address)]);
        ("subject", JStr "Hello");
        ("intro", JStr intro);
        ("createdAt", JStr "2024-01-01T00:00:00+00:00");
        ("seen", JBool false)].

Definition inbox (msgs : list JSON) : JSON := JObj [("hydra:member", JArr msgs)].

(** A listed message without its [from] field. *)
Definition brokenMessage : JSON := JObj [("id", JStr "m9")].

Definition propOfAny (v : Any) (k : string) : Any :=
  match v with Some j => propOf j k | None => None end.

(** What a listed message [m] and its summary [em] have in common. *)
Definition summarises (m : JSON) (em : EmailMessage) : Prop :=
  let from := propOf m "from" in
  let name := propOfAny from "name" in
  let address := propOfAny from "address" in
  let intro := propOf m "intro" in
  msg_id em = propOf m "id"
  /\ msg_subject em = propOf m "subject"
  /\ msg_senderAddress em = address
  /\ msg_isRead em = propOf m "seen"
  /\ msg_receivedAt em = NewDate (propOf m "createdAt")
  /\ msg_preview em = orElse intro (Some (JStr "No preview available"))
  /\ msg_body em = orElse intro (Some (JStr EmptyString))
  /\ msg_type em = "normal"
  /\ msg_hasFullDetails em = false
  /\ (if truthy name then msg_sender em = name
      else exists s, address = Some (JStr s) /\ msg_sender em = Some (JStr (beforeAt s))).

(** ** The application shell (App.tsx)

    A handler is a function from the state it reads to the state it
    leaves, run without another handler in between; the state is made of
    the component's [useState] cells that these handlers use.  Numbers of
    milliseconds are integers. *)

Definition SESSION_DURATION_MS : Z := 10 * 60 * 1000.

Record AppState := {
  session : option UserSession;
  timeLeft : Z;
  emails : list EmailMessage;
  selectedEmailId : option string;
  isRefreshing : bool;
  error : option string;
  isPremiumModalOpen : bool
}.

Definition setSession (s : option UserSession) (st : AppState) : AppState :=
  {| session := s; timeLeft := timeLeft st; emails := emails st;
     selectedEmailId := selectedEmailId st; isRefreshing := isRefreshing st;
     error := error st; isPremiumModalOpen := isPremiumModalOpen st |}.

Definition setTimeLeft (t : Z) (st : AppState) : AppState :=
  {| session := session st; timeLeft := t; emails := emails st;
     selectedEmailId := selectedEmailId st; isRefreshing := isRefreshing st;
     error := error st; isPremiumModalOpen := isPremiumModalOpen st |}.

Definition setEmails (l : list EmailMessage) (st : AppState) : AppState :=
  {| session := session st; timeLeft := timeLeft st; emails := l;
     selectedEmailId := selectedEmailId st; isRefreshing := isRefreshing st;
     error := error st; isPremiumModalOpen := isPremiumModalOpen st |}.

Definition setSelectedEmailId (i : option string) (st : AppState) : AppState :=
  {| session := session st; timeLeft := timeLeft st; emails := emails st;
     selectedEmailId := i; isRefreshing := isRefreshing st;
     error := error st; isPremiumModalOpen := isPremiumModalOpen st |}.

Definition setIsRefreshing (b : bool) (st : AppState) : AppState :=
  {| session := session st; timeLeft := timeLeft st; emails := emails st;
     selectedEmailId := selectedEmailId st; isRefreshing := b;
     error := error st; isPremiumModalOpen := isPremiumModalOpen st |}.

Definition setError (e : option string) (st : AppState) : AppState :=
  {| session := session st; timeLeft := timeLeft st; emails := emails st;
     selectedEmailId := selectedEmailId st; isRefreshing := isRefreshing st;
     error := e; isPremiumModalOpen := isPremiumModalOpen st |}.

Definition setIsPremiumModalOpen (b : bool) (st : AppState) : AppState :=
  {| session := session st; timeLeft := timeLeft st; emails := emails st;
     selectedEmailId := selectedEmailId st; isRefreshing := isRefreshing st;
     error := error st; isPremiumModalOpen := b |}.

(** [a === b] on values of which at most one side is an object of the
    other's response: arrays and objects of different responses are
    different objects; numbers are equal when they print alike. *)
Definition strictEq (a b : Any) : bool :=
  match a, b with
  | None, None => true
  | Some JNull, Some JNull => true
  | Some (JBool x), Some (JBool y) => Bool.eqb x y
  | Some (JNum x), Some (JNum y) => String.eqb (num_text x) (num_text y)
  | Some (JStr x), Some (JStr y) => String.eqb x y
  | _, _ => false
  end.

(** [e.id === id] for a string [id]. *)
Definition hasId (id : string) (e : EmailMessage) : bool :=
  strictEq (msg_id e) (Some (JStr id)).

(** Division of doubles, for integer operands.  [a / b] is the double
    nearest to the exact quotient, ties to even: a mantissa [m] of 53 bits
    scaled by a power of two, [m * 2^(-s)].  [pow2 k] is [2^k] for
    [k >= 0] and 1 below, so that a scaling by [2^k] of either sign is
    written with integers; [binade a b] is the exponent of the quotient,
    [floor (log2 (a / b))], for positive [a] and [b]. *)
Definition pow2 (k : Z) : Z := (2 ^ Z.max 0 k)%Z.

(** The integer nearest to [x / y], ties to even, for [0 <= x], [0 < y]. *)
Definition roundHalfEven (x y : Z) : Z :=
  let f := (x / y)%Z in
  let r := (x mod y)%Z in
  if (2 * r <? y)%Z then f
  else if (y <? 2 * r)%Z then (f + 1)%Z
  else if Z.even f then f else (f + 1)%Z.

Definition binade (a b : Z) : Z :=
  let e := (Z.log2 a - Z.log2 b)%Z in
  if (a * pow2 (- e) <? b * pow2 e)%Z then (e - 1)%Z else e.

(** [Math.floor(a / b)] for an integer [a] and a positive integer [b],
    both doubles: the quotient is rounded to 53 bits, then floored. *)
Definition floorQuotient (a b : Z) : Z :=
  if (a =? 0)%Z then 0%Z
  else
    let s := (52 - binade (Z.abs a) b)%Z in
    let m := roundHalfEven (Z.abs a * pow2 s) (b * pow2 (- s)) in
    ((Z.sgn a * m * pow2 (- s)) / pow2 s)%Z.

(** [formatTime], lines 184-188.  [ms] is an integer that is a double;
    [ms % 60000] is exact (the remainder has the sign of [ms]) and the two
    divisions round.  Minutes and seconds are printed in decimal, which is
    how a number below [2^53] in absolute value is printed. *)
Definition formatTime (ms : Z) : string :=
  let minutes := floorQuotient ms 60000 in
  let seconds := floorQuotient (Z.rem ms 60000) 1000 in
  showZ minutes ^^ ":" ^^ (if (seconds <? 10)%Z then "0" else EmptyString)
    ^^ showZ seconds.

(** The countdown effect, lines 49-69.  [countdownStart] is the body run
    when the session changes: [Some true] when an interval is started.
    [countdownTick] is the interval's callback for the session it was
    started with: the new state and whether the interval is cleared. *)
Definition countdownStart (st : AppState) : AppState * bool :=
  match session st with
  | None => (st, false)
  | Some s =>
      if isPremium s then (setTimeLeft SESSION_DURATION_MS st, false)
      else (st, true)
  end.

Definition countdownTick (s : UserSession) (st : AppState) : M (AppState * bool) :=
  match expiresAt s with
  | None => ret (st, false)
  | Some expires =>
      now <- dateNow ;;
      let remaining := (expires - now)%Z in
      if (remaining <=? 0)%Z then ret (setTimeLeft 0 st, true)
      else ret (setTimeLeft remaining st, false)
  end.

(** The updater of [pollEmails], lines 79-91. *)
Definition mergePoll (newMessages prevEmails : list EmailMessage)
    : list EmailMessage :=
  if negb (List.length newMessages =? List.length prevEmails)%nat then newMessages
  else
    match newMessages, prevEmails with
    | n0 :: _, p0 :: _ =>
        if negb (strictEq (msg_id n0) (msg_id p0)) then newMessages else prevEmails
    | _, _ => prevEmails
    end.

(** [session?.token] when truthy. *)
Definition sessionToken (st : AppState) : option Any :=
  match session st with
  | Some s => if truthy (token s) then Some (token s) else None
  | None => None
  end.

(** [pollEmails], lines 73-92. *)
Definition pollEmails (st : AppState) : M AppState :=
  match sessionToken st with
  | None => ret st
  | Some tok =>
      newMessages <- fetchMessages (toString tok) ;;
      ret (setEmails (mergePoll newMessages (emails st)) st)
  end.

(** [{ ...e, ...details }]. *)
Definition withDetails (e : EmailMessage) (details : MessageDetails) : EmailMessage :=
  {| msg_id := msg_id e; msg_sender := msg_sender e;
     msg_senderAddress := msg_senderAddress e; msg_subject := msg_subject e;
     msg_preview := msg_preview e; msg_body := Some (md_body details);
     msg_receivedAt := msg_receivedAt e; msg_isRead := msg_isRead e;
     msg_type := msg_type e; msg_hasFullDetails := md_hasFullDetails details |}.

(** The fields of a listed message other than its body and
    [hasFullDetails]. *)
Definition sameSummary (e e' : EmailMessage) : Prop :=
  msg_id e' = msg_id e /\ msg_sender e' = msg_sender e
  /\ msg_senderAddress e' = msg_senderAddress e /\ msg_subject e' = msg_subject e
  /\ msg_preview e' = msg_preview e /\ msg_receivedAt e' = msg_receivedAt e
  /\ msg_isRead e' = msg_isRead e /\ msg_type e' = msg_type e.

(** A message [e] of the list and what stands in its place, [e'], once
    the details [d] of the message selected by [sel] have arrived. *)
Definition loadedAs (sel : string) (d : MessageDetails) (e e' : EmailMessage) : Prop :=
  if hasId sel e
  then msg_body e' = Some (md_body d) /\ msg_hasFullDetails e' = true
       /\ sameSummary e e'
  else e' = e.

(** [fetchBody], lines 102-115. *)
Definition fetchBody (st : AppState) : M AppState :=
  match selectedEmailId st, sessionToken st with
  | Some sel, Some tok =>
      if negb (nonEmpty sel) then ret st
      else
        match find (hasId sel) (emails st) with
        | Some email =>
            if negb (msg_hasFullDetails email) then
              details <- fetchMessageDetails (toString tok) sel ;;
              match details with
              | Some d =>
                  ret (setEmails
                         (map (fun e => if hasId sel e then withDetails e d else e)
                            (emails st)) st)
              | None => ret st
              end
            else ret st
        | None => ret st
        end
  | _, _ => ret st
  end.

(** [e.message || fallback]. *)
Definition messageOf (e : Exn) : string :=
  match e with Error m => m | TypeError m => m | SyntaxError m => m end.

Definition messageOr (e : Exn) (fallback : string) : string :=
  if nonEmpty (messageOf e) then messageOf e else fallback.

Definition createFailedFallback : string :=
  "فشل في إنشاء بريد جديد. يرجى المحاولة مرة أخرى.".

Definition newSessionState (newSession : UserSession) (st : AppState) : AppState :=
  setTimeLeft SESSION_DURATION_MS
    (setSelectedEmailId None (setEmails [] (setSession (Some newSession) st))).

(** [handleCreateSession], lines 122-138; [console.error(e)] is logged
    with an empty message. *)
Definition handleCreateSession (st : AppState) : M AppState :=
  let st1 := setError None (setIsRefreshing true st) in
  st2 <- tryCatch
           (newSession <- createRealAccount None None ;;
            ret (newSessionState newSession st1))
           (fun e =>
              console Err EmptyString (Some e) ;;;
              ret (setError (Some (messageOr e createFailedFallback)) st1)) ;;
  ret (setIsRefreshing false st2).

(** [handlePremiumCreate], lines 140-146. *)
Definition handlePremiumCreate (username domain : string) (st : AppState)
    : M AppState :=
  newSession <- createRealAccount (Some username) (Some domain) ;;
  ret (newSessionState newSession st).

Definition withExpiry (s : UserSession) (expires : option Z) : UserSession :=
  {| emailAddress := emailAddress s; createdAt := createdAt s;
     expiresAt := expires; isPremium := isPremium s; token := token s;
     accountId := accountId s; password := password s; isMock := isMock s |}.

(** [extendSession], lines 148-156. *)
Definition extendSession (st : AppState) : M AppState :=
  match session st with
  | None => ret st
  | Some s =>
      if isPremium s then ret st
      else
        now <- dateNow ;;
        ret (setTimeLeft SESSION_DURATION_MS
               (setSession (Some (withExpiry s (Some (now + SESSION_DURATION_MS)%Z))) st))
  end.

Definition deleteFailedAlert : string := "فشل حذف الرسالة".

(** [handleDeleteEmail], lines 164-180: the state it leaves and the text
    it alerts, if any. *)
Definition handleDeleteEmail (id : string) (st : AppState)
    : M (AppState * option string) :=
  match sessionToken st with
  | None => ret (st, None)
  | Some tok =>
      let prevEmails := emails st in
      let st1 := setEmails (filter (fun e => negb (hasId id e)) (emails st)) st in
      let st2 :=
        match selectedEmailId st with
        | Some sel => if String.eqb sel id then setSelectedEmailId None st1 else st1
        | None => st1
        end in
      success <- deleteMessage (toString tok) id ;;
      if negb success then ret (setEmails prevEmails st2, Some deleteFailedAlert)
      else ret (st2, None)
  end.

(** The value of a decimal digit. *)
Definition digitValue (c : ascii) : Z := Z.of_nat (nat_of_ascii c) - 48.

Definition isDigit (c : ascii) : bool := inRange "0" "9" c.

(** A session is unlimited exactly when it is premium. *)
Definition premiumUnlimited (st : AppState) : Prop :=
  forall s, session st = Some s -> (isPremium s = true <-> expiresAt s = None).

(** A running provider with two listed messages. *)
Definition mailboxAnswer (url : string) : Result Response :=
  if String.eqb url messagesUrl then
    Ok (respond 200
          (Some (inbox [listedMessage "m1" "Ann" "ann@a.com" "Hi";
                        listedMessage "m2" "Bob" "bob@b.org" "Yo"])))
  else if prefix (API_BASE ^^ "/messages/") url then Ok (respond 200 (Some htmlMessage))
  else apiAnswer 200 (Some account42) url.

Definition mailboxEnv : Env := serverEnv (fun url _ => mailboxAnswer url).

Definition sampleSession (premium : bool) : UserSession :=
  {| emailAddress := "aaaaaaaaaa@x.com"; createdAt := 1700000000000;
     expiresAt := if premium then None else Some 1700000600000%Z;
     isPremium := premium; token := Some (JStr "secret");
     accountId := Some (JStr "42"); password := "aaaaaaaaaaaa"; isMock := false |}.

Definition summaryOf (id : string) (full : bool) : EmailMessage :=
  {| msg_id := Some (JStr id); msg_sender := Some (JStr "Ann");
     msg_senderAddress := Some (JStr "ann@a.com"); msg_subject := Some (JStr "Hello");
     msg_preview := Some (JStr "Hi"); msg_body := Some (JStr "Hi");
     msg_receivedAt := NewDate (Some (JStr "2024-01-01T00:00:00+00:00"));
     msg_isRead := Some (JBool false); msg_type := "normal";
     msg_hasFullDetails := full |}.

Definition sampleState (premium : bool) (l : list EmailMessage)
    (sel : option string) : AppState :=
  {| session := Some (sampleSession premium); timeLeft := SESSION_DURATION_MS;
     emails := l; selectedEmailId := sel; isRefreshing := false;
     error := None; isPremiumModalOpen := false |}.

(** ** The premium dialog (PremiumModal.tsx) *)

(** [s.length] counts UTF-16 code units: one per character of the basic
    plane, two beyond it. *)
Definition utf16Units (c : ascii) : nat :=
  let n := nat_of_ascii c in
  if (n <? 128)%nat then 1%nat
  else if (n <? 192)%nat then 0%nat
  else if (n <? 240)%nat then 1%nat
  else 2%nat.

Fixpoint utf16Length (s : string) : nat :=
  match s with
  | EmptyString => 0%nat
  | String c rest => (utf16Units c + utf16Length rest)%nat
  end.

Definition nameTooShortMessage : string := "يجب أن يتكون الاسم من 3 أحرف على الأقل".
Definition chooseDomainMessage : string := "يرجى اختيار نطاق".
Definition creationErrorFallback : string := "حدث خطأ أثناء الإنشاء".
Definition noDomainsFoundMessage : string := "لم يتم العثور على نطاقات. يرجى التحديث.".
Definition connectionErrorMessage : string := "خطأ في الاتصال".

(** The form: what the user typed and picked, and the dialog's own flags. *)
Record ModalState := {
  modal_username : string;
  modal_selectedDomain : string;
  modal_isProcessing : bool;
  modal_error : option string
}.

Definition setModalError (e : option string) (m : ModalState) : ModalState :=
  {| modal_username := modal_username m;
     modal_selectedDomain := modal_selectedDomain m;
     modal_isProcessing := modal_isProcessing m; modal_error := e |}.

Definition setIsProcessing (b : bool) (m : ModalState) : ModalState :=
  {| modal_username := modal_username m;
     modal_selectedDomain := modal_selectedDomain m;
     modal_isProcessing := b; modal_error := modal_error m |}.

(** A creation request, if [e] is one, registers [address]. *)
Definition registers (address : string) (e : Event) : Prop :=
  isCreateRequest e = true ->
  exists pw, e = EvFetch accountsUrl (postCredentials address pw).

(** [handlePaymentAndCreate], lines 50-74, with [onUpgrade] and [onClose]
    as App.tsx passes them: [handlePremiumCreate] and closing the
    dialog. *)
Definition handlePaymentAndCreate (m : ModalState) (st : AppState)
    : M (ModalState * AppState) :=
  let username := modal_username m in
  let selectedDomain := modal_selectedDomain m in
  if negb (nonEmpty username) || (utf16Length username <? 3)%nat then
    ret (setModalError (Some nameTooShortMessage) m, st)
  else if negb (nonEmpty selectedDomain) then
    ret (setModalError (Some chooseDomainMessage) m, st)
  else
    let m1 := setModalError None (setIsProcessing true m) in
    sleep 1500 ;;;
    r <- tryCatch
           (st' <- handlePremiumCreate username selectedDomain st ;;
            ret (m1, setIsPremiumModalOpen false st'))
           (fun err =>
              ret (setModalError (Some (messageOr err creationErrorFallback)) m1, st)) ;;
    ret (setIsProcessing false (fst r), snd r).

(** [s.endsWith(suffix)]. *)
Definition endsWith (s suffix : string) : bool :=
  let n := String.length s in
  let m := String.length suffix in
  (m <=? n)%nat && String.eqb (substring (n - m) m s) suffix.

(** [d.domain.endsWith('.com')]: only strings have [endsWith]. *)
Definition domainEndsWithCom (d : JSON) : Result bool :=
  match getProp d "domain" with
  | Throw e => Throw e
  | Ok (Some (JStr s)) => Ok (endsWith s ".com")
  | Ok None =>
      Throw (TypeError "Cannot read properties of undefined (reading 'endsWith')")
  | Ok (Some JNull) =>
      Throw (TypeError "Cannot read properties of null (reading 'endsWith')")
  | Ok (Some _) => Throw (TypeError "endsWith is not a function")
  end.

(** The comparator of lines 32-36, with its two short-circuit tests. *)
Definition comFirst (a b : JSON) : Result Z :=
  match domainEndsWithCom a with
  | Throw e => Throw e
  | Ok aCom =>
      match (if aCom then
               match domainEndsWithCom b with
               | Throw e => Throw e
               | Ok bCom => Ok (negb bCom)
               end
             else Ok false) with
      | Throw e => Throw e
      | Ok true => Ok (-1)%Z
      | Ok false =>
          match (if negb aCom then domainEndsWithCom b else Ok false) with
          | Throw e => Throw e
          | Ok true => Ok 1%Z
          | Ok false => Ok 0%Z
          end
      end
  end.

(** [Array.prototype.sort(compare)].  The sort is stable, and this
    comparator orders by one boolean key, so the sorted array does not
    depend on the engine's algorithm; the model inserts the elements one by
    one.  With two elements or more every element meets the comparator, so
    the sort throws exactly when the comparator can. *)
Fixpoint insertSorted (compare : JSON -> JSON -> Result Z) (x : JSON)
    (sorted : list JSON) : Result (list JSON) :=
  match sorted with
  | [] => Ok [x]
  | y :: rest =>
      match compare y x with
      | Throw e => Throw e
      | Ok c =>
          if (0 <? c)%Z then Ok (x :: y :: rest)
          else
            match insertSorted compare x rest with
            | Throw e => Throw e
            | Ok rest' => Ok (y :: rest')
            end
      end
  end.

Fixpoint sortFrom (compare : JSON -> JSON -> Result Z) (sorted l : list JSON)
    : Result (list JSON) :=
  match l with
  | [] => Ok sorted
  | x :: rest =>
      match insertSorted compare x sorted with
      | Throw e => Throw e
      | Ok sorted' => sortFrom compare sorted' rest
      end
  end.

Definition sortWith (compare : JSON -> JSON -> Result Z) (l : list JSON)
    : Result (list JSON) :=
  sortFrom compare [] l.

(** The cells written by [loadDomains]. *)
Record DomainChoice := {
  choice_domains : list JSON;
  choice_selectedDomain : Any;
  choice_isLoading : bool;
  choice_error : option string
}.

(** [loadDomains], lines 26-48. *)
Definition loadDomains (prev : DomainChoice) : M DomainChoice :=
  r <- tryCatch
         (available <- getAvailableDomains ;;
          available <- liftR (sortWith comFirst available) ;;
          match available with
          | first :: _ =>
              selected <- liftR (getProp first "domain") ;;
              ret {| choice_domains := available; choice_selectedDomain := selected;
                     choice_isLoading := true; choice_error := None |}
          | [] =>
              ret {| choice_domains := available;
                     choice_selectedDomain := choice_selectedDomain prev;
                     choice_isLoading := true;
                     choice_error := Some noDomainsFoundMessage |}
          end)
         (fun _ =>
            ret {| choice_domains := choice_domains prev;
                   choice_selectedDomain := choice_selectedDomain prev;
                   choice_isLoading := true;
                   choice_error := Some connectionErrorMessage |}) ;;
  ret {| choice_domains := choice_domains r;
         choice_selectedDomain := choice_selectedDomain r;
         choice_isLoading := false; choice_error := choice_error r |}.

(** Whether an entry's domain is a string ending in [.com]. *)
Definition isCom (d : JSON) : bool :=
  match propOf d "domain" with
  | Some (JStr s) => endsWith s ".com"
  | _ => false
  end.

Definition hasStringDomain (d : JSON) : Prop :=
  exists s, getProp d "domain" = Ok (Some (JStr s)).

Definition threeDomainsCatalog : JSON :=
  catalog [domainEntry "a.org" true; domainEntry "b.com" true; domainEntry "c.net" true;
           domainEntry "d.com" true; domainEntry "e.com" false].

(** A catalog one of whose active entries carries no name. *)
Definition namelessCatalog : JSON :=
  catalog [domainEntry "a.com" true; JObj [("isActive", JBool true)]].

Definition emptyChoice : DomainChoice :=
  {| choice_domains := []; choice_selectedDomain := Some (JStr EmptyString);
     choice_isLoading := false; choice_error := None |}.

(** The entries ending in [.com] first, both groups in their order. *)
Definition comsFirst (l : list JSON) : list JSON :=
  filter isCom l ++ filter (fun d => negb (isCom d)) l.
(** ** Basic facts *)

Lemma count_app p t1 t2 : count p (t1 ++ t2) = (count p t1 + count p t2)%nat.
Proof.
  unfold count. now rewrite filter_app, length_app.
Qed.

Lemma count_nil p : count p [] = 0%nat.
Proof. reflexivity. Qed.

Lemma percentDecode_step c rest :
  percentDecode (encodeURIComponent (String c rest))
  = option_map (String c) (percentDecode (encodeURIComponent rest)).
Proof.
  destruct c as [[] [] [] [] [] [] [] []]; reflexivity.
Qed.

(** Percent-encoding loses nothing: decoding gives the URL back. *)
Lemma percentDecode_encodeURIComponent s :
  percentDecode (encodeURIComponent s) = Some s.
Proof.
  induction s as [|c rest IH].
  - reflexivity.
  - rewrite percentDecode_step, IH. reflexivity.
Qed.

Lemma smartFetch_direct url options env h res :
  net env h url options = Ok res ->
  blocked res = false ->
  smartFetch url options env h = ([EvFetch url options], Ok res).
Proof.
  intros Hnet Hb.
  unfold smartFetch, tryCatch, bind, fetch, ret, throw.
  rewrite Hnet, Hb. reflexivity.
Qed.

Lemma smartFetch_proxied url options env h :
  directFailed (net env h url options) = true ->
  let h1 := h ++ [EvFetch url options] in
  let proxyUrl := proxyUrlFor url (clock env h1) in
  smartFetch url options env h
  = ([EvFetch url options; EvNow; EvFetch proxyUrl options],
     net env (h1 ++ [EvNow]) proxyUrl options).
Proof.
  intros Hd h1 proxyUrl.
  unfold smartFetch, tryCatch, bind, fetch, ret, throw, dateNow.
  unfold directFailed in Hd.
  destruct (net env h url options) as [res|e] eqn:Hnet; simpl.
  - unfold blocked. rewrite Hd. reflexivity.
  - reflexivity.
Qed.

(** The two shapes a [smartFetch] can take. *)
Lemma smartFetch_cases url options env h :
  (exists res, net env h url options = Ok res /\ blocked res = false /\
     smartFetch url options env h = ([EvFetch url options], Ok res))
  \/ (directFailed (net env h url options) = true /\
      smartFetch url options env h
      = ([EvFetch url options; EvNow;
          EvFetch (proxyUrlFor url (clock env (h ++ [EvFetch url options]))) options],
         net env ((h ++ [EvFetch url options]) ++ [EvNow])
           (proxyUrlFor url (clock env (h ++ [EvFetch url options]))) options)).
Proof.
  destruct (directFailed (net env h url options)) eqn:Hd.
  - right. split; [reflexivity|]. now apply smartFetch_proxied.
  - left. unfold directFailed in Hd.
    destruct (net env h url options) as [res|e] eqn:Hnet; [|discriminate].
    exists res. repeat split; auto.
    apply smartFetch_direct; auto.
Qed.

(** *** Inversion of the monad's combinators *)

Lemma bind_inv {A B} (m : M A) (k : A -> M B) env h t r :
  bind m k env h = (t, r) ->
  (exists t1 a t2, m env h = (t1, Ok a) /\ k a env (h ++ t1) = (t2, r) /\ t = t1 ++ t2)
  \/ (exists e, m env h = (t, Throw e) /\ r = Throw e).
Proof.
  unfold bind. destruct (m env h) as [t1 [a|e]].
  - destruct (k a env (h ++ t1)) as [t2 r2] eqn:Hk. intros [= <- <-].
    left. exists t1, a, t2. auto.
  - intros [= <- <-]. right. exists e. auto.
Qed.

Lemma bind_ok {A B} (m : M A) (k : A -> M B) env h t1 a :
  m env h = (t1, Ok a) ->
  bind m k env h = (t1 ++ events (k a env (h ++ t1)), outcome (k a env (h ++ t1))).
Proof.
  intros Hm. unfold bind. rewrite Hm.
  destruct (k a env (h ++ t1)); reflexivity.
Qed.

Lemma bind_throw {A B} (m : M A) (k : A -> M B) env h t1 e :
  m env h = (t1, Throw e) ->
  bind m k env h = (t1, Throw e).
Proof.
  intros Hm. unfold bind. now rewrite Hm.
Qed.

Lemma tryCatch_ok {A} (m : M A) handler env h t1 a :
  m env h = (t1, Ok a) -> tryCatch m handler env h = (t1, Ok a).
Proof.
  intros Hm. unfold tryCatch. now rewrite Hm.
Qed.

Lemma tryCatch_throw {A} (m : M A) handler env h t1 e :
  m env h = (t1, Throw e) ->
  tryCatch m handler env h
  = (t1 ++ events (handler e env (h ++ t1)), outcome (handler e env (h ++ t1))).
Proof.
  intros Hm. unfold tryCatch. rewrite Hm.
  destruct (handler e env (h ++ t1)); reflexivity.
Qed.

Lemma surjective_run {A} (out : Trace * Result A) :
  out = (events out, outcome out).
Proof. now destruct out. Qed.

(** *** Domain discovery *)

Lemma filterActive_sound domains kept :
  filterActive domains = Ok kept -> Forall activeEntry kept.
Proof.
  revert kept. induction domains as [|d rest IH]; intros kept; simpl.
  - intros [= <-]. constructor.
  - destruct (getProp d "isActive") as [v|e] eqn:Hv; [|discriminate].
    destruct (filterActive rest) as [kept'|e]; [|discriminate].
    destruct (truthy v) eqn:Ht; intros [= <-]; auto.
    constructor; auto. unfold activeEntry, isActiveOf. now rewrite Hv.
Qed.

Lemma filterActive_incl domains kept :
  filterActive domains = Ok kept -> incl kept domains.
Proof.
  revert kept. induction domains as [|d rest IH]; intros kept; simpl.
  - intros [= <-]. apply incl_refl.
  - destruct (getProp d "isActive") as [v|e]; [|discriminate].
    destruct (filterActive rest) as [kept'|e]; [|discriminate].
    destruct (truthy v); intros [= <-].
    + apply incl_cons; [now left|]. apply incl_tl. now apply IH.
    + apply incl_tl. now apply IH.
Qed.

Lemma activeMembers_sound data kept :
  activeMembers data = Ok kept -> Forall activeEntry kept.
Proof.
  unfold activeMembers.
  destruct (getProp data "hydra:member") as [member|e]; [|discriminate].
  destruct (if truthy member then member else Some (JArr [])) as [[]|];
    try discriminate.
  apply filterActive_sound.
Qed.

(** An active entry whose flag is a boolean has the flag [true]. *)
Lemma activeEntry_bool d b :
  activeEntry d -> isActiveOf d = Some (JBool b) -> b = true.
Proof.
  unfold activeEntry. intros Ht Hb. rewrite Hb in Ht. exact Ht.
Qed.

Lemma strategyA_inv env h t ds :
  strategyA env h = (t, Ok (Some ds)) ->
  exists t1 res data,
    smartFetch (domainsUrlA (clock env h)) noInit env (h ++ [EvNow]) = (t1, Ok res)
    /\ ok res = true /\ payload res = Some data
    /\ activeMembers data = Ok ds /\ nonEmptyList ds = true
    /\ t = EvNow :: t1.
Proof.
  unfold strategyA, bind, dateNow, json, liftR, ret, throw.
  destruct (smartFetch _ _ _ _) as [t1 [res|e]]; [|discriminate].
  destruct (ok res) eqn:Hok; [|discriminate].
  destruct (payload res) as [data|] eqn:Hp; [|discriminate].
  destruct (activeMembers data) as [domains|e] eqn:Ha; [|discriminate].
  destruct (nonEmptyList domains) eqn:Hne; [|discriminate].
  intros [= <- <-]. exists t1, res, data.
  repeat split; auto. simpl. now rewrite !app_nil_r.
Qed.

Lemma strategyA_early env h t1 res data ds :
  smartFetch (domainsUrlA (clock env h)) noInit env (h ++ [EvNow]) = (t1, Ok res) ->
  ok res = true -> payload res = Some data ->
  activeMembers data = Ok ds -> nonEmptyList ds = true ->
  strategyA env h = (EvNow :: t1, Ok (Some ds)).
Proof.
  intros Hf Hok Hp Ha Hne.
  unfold strategyA, bind, dateNow, json, liftR, ret, throw.
  rewrite Hf, Hok, Hp, Ha, Hne. simpl. now rewrite !app_nil_r.
Qed.

Lemma strategyB_sound env h t ds :
  strategyB env h = (t, Ok ds) -> Forall activeEntry ds.
Proof.
  unfold strategyB, bind, dateNow, json, liftR, ret, throw.
  destruct (smartFetch _ _ _ _) as [t1 [res|e]]; [|discriminate].
  destruct (ok res).
  - destruct (payload res) as [data|]; [|discriminate].
    destruct (activeMembers data) as [domains|e] eqn:Ha; [|discriminate].
    intros [= _ <-]. now apply activeMembers_sound with data.
  - intros [= _ <-]. constructor.
Qed.

(** [getAvailableDomains] never throws, and what it returns passed the
    filter. *)
Lemma getAvailableDomains_sound env h :
  exists ds, outcome (getAvailableDomains env h) = Ok ds /\ Forall activeEntry ds.
Proof.
  unfold getAvailableDomains, tryCatch.
  destruct (bind strategyA _ env h) as [t [ds|e]] eqn:Hrun.
  - exists ds. split; [reflexivity|].
    apply bind_inv in Hrun as [(t1 & early & t2 & HA & Hk & _) | (e & _ & [=])].
    destruct early as [domains|].
    + injection Hk as _ <-.
      apply strategyA_inv in HA as (? & ? & data & _ & _ & _ & Ha & _).
      now apply activeMembers_sound with data.
    + now apply strategyB_sound in Hk.
  - exists []. split; [reflexivity | constructor].
Qed.

Lemma getAvailableDomains_total env h :
  exists ds, outcome (getAvailableDomains env h) = Ok ds.
Proof.
  destruct (getAvailableDomains_sound env h) as (ds & H & _). eauto.
Qed.

(** *** Which requests a step can issue *)

Lemma proxy_not_api url now suffix :
  prefix (API_BASE ^^ suffix) (proxyUrlFor url now) = false.
Proof. reflexivity. Qed.

Lemma proxy_not_accounts url now :
  String.eqb accountsUrl (proxyUrlFor url now) = false.
Proof. reflexivity. Qed.

(** Through [smartFetch], only the direct request can match a predicate
    that rejects the proxy's URLs. *)
Lemma smartFetch_count p url options env h :
  (forall u now, p (proxyUrlFor u now) = false) ->
  count (isFetchOf p) (events (smartFetch url options env h))
  = if p url then 1%nat else 0%nat.
Proof.
  intros Hp.
  destruct (smartFetch_cases url options env h)
    as [(res & _ & _ & ->) | (_ & ->)]; unfold count; simpl.
  - destruct (p url); reflexivity.
  - rewrite Hp. destruct (p url); reflexivity.
Qed.

(** *** Events and outcome of composed computations *)

Lemma events_bind {A B} (m : M A) (k : A -> M B) env h :
  events (bind m k env h)
  = events (m env h)
    ++ match outcome (m env h) with
       | Ok a => events (k a env (h ++ events (m env h)))
       | Throw _ => []
       end.
Proof.
  unfold bind. destruct (m env h) as [t1 [a|e]]; simpl.
  - destruct (k a env (h ++ t1)); reflexivity.
  - now rewrite app_nil_r.
Qed.

Lemma outcome_bind {A B} (m : M A) (k : A -> M B) env h :
  outcome (bind m k env h)
  = match outcome (m env h) with
    | Ok a => outcome (k a env (h ++ events (m env h)))
    | Throw e => Throw e
    end.
Proof.
  unfold bind. destruct (m env h) as [t1 [a|e]]; simpl.
  - destruct (k a env (h ++ t1)); reflexivity.
  - reflexivity.
Qed.

Lemma events_tryCatch {A} (m : M A) handler env h :
  events (tryCatch m handler env h)
  = events (m env h)
    ++ match outcome (m env h) with
       | Ok _ => []
       | Throw e => events (handler e env (h ++ events (m env h)))
       end.
Proof.
  unfold tryCatch. destruct (m env h) as [t1 [a|e]]; simpl.
  - now rewrite app_nil_r.
  - destruct (handler e env (h ++ t1)); reflexivity.
Qed.

Lemma outcome_tryCatch {A} (m : M A) handler env h :
  outcome (tryCatch m handler env h)
  = match outcome (m env h) with
    | Ok a => Ok a
    | Throw e => outcome (handler e env (h ++ events (m env h)))
    end.
Proof.
  unfold tryCatch. destruct (m env h) as [t1 [a|e]]; simpl.
  - reflexivity.
  - destruct (handler e env (h ++ t1)); reflexivity.
Qed.

(** *** Counting the events of each step *)

Lemma quiet_isSleep : quiet isSleep.
Proof. repeat split. Qed.

Lemma quiet_isFetchOf p :
  (forall u now, p (proxyUrlFor u now) = false) -> quiet (isFetchOf p).
Proof. intros Hp. repeat split. intros u now o. apply Hp. Qed.

Lemma quiet_isCreateRequest : quiet isCreateRequest.
Proof. apply quiet_isFetchOf. intros; apply proxy_not_accounts. Qed.

Lemma quiet_isPaginatedQuery : quiet isPaginatedQuery.
Proof. apply quiet_isFetchOf. intros; apply proxy_not_api. Qed.

Lemma count_cons q e t :
  count q (e :: t) = ((if q e then 1 else 0) + count q t)%nat.
Proof. unfold count. simpl. destruct (q e); reflexivity. Qed.

Lemma smartFetch_count_quiet q url options env h :
  quiet q ->
  count q (events (smartFetch url options env h))
  = if q (EvFetch url options) then 1%nat else 0%nat.
Proof.
  intros (Hnow & _ & _ & Hproxy).
  destruct (smartFetch_cases url options env h)
    as [(res & _ & _ & ->) | (_ & ->)]; simpl events;
    rewrite ?count_cons, ?Hnow, ?Hproxy, count_nil;
    destruct (q (EvFetch url options)); reflexivity.
Qed.

Lemma randomStringFrom_run length : forall result env h,
  exists s,
    outcome (randomStringFrom result length env h) = Ok s
    /\ events (randomStringFrom result length env h) = repeat EvRandom length.
Proof.
  induction length as [|n IH]; intros result env h.
  - exists result. split; reflexivity.
  - cbn [randomStringFrom repeat]. rewrite outcome_bind, events_bind.
    change (outcome (randomBelow (String.length chars) env h))
      with (@Ok nat (dice env h mod String.length chars)%nat).
    change (events (randomBelow (String.length chars) env h)) with [EvRandom].
    destruct (IH (result ^^ charAt chars (dice env h mod String.length chars))
                env (h ++ [EvRandom])) as (s & Ho & He).
    exists s. split; [exact Ho|]. rewrite He. reflexivity.
Qed.

Lemma randomString_run length env h :
  exists s,
    outcome (randomString length env h) = Ok s
    /\ events (randomString length env h) = repeat EvRandom length.
Proof. apply randomStringFrom_run. Qed.

Lemma count_repeat_random q n :
  quiet q -> count q (repeat EvRandom n) = 0%nat.
Proof.
  intros (_ & Hr & _). induction n as [|n IH]; simpl; [reflexivity|].
  now rewrite count_cons, Hr, IH.
Qed.

Lemma strategyA_events env h :
  events (strategyA env h)
  = EvNow :: events (smartFetch (domainsUrlA (clock env h)) noInit env (h ++ [EvNow])).
Proof.
  unfold strategyA, bind, dateNow, json, liftR, ret, throw.
  destruct (smartFetch _ _ _ _) as [t1 [res|e]]; [|reflexivity].
  destruct (ok res); [|simpl; now rewrite app_nil_r].
  destruct (payload res) as [data|]; [|simpl; now rewrite app_nil_r].
  destruct (activeMembers data) as [domains|e]; [|simpl; now rewrite app_nil_r].
  destruct (nonEmptyList domains); simpl; now rewrite !app_nil_r.
Qed.

Lemma strategyB_events env h :
  events (strategyB env h)
  = EvNow :: events (smartFetch (domainsUrlB (clock env h)) noInit env (h ++ [EvNow])).
Proof.
  unfold strategyB, bind, dateNow, json, liftR, ret, throw.
  destruct (smartFetch _ _ _ _) as [t1 [res|e]]; [|reflexivity].
  destruct (ok res); [|simpl; now rewrite app_nil_r].
  destruct (payload res) as [data|]; [|simpl; now rewrite app_nil_r].
  destruct (activeMembers data) as [domains|e]; simpl; now rewrite !app_nil_r.
Qed.

(** Every call of [getAvailableDomains] opens with the paginated query;
    whatever follows is a default query, clock reads and console output. *)
Lemma getAvailableDomains_count q env h :
  quiet q ->
  (forall now, q (EvFetch (domainsUrlB now) noInit) = false) ->
  count q (events (getAvailableDomains env h))
  = if q (EvFetch (domainsUrlA (clock env h)) noInit) then 1%nat else 0%nat.
Proof.
  intros Hq HB. pose proof Hq as (Hnow & _ & Hcon & _).
  unfold getAvailableDomains.
  rewrite events_tryCatch, outcome_bind, events_bind, !count_app.
  rewrite strategyA_events, count_cons, Hnow, smartFetch_count_quiet by exact Hq.
  set (hA := h ++ EvNow :: _).
  assert (HcB : forall h', count q (events (strategyB env h')) = 0%nat).
  { intros h'. rewrite strategyB_events, count_cons, Hnow.
    rewrite smartFetch_count_quiet by exact Hq. now rewrite HB. }
  assert (Hh : forall e h', count q
            (events ((console Err "Critical: Could not fetch domains." (Some e) ;;;
                      ret (@nil JSON)) env h')) = 0%nat).
  { intros e h'. unfold count. simpl. now rewrite Hcon. }
  destruct (outcome (strategyA env h)) as [[ds|]|e]; cbn [events outcome ret fst snd].
  - rewrite count_nil. lia.
  - rewrite HcB. destruct (outcome (strategyB env hA)); rewrite ?Hh, ?count_nil; lia.
  - rewrite Hh, count_nil. lia.
Qed.

Lemma nonEmptyList_false {A} (l : list A) : nonEmptyList l = false -> l = [].
Proof. now destruct l. Qed.

Lemma nonEmptyList_true {A} (l : list A) : l <> [] -> nonEmptyList l = true.
Proof. now destruct l. Qed.

Lemma paginated_urlA now o : isPaginatedQuery (EvFetch (domainsUrlA now) o) = true.
Proof.
  unfold isPaginatedQuery, isFetchOf, domainsUrlA, API_BASE. cbn.
  now destruct (showZ now).
Qed.

Lemma getAvailableDomains_paginated env h :
  count isPaginatedQuery (events (getAvailableDomains env h)) = 1%nat.
Proof.
  rewrite getAvailableDomains_count.
  - now rewrite paginated_urlA.
  - exact quiet_isPaginatedQuery.
  - reflexivity.
Qed.

Lemma getAvailableDomains_no_sleep env h :
  count isSleep (events (getAvailableDomains env h)) = 0%nat.
Proof.
  rewrite getAvailableDomains_count.
  - reflexivity.
  - exact quiet_isSleep.
  - reflexivity.
Qed.

Lemma getAvailableDomains_no_create env h :
  count isCreateRequest (events (getAvailableDomains env h)) = 0%nat.
Proof.
  rewrite getAvailableDomains_count.
  - reflexivity.
  - exact quiet_isCreateRequest.
  - reflexivity.
Qed.

(** *** The domain loop *)

Lemma domainLoop_stop n ds0 env h ds :
  outcome (getAvailableDomains env h) = Ok ds -> ds <> [] ->
  events (domainLoop (S n) ds0 env h) = events (getAvailableDomains env h)
  /\ outcome (domainLoop (S n) ds0 env h) = Ok ds.
Proof.
  intros Hout Hne. cbn [domainLoop].
  rewrite events_bind, outcome_bind, Hout, nonEmptyList_true by exact Hne.
  split; [apply app_nil_r | reflexivity].
Qed.

Lemma domainLoop_retry n ds0 env h :
  outcome (getAvailableDomains env h) = Ok [] ->
  let h' := (h ++ events (getAvailableDomains env h)) ++ [EvSleep 500] in
  events (domainLoop (S n) ds0 env h)
  = events (getAvailableDomains env h) ++ EvSleep 500 :: events (domainLoop n [] env h')
  /\ outcome (domainLoop (S n) ds0 env h) = outcome (domainLoop n [] env h').
Proof.
  intros Hout h'. cbn [domainLoop].
  rewrite events_bind, outcome_bind, Hout. cbn [nonEmptyList].
  rewrite events_bind, outcome_bind. split; reflexivity.
Qed.

Lemma domainLoop_bounds n : forall ds0 env h,
  (count isPaginatedQuery (events (domainLoop n ds0 env h)) <= n)%nat
  /\ (count isSleep (events (domainLoop n ds0 env h)) <= n)%nat
  /\ count isCreateRequest (events (domainLoop n ds0 env h)) = 0%nat
  /\ exists ds, outcome (domainLoop n ds0 env h) = Ok ds.
Proof.
  induction n as [|n IH]; intros ds0 env h.
  - repeat split; try apply Nat.le_refl. now exists ds0.
  - destruct (getAvailableDomains_total env h) as (ds & Hout).
    destruct ds as [|d ds].
    + destruct (domainLoop_retry n ds0 env h Hout) as (-> & ->).
      set (h' := (h ++ _) ++ _).
      destruct (IH [] env h') as (Hp & Hs & Hc & Hds).
      rewrite !count_app, !count_cons.
      rewrite getAvailableDomains_paginated, getAvailableDomains_no_sleep,
        getAvailableDomains_no_create.
      cbn [isPaginatedQuery isSleep isCreateRequest isFetchOf Z.eqb Pos.eqb].
      repeat split; try lia. exact Hds.
    + destruct (domainLoop_stop n ds0 env h (d :: ds) Hout) as (-> & ->);
        [discriminate|].
      rewrite getAvailableDomains_paginated, getAvailableDomains_no_sleep,
        getAvailableDomains_no_create.
      repeat split; try lia. now exists (d :: ds).
Qed.




(** *** Step 1: the domain *)

Lemma getProp_not_null d k : d <> JNull -> exists v, getProp d k = Ok v.
Proof. destruct d; intros Hd; try contradiction; simpl; eauto. Qed.

Lemma activeEntry_not_null d : activeEntry d -> d <> JNull.
Proof. intros Hd ->. discriminate Hd. Qed.


Lemma resolveDomain_custom d env h :
  truthyStr d = true -> resolveDomain d env h = ([], Ok (option_map JStr d)).
Proof. intros Hd. unfold resolveDomain. now rewrite Hd. Qed.

Lemma resolveDomain_none d env h :
  truthyStr d = false ->
  outcome (domainLoop 3 [] env h) = Ok [] ->
  events (resolveDomain d env h) = events (domainLoop 3 [] env h)
  /\ outcome (resolveDomain d env h) = Throw (Error noDomainsMessage).
Proof.
  intros Hd Hloop. unfold resolveDomain. rewrite Hd.
  rewrite events_bind, outcome_bind, Hloop.
  split; [apply app_nil_r | reflexivity].
Qed.

Lemma resolveDomain_pick d env h ds :
  truthyStr d = false ->
  outcome (domainLoop 3 [] env h) = Ok ds ->
  ds <> [] -> Forall activeEntry ds ->
  exists entry dom,
    In entry ds /\ getProp entry "domain" = Ok dom
    /\ events (resolveDomain d env h) = events (domainLoop 3 [] env h) ++ [EvRandom]
    /\ outcome (resolveDomain d env h) = Ok dom.
Proof.
  intros Hd Hloop Hne Hact. unfold resolveDomain. rewrite Hd.
  rewrite events_bind, outcome_bind, Hloop.
  assert (Hlen : (List.length ds =? 0)%nat = false).
  { apply Nat.eqb_neq. destruct ds; [contradiction | discriminate]. }
  rewrite Hlen, events_bind, outcome_bind.
  set (h1 := h ++ events (domainLoop 3 [] env h)).
  change (outcome (randomBelow (List.length ds) env h1))
    with (@Ok nat (dice env h1 mod List.length ds)%nat).
  change (events (randomBelow (List.length ds) env h1)) with [EvRandom].
  cbv beta iota.
  destruct (nth_error ds (dice env h1 mod List.length ds)) as [entry|] eqn:Hnth.
  - assert (Hin : In entry ds) by (eapply nth_error_In; eauto).
    destruct (getProp_not_null entry "domain") as (dom & Hdom).
    { apply activeEntry_not_null. rewrite Forall_forall in Hact. auto. }
    exists entry, dom. unfold liftR. rewrite Hdom. cbn [events outcome fst snd].
    rewrite app_nil_r. repeat split; auto.
  - exfalso. apply nth_error_None in Hnth.
    apply Nat.eqb_neq in Hlen.
    pose proof (Nat.mod_upper_bound (dice env h1) (List.length ds) Hlen). lia.
Qed.

Lemma resolveDomain_count q d env h :
  quiet q -> truthyStr d = false ->
  count q (events (resolveDomain d env h))
  = count q (events (domainLoop 3 [] env h)).
Proof.
  intros Hq Hd.
  destruct (domainLoop_bounds 3 [] env h) as (_ & _ & _ & ds & Hloop).
  destruct ds as [|d0 ds].
  - destruct (resolveDomain_none d env h Hd Hloop) as (-> & _). reflexivity.
  - assert (Hact : Forall activeEntry (d0 :: ds)).
    { clear Hd. revert Hloop. generalize (d0 :: ds). intros l Hloop.
      assert (Hgen : forall n ds0 env h l,
                 Forall activeEntry ds0 ->
                 outcome (domainLoop n ds0 env h) = Ok l -> Forall activeEntry l).
      { clear. induction n as [|n IH]; intros ds0 env h l H0.
        - simpl. now intros [= <-].
        - destruct (getAvailableDomains_sound env h) as (ds & Hout & Hds).
          destruct ds as [|x xs].
          + destruct (domainLoop_retry n ds0 env h Hout) as (_ & ->).
            apply IH. constructor.
          + destruct (domainLoop_stop n ds0 env h (x :: xs) Hout) as (_ & ->);
              [discriminate|]. now intros [= <-]. }
      eapply Hgen; [|exact Hloop]. constructor. }
    destruct (resolveDomain_pick d env h (d0 :: ds) Hd Hloop) as (_ & _ & _ & _ & -> & _);
      [discriminate | exact Hact |].
    destruct Hq as (_ & Hr & _).
    rewrite count_app, count_cons, Hr, count_nil. lia.
Qed.

(** *** Step 2: the creation attempts *)

Lemma createAttempt_count q c u dom env h b :
  quiet q -> (forall o, q (EvFetch accountsUrl o) = b) ->
  count q (events (createAttempt c u dom env h)) = if b then 1%nat else 0%nat.
Proof.
  intros Hq Hb. unfold createAttempt.
  assert (Huser : exists user n,
    outcome ((if c then ret (strOrUndefined u) else randomString 10) env h) = Ok user
    /\ events ((if c then ret (strOrUndefined u) else randomString 10) env h)
       = repeat EvRandom n).
  { destruct c.
    - exists (strOrUndefined u), 0%nat. split; reflexivity.
    - destruct (randomString_run 10 env h) as (s & Ho & He). exists s, 10%nat. auto. }
  destruct Huser as (user & n & Ho & He).
  rewrite events_bind, Ho, He.
  set (h1 := h ++ repeat EvRandom n).
  destruct (randomString_run 12 env h1) as (pw & Hpo & Hpe).
  rewrite events_bind, Hpo, Hpe, events_bind.
  rewrite !count_app, !count_repeat_random by exact Hq.
  rewrite smartFetch_count_quiet, Hb by exact Hq.
  destruct (outcome (smartFetch _ _ _ _)); cbn [events ret fst];
    rewrite count_nil; destruct b; reflexivity.
Qed.

(** How one iteration of the loop continues, by the outcome of its
    attempt. *)
Lemma createLoop_throw c u dom n st env h e :
  outcome (createAttempt c u dom env h) = Throw e ->
  events (createLoop c u dom (S n) st env h) = events (createAttempt c u dom env h)
  /\ outcome (createLoop c u dom (S n) st env h) = Throw e.
Proof.
  intros Ha. cbn [createLoop]. rewrite events_bind, outcome_bind, Ha.
  split; [apply app_nil_r | reflexivity].
Qed.

Lemma createLoop_created c u dom n st env h a :
  outcome (createAttempt c u dom env h) = Ok a ->
  ok (att_response a) = true ->
  events (createLoop c u dom (S n) st env h) = events (createAttempt c u dom env h)
  /\ outcome (createLoop c u dom (S n) st env h)
     = Ok {| cr_address := att_address a; cr_password := att_password a;
             cr_accountCreated := true |}.
Proof.
  intros Ha Hok. cbn [createLoop]. rewrite events_bind, outcome_bind, Ha, Hok.
  split; [apply app_nil_r | reflexivity].
Qed.

Lemma createLoop_unavailable u dom n st env h a :
  outcome (createAttempt true u dom env h) = Ok a ->
  ok (att_response a) = false ->
  status (att_response a) = 422%Z ->
  events (createLoop true u dom (S n) st env h) = events (createAttempt true u dom env h)
  /\ outcome (createLoop true u dom (S n) st env h)
     = Throw (Error usernameUnavailableMessage).
Proof.
  intros Ha Hok Hst. cbn [createLoop].
  rewrite events_bind, outcome_bind, Ha, Hok, Hst.
  split; [apply app_nil_r | reflexivity].
Qed.

Lemma createLoop_collision u dom n st env h a :
  outcome (createAttempt false u dom env h) = Ok a ->
  ok (att_response a) = false ->
  status (att_response a) = 422%Z ->
  let out := createAttempt false u dom env h in
  let h' := (h ++ events out) ++ warnAfter out in
  let st' := {| cr_address := att_address a; cr_password := att_password a;
                cr_accountCreated := cr_accountCreated st |} in
  events (createLoop false u dom (S n) st env h)
  = events out ++ warnAfter out ++ events (createLoop false u dom n st' env h')
  /\ outcome (createLoop false u dom (S n) st env h)
     = outcome (createLoop false u dom n st' env h').
Proof.
  intros Ha Hok Hst out h' st'. subst h'. unfold warnAfter. subst out.
  cbn [createLoop]. rewrite events_bind, outcome_bind, Ha, Hok, Hst.
  cbn [Z.eqb Pos.eqb]. rewrite events_bind, outcome_bind.
  split; reflexivity.
Qed.

Lemma createLoop_failed c u dom n st env h a :
  outcome (createAttempt c u dom env h) = Ok a ->
  ok (att_response a) = false ->
  status (att_response a) <> 422%Z ->
  events (createLoop c u dom (S n) st env h) = events (createAttempt c u dom env h)
  /\ outcome (createLoop c u dom (S n) st env h)
     = Throw (Error (creationFailedPrefix ^^ showZ (status (att_response a)))).
Proof.
  intros Ha Hok Hst. apply Z.eqb_neq in Hst. cbn [createLoop].
  rewrite events_bind, outcome_bind, Ha, Hok, Hst.
  split; [apply app_nil_r | reflexivity].
Qed.

(** The five ways an iteration can go. *)
Lemma createLoop_cases c u dom n st env h :
  let out := createAttempt c u dom env h in
  (events (createLoop c u dom (S n) st env h) = events out
   /\ match outcome (createLoop c u dom (S n) st env h) with
      | Ok st' => cr_accountCreated st' = true
      | Throw _ => True
      end)
  \/ (c = false /\ exists a,
        outcome out = Ok a /\ ok (att_response a) = false
        /\ status (att_response a) = 422%Z).
Proof.
  intros out. subst out.
  destruct (outcome (createAttempt c u dom env h)) as [a|e] eqn:Ha.
  - destruct (ok (att_response a)) eqn:Hok.
    + left. destruct (createLoop_created c u dom n st env h a Ha Hok) as (-> & ->).
      split; reflexivity.
    + destruct (Z.eq_dec (status (att_response a)) 422) as [Hst|Hst].
      * destruct c.
        -- left. destruct (createLoop_unavailable u dom n st env h a Ha Hok Hst)
             as (-> & ->). split; auto.
        -- right. split; [reflexivity|]. exists a. auto.
      * left. destruct (createLoop_failed c u dom n st env h a Ha Hok Hst)
          as (-> & ->). split; auto.
  - left. destruct (createLoop_throw c u dom n st env h e Ha) as (-> & ->).
    split; auto.
Qed.

Lemma warnAfter_count q out : quiet q -> count q (warnAfter out) = 0%nat.
Proof.
  intros (_ & _ & Hc & _). unfold warnAfter.
  destruct (outcome out); [|reflexivity].
  now rewrite count_cons, Hc.
Qed.

(** The loop never issues more creation requests than it has iterations,
    and in custom mode never more than one. *)
Lemma createLoop_count q c u dom b n : forall st env h,
  quiet q -> (forall o, q (EvFetch accountsUrl o) = b) ->
  (count q (events (createLoop c u dom n st env h))
   <= if b then (if c then Nat.min n 1 else n) else 0)%nat.
Proof.
  induction n as [|n IH]; intros st env h Hq Hb.
  - cbn. destruct b, c; lia.
  - destruct (createLoop_cases c u dom n st env h) as [(-> & _) | (-> & a & Ha & Hok & Hst)].
    + rewrite (createAttempt_count q c u dom env h b Hq Hb).
      destruct b, c; simpl; lia.
    + destruct (createLoop_collision u dom n st env h a Ha Hok Hst) as (-> & _).
      rewrite !count_app, warnAfter_count by exact Hq.
      rewrite (createAttempt_count q false u dom env h b Hq Hb).
      match goal with |- context [createLoop false u dom n ?s env ?h'] =>
        specialize (IH s env h' Hq Hb) end.
      destruct b; lia.
Qed.

Lemma createLoop_custom_once q u dom st env h b :
  quiet q -> (forall o, q (EvFetch accountsUrl o) = b) ->
  count q (events (createLoop true u dom 1 st env h)) = if b then 1%nat else 0%nat.
Proof.
  intros Hq Hb.
  destruct (createLoop_cases true u dom 0 st env h) as [(-> & _) | (Hc & _)];
    [|discriminate].
  now apply createAttempt_count.
Qed.

Lemma ok_422 r : status r = 422%Z -> ok r = false.
Proof. unfold ok. now intros ->. Qed.

Lemma attemptStatus_0 env u dom h s :
  attemptStatus env u dom h 0 = Some s ->
  exists a, outcome (createAttempt false u dom env h) = Ok a
            /\ status (att_response a) = s.
Proof.
  unfold attemptStatus. cbn [attemptStart].
  destruct (outcome (createAttempt false u dom env h)) as [a|e]; [|discriminate].
  intros [= <-]. now exists a.
Qed.

(** Random mode, every attempt answered 422: the loop uses up its [n]
    iterations and leaves [accountCreated] as it was. *)
Lemma createLoop_all_422 u dom n : forall st env h,
  (forall k, (k < n)%nat -> attemptStatus env u dom h k = Some 422%Z) ->
  exists st',
    outcome (createLoop false u dom n st env h) = Ok st'
    /\ cr_accountCreated st' = cr_accountCreated st
    /\ count isCreateRequest (events (createLoop false u dom n st env h)) = n.
Proof.
  induction n as [|n IH]; intros st env h Hall.
  - exists st. repeat split.
  - destruct (attemptStatus_0 env u dom h 422) as (a & Ha & Hst).
    { apply Hall. lia. }
    destruct (createLoop_collision u dom n st env h a Ha (ok_422 _ Hst) Hst)
      as (-> & ->).
    match goal with |- context [createLoop false u dom n ?s env ?h'] =>
      destruct (IH s env h') as (st' & Ho & Hc & Hn) end.
    { intros k Hk. apply (Hall (S k)). lia. }
    exists st'. split; [exact Ho|]. split; [exact Hc|].
    rewrite !count_app, warnAfter_count, Hn by exact quiet_isCreateRequest.
    rewrite (createAttempt_count isCreateRequest false u dom env h true);
      [lia | exact quiet_isCreateRequest | reflexivity].
Qed.

(** Random mode, [k] attempts answered 422 and the next one answered with
    another status outside 200-299: the loop throws the status error after
    [k + 1] requests. *)
Lemma createLoop_fail_at u dom k : forall n st env h s,
  (k < n)%nat ->
  (forall j, (j < k)%nat -> attemptStatus env u dom h j = Some 422%Z) ->
  attemptStatus env u dom h k = Some s ->
  is2xx s = false -> s <> 422%Z ->
  outcome (createLoop false u dom n st env h)
  = Throw (Error (creationFailedPrefix ^^ showZ s))
  /\ count isCreateRequest (events (createLoop false u dom n st env h)) = S k.
Proof.
  induction k as [|k IH]; intros n st env h s Hlt Hprev Hk H2 H422;
    (destruct n as [|n]; [lia|]).
  - destruct (attemptStatus_0 env u dom h s Hk) as (a & Ha & Hst).
    destruct (createLoop_failed false u dom n st env h a Ha) as (-> & ->).
    + unfold ok. rewrite Hst. exact H2.
    + now rewrite Hst.
    + rewrite Hst. split; [reflexivity|].
      apply (createAttempt_count isCreateRequest false u dom env h true);
        [exact quiet_isCreateRequest | reflexivity].
  - destruct (attemptStatus_0 env u dom h 422) as (a & Ha & Hst).
    { apply Hprev. lia. }
    destruct (createLoop_collision u dom n st env h a Ha (ok_422 _ Hst) Hst)
      as (-> & ->).
    match goal with |- context [createLoop false u dom n ?s0 env ?h'] =>
      destruct (IH n s0 env h' s) as (Ho & Hn) end; auto.
    { lia. }
    { intros j Hj. apply (Hprev (S j)). lia. }
    split; [exact Ho|].
    rewrite !count_app, warnAfter_count, Hn by exact quiet_isCreateRequest.
    rewrite (createAttempt_count isCreateRequest false u dom env h true);
      [lia | exact quiet_isCreateRequest | reflexivity].
Qed.

Lemma createAccount_events c u dom env h :
  events (createAccount c u dom env h)
  = events (createLoop c u dom (maxRetries c) initialCreation env h).
Proof.
  unfold createAccount. rewrite events_bind.
  destruct (outcome (createLoop _ _ _ _ _ _ _)) as [st|e]; [|apply app_nil_r].
  destruct (negb (cr_accountCreated st)); apply app_nil_r.
Qed.

Lemma createAccount_outcome c u dom env h :
  outcome (createAccount c u dom env h)
  = match outcome (createLoop c u dom (maxRetries c) initialCreation env h) with
    | Ok st =>
        if cr_accountCreated st then Ok st else Throw (Error exhaustedMessage)
    | Throw e => Throw e
    end.
Proof.
  unfold createAccount. rewrite outcome_bind.
  destruct (outcome (createLoop _ _ _ _ _ _ _)) as [st|e]; [|reflexivity].
  destruct (cr_accountCreated st); reflexivity.
Qed.

(** *** Steps 3 and 4 *)

Lemma login_count q address pw env h :
  quiet q -> (forall o, q (EvFetch tokenUrl o) = false) ->
  count q (events (login address pw env h)) = 0%nat.
Proof.
  intros Hq Hb. unfold login. rewrite events_bind, count_app.
  rewrite smartFetch_count_quiet, Hb by exact Hq.
  destruct (outcome (smartFetch _ _ _ _)) as [res|e]; [|reflexivity].
  destruct (negb (ok res)); [reflexivity|].
  unfold json, bind, liftR, ret, throw.
  destruct (payload res); reflexivity.
Qed.

Lemma finishSession_count q c address pw tok env h :
  quiet q -> (forall o, q (EvFetch meUrl o) = false) ->
  count q (events (finishSession c address pw tok env h)) = 0%nat.
Proof.
  intros Hq Hb. pose proof Hq as (Hnow & _).
  unfold finishSession. rewrite events_bind, count_app.
  rewrite smartFetch_count_quiet, Hb by exact Hq.
  destruct (outcome (smartFetch _ _ _ _)) as [res|e]; [|reflexivity].
  unfold json, bind, liftR, ret, throw, dateNow.
  destruct (payload res) as [data|]; [|reflexivity].
  destruct (getProp data "id"); cbn [events fst app];
    now rewrite count_cons, Hnow.
Qed.

(** What [finishSession] returns when it returns. *)
Lemma finishSession_returns c address pw tok env h t s :
  finishSession c address pw tok env h = (t, Ok s) ->
  emailAddress s = address /\ password s = pw /\ token s = tok
  /\ isPremium s = c
  /\ expiresAt s = (if c then None else Some (createdAt s + tenMinutes)%Z)
  /\ isMock s = false.
Proof.
  unfold finishSession, bind, json, liftR, ret, throw, dateNow.
  destruct (smartFetch _ _ _ _) as [t1 [res|e]]; [|discriminate].
  destruct (payload res) as [data|]; [|discriminate].
  destruct (getProp data "id") as [id|e]; [|discriminate].
  intros [= _ <-]. repeat split.
Qed.

(** The metadata response decides the outcome by its body alone. *)
Lemma finishSession_by_body c address pw tok env h t4 meRes :
  smartFetch meUrl (bearer tok) env h = (t4, Ok meRes) ->
  finishSession c address pw tok env h
  = match payload meRes with
    | None => (t4, Throw (SyntaxError "Unexpected token in JSON"))
    | Some meData =>
        let now := clock env (h ++ t4) in
        (t4 ++ [EvNow],
         match getProp meData "id" with
         | Ok id =>
             Ok {| emailAddress := address; createdAt := now;
                   expiresAt := if c then None else Some (now + tenMinutes)%Z;
                   isPremium := c; token := tok; accountId := id;
                   password := pw; isMock := false |}
         | Throw e => Throw e
         end)
    end.
Proof.
  intros Hme. unfold finishSession, bind, json, liftR, ret, throw, dateNow.
  rewrite Hme. destruct (payload meRes) as [data|]; [|now rewrite app_nil_r].
  rewrite !app_nil_r.
  destruct (getProp data "id"); simpl; now rewrite ?app_nil_r.
Qed.

(** *** The whole call *)

Lemma createRealAccount_outcome u d env h :
  outcome (createRealAccount u d env h) = outcome (provision u d env h).
Proof.
  unfold createRealAccount. rewrite outcome_tryCatch.
  destruct (outcome (provision u d env h)); reflexivity.
Qed.

Lemma createRealAccount_events u d env h :
  events (createRealAccount u d env h)
  = events (provision u d env h)
    ++ match outcome (provision u d env h) with
       | Ok _ => []
       | Throw e => [EvConsole Err "Account Creation Logic Error:" (Some e)]
       end.
Proof.
  unfold createRealAccount. rewrite events_tryCatch.
  destruct (outcome (provision u d env h)); reflexivity.
Qed.

Lemma createRealAccount_count q u d env h :
  quiet q ->
  count q (events (createRealAccount u d env h)) = count q (events (provision u d env h)).
Proof.
  intros (_ & _ & Hc & _). rewrite createRealAccount_events, count_app.
  destruct (outcome (provision u d env h));
    rewrite ?count_cons, ?Hc, count_nil; lia.
Qed.

Lemma provision_resolved u d env h t0 dom :
  resolveDomain d env h = (t0, Ok dom) ->
  events (provision u d env h) = t0 ++ events (provisionWith u dom env (h ++ t0))
  /\ outcome (provision u d env h) = outcome (provisionWith u dom env (h ++ t0)).
Proof.
  intros Hr. unfold provision. rewrite events_bind, outcome_bind, Hr.
  split; reflexivity.
Qed.

Lemma provision_unresolved u d env h e :
  outcome (resolveDomain d env h) = Throw e ->
  events (provision u d env h) = events (resolveDomain d env h)
  /\ outcome (provision u d env h) = Throw e.
Proof.
  intros Hr. unfold provision. rewrite events_bind, outcome_bind, Hr.
  split; [apply app_nil_r | reflexivity].
Qed.

Lemma provisionWith_count q u dom env h :
  quiet q ->
  (forall o, q (EvFetch tokenUrl o) = false) ->
  (forall o, q (EvFetch meUrl o) = false) ->
  count q (events (provisionWith u dom env h))
  = count q (events (createAccount (truthyStr u) u dom env h)).
Proof.
  intros Hq Ht Hm. unfold provisionWith. rewrite events_bind, count_app.
  destruct (outcome (createAccount _ _ _ _ _)) as [st|e];
    [|rewrite count_nil; lia].
  rewrite events_bind, count_app, login_count by assumption.
  destruct (outcome (login _ _ _ _)) as [tok|e]; [|rewrite count_nil; lia].
  rewrite finishSession_count by assumption. lia.
Qed.

Lemma provisionWith_create_throw u dom env h e :
  outcome (createAccount (truthyStr u) u dom env h) = Throw e ->
  outcome (provisionWith u dom env h) = Throw e.
Proof.
  intros Hc. unfold provisionWith. now rewrite outcome_bind, Hc.
Qed.

Lemma resolveDomain_no_create d env h :
  count isCreateRequest (events (resolveDomain d env h)) = 0%nat.
Proof.
  destruct (truthyStr d) eqn:Hd.
  - now rewrite resolveDomain_custom.
  - rewrite resolveDomain_count by (exact quiet_isCreateRequest || exact Hd).
    now destruct (domainLoop_bounds 3 [] env h) as (_ & _ & -> & _).
Qed.

(** Creation requests of the whole call are those of step 2. *)
Lemma createRealAccount_create_count u d env h :
  count isCreateRequest (events (createRealAccount u d env h))
  = match resolveDomain d env h with
    | (t0, Ok dom) =>
        count isCreateRequest
          (events (createLoop (truthyStr u) u dom (maxRetries (truthyStr u))
                     initialCreation env (h ++ t0)))
    | (_, Throw _) => 0%nat
    end.
Proof.
  rewrite createRealAccount_count by exact quiet_isCreateRequest.
  pose proof (resolveDomain_no_create d env h) as H0.
  destruct (resolveDomain d env h) as [t0 [dom|e]] eqn:Hr.
  - destruct (provision_resolved u d env h t0 dom Hr) as (-> & _).
    simpl in H0. rewrite count_app, H0.
    rewrite provisionWith_count, createAccount_events;
      [reflexivity | exact quiet_isCreateRequest | reflexivity | reflexivity].
  - destruct (provision_unresolved u d env h e) as (-> & _); [now rewrite Hr|].
    rewrite Hr. exact H0.
Qed.

Lemma count_0_Forall q t : count q t = 0%nat -> Forall (fun e => q e = false) t.
Proof.
  induction t as [|e t IH]; [constructor|].
  rewrite count_cons. destruct (q e) eqn:He; [discriminate|].
  intros H0. constructor; auto.
Qed.

Lemma addressedTo_other dom t :
  count isCreateRequest t = 0%nat -> Forall (addressedTo dom) t.
Proof.
  intros H0. eapply Forall_impl; [|apply count_0_Forall, H0].
  intros e He Hc. rewrite He in Hc. discriminate.
Qed.

Lemma smartFetch_addressed dom user pw env h :
  Forall (addressedTo dom)
    (events (smartFetch accountsUrl
               (postCredentials (user ^^ "@" ^^ toString dom) pw) env h)).
Proof.
  destruct (smartFetch_cases accountsUrl
              (postCredentials (user ^^ "@" ^^ toString dom) pw) env h)
    as [(res & _ & _ & ->) | (_ & ->)]; cbn [events fst];
    repeat constructor; try (intros _; now exists user, pw);
    intros Hc; discriminate Hc.
Qed.

Lemma createAttempt_addressed c u dom env h :
  Forall (addressedTo dom) (events (createAttempt c u dom env h)).
Proof.
  unfold createAttempt.
  assert (Huser : exists user n,
    outcome ((if c then ret (strOrUndefined u) else randomString 10) env h) = Ok user
    /\ events ((if c then ret (strOrUndefined u) else randomString 10) env h)
       = repeat EvRandom n).
  { destruct c.
    - exists (strOrUndefined u), 0%nat. split; reflexivity.
    - destruct (randomString_run 10 env h) as (s & Ho & He). exists s, 10%nat. auto. }
  destruct Huser as (user & n & Ho & He).
  rewrite events_bind, Ho, He.
  set (h1 := h ++ repeat EvRandom n).
  destruct (randomString_run 12 env h1) as (pw & Hpo & Hpe).
  rewrite events_bind, Hpo, Hpe, events_bind.
  repeat (apply Forall_app; split).
  - apply addressedTo_other, count_repeat_random, quiet_isCreateRequest.
  - apply addressedTo_other, count_repeat_random, quiet_isCreateRequest.
  - apply smartFetch_addressed.
  - destruct (outcome (smartFetch _ _ _ _)); constructor.
Qed.

Lemma createLoop_addressed c u dom n : forall st env h,
  Forall (addressedTo dom) (events (createLoop c u dom n st env h)).
Proof.
  induction n as [|n IH]; intros st env h.
  - constructor.
  - destruct (createLoop_cases c u dom n st env h)
      as [(-> & _) | (-> & a & Ha & Hok & Hst)].
    + apply createAttempt_addressed.
    + destruct (createLoop_collision u dom n st env h a Ha Hok Hst) as (-> & _).
      repeat (apply Forall_app; split).
      * apply createAttempt_addressed.
      * apply addressedTo_other, warnAfter_count, quiet_isCreateRequest.
      * apply IH.
Qed.

Lemma provisionWith_addressed u dom env h :
  Forall (addressedTo dom) (events (provisionWith u dom env h)).
Proof.
  unfold provisionWith. rewrite events_bind. apply Forall_app. split.
  - rewrite createAccount_events. apply createLoop_addressed.
  - destruct (outcome (createAccount _ _ _ _ _)) as [st|e]; [|constructor].
    rewrite events_bind. apply Forall_app. split.
    + apply addressedTo_other, login_count;
        [exact quiet_isCreateRequest | reflexivity].
    + destruct (outcome (login _ _ _ _)) as [tok|e]; [|constructor].
      apply addressedTo_other, finishSession_count;
        [exact quiet_isCreateRequest | reflexivity].
Qed.

(** Paginated queries and pauses of the whole call are those of step 1. *)
Lemma createRealAccount_step1_count q u d env h :
  quiet q ->
  (forall o, q (EvFetch accountsUrl o) = false) ->
  (forall o, q (EvFetch tokenUrl o) = false) ->
  (forall o, q (EvFetch meUrl o) = false) ->
  count q (events (createRealAccount u d env h))
  = count q (events (resolveDomain d env h)).
Proof.
  intros Hq Ha Ht Hm. rewrite createRealAccount_count by exact Hq.
  destruct (resolveDomain d env h) as [t0 [dom|e]] eqn:Hr.
  - destruct (provision_resolved u d env h t0 dom Hr) as (-> & _).
    rewrite count_app, provisionWith_count, createAccount_events by assumption.
    pose proof (createLoop_count q (truthyStr u) u dom false
                  (maxRetries (truthyStr u)) initialCreation env (h ++ t0) Hq Ha)
      as Hle.
    cbv beta iota in Hle. cbn [events fst]. lia.
  - destruct (provision_unresolved u d env h e) as (-> & _); now rewrite Hr.
Qed.

Lemma provision_returns u d env h t s :
  provision u d env h = (t, Ok s) ->
  exists st tok h' t',
    finishSession (truthyStr u) (cr_address st) (cr_password st) tok env h'
    = (t', Ok s).
Proof.
  unfold provision, provisionWith. intros Hrun.
  apply bind_inv in Hrun as [(t1 & dom & t2 & _ & Hrun & _) | (e & _ & [=])].
  apply bind_inv in Hrun as [(t3 & st & t4 & _ & Hrun & _) | (e & _ & [=])].
  apply bind_inv in Hrun as [(t5 & tok & t6 & _ & Hrun & _) | (e & _ & [=])].
  eauto.
Qed.

Lemma createRealAccount_returns u d env h t s :
  createRealAccount u d env h = (t, Ok s) ->
  exists t', provision u d env h = (t', Ok s).
Proof.
  intros Hrun.
  assert (Ho : outcome (provision u d env h) = Ok s).
  { rewrite <- createRealAccount_outcome, Hrun. reflexivity. }
  exists (events (provision u d env h)).
  rewrite (surjective_run (provision u d env h)) at 1. now rewrite Ho.
Qed.

(** The whole call, once the first three steps have succeeded. *)
Lemma createRealAccount_after_login u d env h t1 dom t2 st t3 tok :
  resolveDomain d env h = (t1, Ok dom) ->
  createAccount (truthyStr u) u dom env (h ++ t1) = (t2, Ok st) ->
  login (cr_address st) (cr_password st) env ((h ++ t1) ++ t2) = (t3, Ok tok) ->
  outcome (createRealAccount u d env h)
  = outcome (finishSession (truthyStr u) (cr_address st) (cr_password st) tok env
               (((h ++ t1) ++ t2) ++ t3)).
Proof.
  intros Hr Hc Hl. rewrite createRealAccount_outcome.
  destruct (provision_resolved u d env h t1 dom Hr) as (_ & ->).
  unfold provisionWith. rewrite outcome_bind, Hc. cbn [outcome events fst snd].
  rewrite outcome_bind, Hl. reflexivity.
Qed.

(** *** Message details and deletion *)

Lemma join_fragments frags :
  join EmptyString (map JStr frags) = String.concat EmptyString frags.
Proof.
  unfold join. induction frags as [|s [|s' rest] IH]; try reflexivity.
  change (s ^^ EmptyString ^^ joinWith elemToString EmptyString (map JStr (s' :: rest))
          = s ^^ EmptyString ^^ String.concat EmptyString (s' :: rest)).
  now rewrite IH.
Qed.

Lemma resolveBody_spec data :
  data <> JNull ->
  exists body,
    resolveBody data = Ok body
    /\ match htmlContent (propOf data "html") with
       | Some s => body = JStr s
       | None =>
           if truthy (propOf data "text") then Some body = propOf data "text"
           else body = JStr "No content"
       end.
Proof.
  intros Hnn. unfold resolveBody, propOf.
  destruct (getProp_not_null data "html" Hnn) as (html & ->).
  destruct (getProp_not_null data "text" Hnn) as (txt & ->).
  destruct html as [[| | | s | [|x rest] | ]|]; cbn -[truthy join];
    try (destruct s; cbn -[truthy join]);
    try (eexists; split; reflexivity);
    destruct txt as [txt|]; try destruct (truthy (Some txt)) eqn:Ht;
    eexists; split; reflexivity.
Qed.

Lemma fetchMessageDetails_total tok id env h :
  exists r, outcome (fetchMessageDetails tok id env h) = Ok r.
Proof.
  unfold fetchMessageDetails. rewrite outcome_tryCatch.
  destruct (outcome (bind _ _ env h)) as [r|e]; [now exists r | now exists None].
Qed.

Lemma deleteMessage_outcome tok id env h :
  outcome (deleteMessage tok id env h)
  = match outcome (smartFetch (messageUrl id) (deleteInit tok) env h) with
    | Ok _ => Ok true
    | Throw _ => Ok false
    end.
Proof.
  unfold deleteMessage. rewrite outcome_tryCatch, outcome_bind.
  destruct (outcome (smartFetch _ _ _ _)); reflexivity.
Qed.

(** Every entry the domain loop ends with passed the filter. *)
Lemma domainLoop_active n : forall ds0 env h ds,
  Forall activeEntry ds0 ->
  outcome (domainLoop n ds0 env h) = Ok ds -> Forall activeEntry ds.
Proof.
  induction n as [|n IH]; intros ds0 env h ds H0.
  - simpl. now intros [= <-].
  - destruct (getAvailableDomains_sound env h) as (l & Hout & Hl).
    destruct l as [|x xs].
    + destruct (domainLoop_retry n ds0 env h Hout) as (_ & ->).
      apply IH. constructor.
    + destruct (domainLoop_stop n ds0 env h (x :: xs) Hout) as (_ & ->);
        [discriminate|]. now intros [= <-].
Qed.

(** Without a usable [customDomain], the domain is resolved exactly when
    the domain loop ends with a non-empty list. *)
Lemma resolveDomain_outcome d env h :
  truthyStr d = false ->
  exists ds,
    outcome (domainLoop 3 [] env h) = Ok ds
    /\ (ds = [] -> outcome (resolveDomain d env h) = Throw (Error noDomainsMessage))
    /\ (ds <> [] -> exists dom, outcome (resolveDomain d env h) = Ok dom).
Proof.
  intros Hd.
  destruct (domainLoop_bounds 3 [] env h) as (_ & _ & _ & ds & Hloop).
  exists ds. split; [exact Hloop|]. split.
  - intros ->. now destruct (resolveDomain_none d env h Hd Hloop) as (_ & ->).
  - intros Hne.
    destruct (resolveDomain_pick d env h ds Hd Hloop Hne)
      as (_ & dom & _ & _ & _ & Ho).
    + eapply domainLoop_active; [|exact Hloop]. constructor.
    + now exists dom.
Qed.

(** ** Resilient fetch *)

(** C3. [smartFetch] falls back to the proxy exactly when the direct
    attempt throws or is answered 403 or 429: it then issues one more
    request, to the proxy endpoint followed by the percent-encoded
    original URL and the cache-busting parameter [&_cb=<now>], with the
    same options, and returns whatever that request gives.  Otherwise the
    direct response is returned and nothing else is requested.  The call
    throws only when both attempts failed. *)
Theorem smartFetch_fallback_once url options env h :
  let direct := net env h url options in
  let h1 := h ++ [EvFetch url options] in
  let proxyUrl :=
    PROXY_BASE ^^ encodeURIComponent url ^^ "&_cb=" ^^ showZ (clock env h1) in
  let proxied := net env (h1 ++ [EvNow]) proxyUrl options in
  (directFailed direct = true ->
     smartFetch url options env h
     = ([EvFetch url options; EvNow; EvFetch proxyUrl options], proxied)
     /\ percentDecode (encodeURIComponent url) = Some url)
  /\ (directFailed direct = false ->
     smartFetch url options env h = ([EvFetch url options], direct))
  /\ (forall e, outcome (smartFetch url options env h) = Throw e ->
     directFailed direct = true /\ proxied = Throw e).
Proof.
  intros direct h1 proxyUrl proxied.
  destruct (smartFetch_cases url options env h)
    as [(res & Hnet & Hb & Hrun) | (Hd & Hrun)].
  - assert (Hd : directFailed direct = false).
    { subst direct. rewrite Hnet. exact Hb. }
    split; [|split].
    + rewrite Hd. discriminate.
    + intros _. subst direct. rewrite Hrun, Hnet. reflexivity.
    + intros e He. rewrite Hrun in He. discriminate.
  - split; [|split].
    + intros _. split; [exact Hrun | apply percentDecode_encodeURIComponent].
    + fold direct in Hd. rewrite Hd. discriminate.
    + intros e He. rewrite Hrun in He. split; [exact Hd | exact He].
Qed.

Lemma smartFetch_fallback_once_witness :
  smartFetch meUrl noInit (proxyOnlyEnv 403 (Some JNull)) []
  = ([EvFetch meUrl noInit; EvNow;
      EvFetch "https://corsproxy.io/?https%3A%2F%2Fapi.mail.tm%2Fme&_cb=1700000000000" noInit],
     Ok (respond 200 (Some JNull)))
  /\ smartFetch meUrl noInit (uniformEnv 500 None) []
     = ([EvFetch meUrl noInit], Ok (respond 500 None))
  /\ directFailed (net offlineEnv [] meUrl noInit) = true.
Proof.
  split; [|split].
  - apply (smartFetch_fallback_once meUrl noInit (proxyOnlyEnv 403 (Some JNull)) []).
    reflexivity.
  - apply (smartFetch_fallback_once meUrl noInit (uniformEnv 500 None) []).
    reflexivity.
  - apply (smartFetch_fallback_once meUrl noInit offlineEnv [])
      with (e := TypeError "Failed to fetch").
    reflexivity.
Defined.

(** ** Domain discovery *)

(** C4. Whatever the catalog responses are, [getAvailableDomains] returns
    a list (it never throws) and every entry of that list passed the filter
    on [isActive], whether the first or the second query produced it: the
    flag is truthy, and when it is a boolean, as the [Domain] type
    declares, it is [true]. *)
Theorem getAvailableDomains_only_active env h :
  exists ds,
    outcome (getAvailableDomains env h) = Ok ds
    /\ Forall (fun d =>
         truthy (isActiveOf d) = true
         /\ forall b, isActiveOf d = Some (JBool b) -> b = true) ds.
Proof.
  destruct (getAvailableDomains_sound env h) as (ds & Hout & Hall).
  exists ds. split; [exact Hout|].
  eapply Forall_impl; [|exact Hall].
  intros d Hd. split; [exact Hd|].
  intros b Hb. now apply activeEntry_bool with d.
Qed.

Lemma getAvailableDomains_only_active_witness :
  exists ds,
    outcome (getAvailableDomains (uniformEnv 200 (Some mixedCatalog)) []) = Ok ds
    /\ ds = [domainEntry "a.com" true]
    /\ Forall (fun d => isActiveOf d = Some (JBool true)) ds.
Proof.
  destruct (getAvailableDomains_only_active (uniformEnv 200 (Some mixedCatalog)) [])
    as (ds & Hout & Hall).
  exists ds. split; [exact Hout|].
  assert (Hds : ds = [domainEntry "a.com" true]).
  { vm_compute in Hout. now injection Hout as <-. }
  split; [exact Hds|].
  subst ds. apply Forall_inv in Hall. destruct Hall as (_ & Hb).
  constructor; [|constructor].
  destruct (isActiveOf (domainEntry "a.com" true)) as [[| flag | | | |]|] eqn:Hflag;
    try discriminate Hflag.
  now rewrite (Hb flag eq_refl).
Defined.

(** Scenario A: of an active and an inactive domain only the active one
    is returned, by the first query and by the second alike. *)
Example getAvailableDomains_scenarioA :
  outcome (getAvailableDomains (uniformEnv 200 (Some mixedCatalog)) [])
  = Ok [domainEntry "a.com" true]
  /\ outcome (getAvailableDomains defaultOnlyEnv [])
     = Ok [domainEntry "a.com" true].
Proof. split; reflexivity. Qed.

(** C5. When the paginated query (Strategy 1) is answered with a catalog
    whose active entries are not empty, [getAvailableDomains] returns
    those entries at once: its trace ends with that query and contains no
    default query (Strategy 2). *)
Theorem getAvailableDomains_short_circuit env h t1 res data ds :
  smartFetch (domainsUrlA (clock env h)) noInit env (h ++ [EvNow]) = (t1, Ok res) ->
  ok res = true ->
  payload res = Some data ->
  activeMembers data = Ok ds ->
  ds <> [] ->
  getAvailableDomains env h = (EvNow :: t1, Ok ds)
  /\ count isDefaultQuery (events (getAvailableDomains env h)) = 0%nat.
Proof.
  intros Hf Hok Hp Ha Hne.
  assert (Hrun : getAvailableDomains env h = (EvNow :: t1, Ok ds)).
  { unfold getAvailableDomains. apply tryCatch_ok.
    erewrite bind_ok.
    2:{ apply strategyA_early with res data; eauto.
        destruct ds; [contradiction | reflexivity]. }
    simpl. now rewrite app_nil_r. }
  split; [exact Hrun|].
  rewrite Hrun. simpl.
  change (EvNow :: t1) with ([EvNow] ++ t1). rewrite count_app.
  replace t1 with
    (events (smartFetch (domainsUrlA (clock env h)) noInit env (h ++ [EvNow])))
    by now rewrite Hf.
  unfold isDefaultQuery at 2. rewrite smartFetch_count.
  - reflexivity.
  - intros u now. apply proxy_not_api.
Qed.

Lemma getAvailableDomains_short_circuit_witness :
  getAvailableDomains (uniformEnv 200 (Some mixedCatalog)) []
  = ([EvNow;
      EvFetch "https://api.mail.tm/domains?page=1&itemsPerPage=100&_t=1700000000000"
        noInit],
     Ok [domainEntry "a.com" true])
  /\ count isDefaultQuery
       (events (getAvailableDomains (uniformEnv 200 (Some mixedCatalog)) [])) = 0%nat.
Proof.
  apply (getAvailableDomains_short_circuit
           (uniformEnv 200 (Some mixedCatalog)) []
           [EvFetch "https://api.mail.tm/domains?page=1&itemsPerPage=100&_t=1700000000000"
              noInit]
           (respond 200 (Some mixedCatalog)) mixedCatalog
           [domainEntry "a.com" true]).
  - reflexivity.
  - reflexivity.
  - reflexivity.
  - reflexivity.
  - discriminate.
Defined.

(** ** Account creation *)

(** C1. Random mode (no usable [customUsername]).  A call issues at most
    5 requests to the creation endpoint.  Once the domain is resolved: if
    each of the 5 attempts is answered 422, the call throws the
    "could not create account after several attempts" error after exactly
    5 requests; if, after [k] attempts answered 422, the next attempt is
    answered with a status [s] outside 200-299 other than 422, the call
    throws the error whose message ends with [s] and that request, the
    [k+1]-th, is the last one. *)
Theorem createRealAccount_random_retry u d env h :
  truthyStr u = false ->
  let run := createRealAccount u d env h in
  (count isCreateRequest (events run) <= 5)%nat
  /\ forall t0 dom,
       resolveDomain d env h = (t0, Ok dom) ->
       let answered := attemptStatus env u dom (h ++ t0) in
       ((forall k, (k < 5)%nat -> answered k = Some 422%Z) ->
          outcome run = Throw (Error exhaustedMessage)
          /\ count isCreateRequest (events run) = 5%nat)
       /\ (forall k s,
             (k < 5)%nat ->
             (forall j, (j < k)%nat -> answered j = Some 422%Z) ->
             answered k = Some s -> is2xx s = false -> s <> 422%Z ->
             outcome run = Throw (Error (creationFailedPrefix ^^ showZ s))
             /\ count isCreateRequest (events run) = S k).
Proof.
  intros Hu run. subst run.
  rewrite createRealAccount_create_count, createRealAccount_outcome, Hu.
  cbn [maxRetries]. split.
  - destruct (resolveDomain d env h) as [t0 [dom|e]]; [|lia].
    apply (createLoop_count isCreateRequest false u dom true 5);
      [exact quiet_isCreateRequest | reflexivity].
  - intros t0 dom Hr. rewrite Hr.
    destruct (provision_resolved u d env h t0 dom Hr) as (_ & ->).
    split.
    + intros Hall.
      destruct (createLoop_all_422 u dom 5 initialCreation env (h ++ t0) Hall)
        as (st' & Ho & Hc & Hn).
      split; [|exact Hn].
      apply provisionWith_create_throw.
      rewrite createAccount_outcome, Hu. cbn [maxRetries].
      rewrite Ho, Hc. reflexivity.
    + intros k s Hk Hprev Hs H2 H422.
      destruct (createLoop_fail_at u dom k 5 initialCreation env (h ++ t0) s)
        as (Ho & Hn); auto.
      split; [|exact Hn].
      apply provisionWith_create_throw.
      rewrite createAccount_outcome, Hu. cbn [maxRetries].
      rewrite Ho. reflexivity.
Qed.

(** Custom mode with no [customDomain] and a catalog that never lists a
    domain: the username is supplied, the call throws the "no domains"
    error, and no request reaches the creation endpoint -- not exactly
    one. *)
Lemma createRealAccount_custom_no_domain_counterexample :
  truthyStr (Some "alice") = true
  /\ outcome (createRealAccount (Some "alice") None emptyCatalogEnv [])
     = Throw (Error noDomainsMessage)
  /\ count isCreateRequest
       (events (createRealAccount (Some "alice") None emptyCatalogEnv [])) = 0%nat
  /\ count isCreateRequest
       (events (createRealAccount (Some "alice") None emptyCatalogEnv [])) <> 1%nat.
Proof.
  split; [reflexivity|]. split; [vm_compute; reflexivity|].
  assert (H0 : count isCreateRequest
                 (events (createRealAccount (Some "alice") None emptyCatalogEnv []))
               = 0%nat) by (vm_compute; reflexivity).
  split; [exact H0|]. rewrite H0. discriminate.
Qed.

(** C2, amended.  Custom mode (a non-empty [customUsername]).  A call
    issues at most one request to the creation endpoint.  It issues exactly
    one whenever a domain is at hand: a [customDomain] was supplied, or the
    domain loop ended with a non-empty list.  When the loop ends empty the
    call throws the "no domains" error and issues none.  If the creation
    request is answered 422 the call throws the "username unavailable"
    error, that request being the only one. *)
Theorem createRealAccount_custom_once u d env h :
  truthyStr u = true ->
  let run := createRealAccount u d env h in
  (count isCreateRequest (events run) <= 1)%nat
  /\ (truthyStr d = true -> count isCreateRequest (events run) = 1%nat)
  /\ (truthyStr d = false ->
      exists ds,
        outcome (domainLoop 3 [] env h) = Ok ds
        /\ (ds <> [] -> count isCreateRequest (events run) = 1%nat)
        /\ (ds = [] ->
            count isCreateRequest (events run) = 0%nat
            /\ outcome run = Throw (Error noDomainsMessage)))
  /\ forall t0 dom,
       resolveDomain d env h = (t0, Ok dom) ->
       count isCreateRequest (events run) = 1%nat
       /\ forall a,
            outcome (createAttempt true u dom env (h ++ t0)) = Ok a ->
            status (att_response a) = 422%Z ->
            outcome run = Throw (Error usernameUnavailableMessage).
Proof.
  intros Hu run. subst run.
  rewrite createRealAccount_create_count, createRealAccount_outcome, Hu.
  cbn [maxRetries].
  assert (Hone : forall dom h', count isCreateRequest
            (events (createLoop true u dom 1 initialCreation env h')) = 1%nat).
  { intros dom h'.
    apply (createLoop_custom_once isCreateRequest u dom initialCreation env h' true);
      [exact quiet_isCreateRequest | reflexivity]. }
  split; [|split; [|split]].
  - destruct (resolveDomain d env h) as [t0 [dom|e]]; [rewrite Hone|]; lia.
  - intros Hd. rewrite (resolveDomain_custom d env h Hd). apply Hone.
  - intros Hd.
    destruct (resolveDomain_outcome d env h Hd) as (ds & Hloop & Hnone & Hsome).
    exists ds. split; [exact Hloop|]. split.
    + intros Hne. destruct (Hsome Hne) as (dom & Ho).
      destruct (resolveDomain d env h) as [t0 r]. cbn [outcome snd] in Ho.
      rewrite Ho. apply Hone.
    + intros He. pose proof (Hnone He) as Ho.
      destruct (provision_unresolved u d env h _ Ho) as (_ & ->).
      destruct (resolveDomain d env h) as [t0 r]. cbn [outcome snd] in Ho.
      rewrite Ho. split; reflexivity.
  - intros t0 dom Hr. rewrite Hr. split; [apply Hone|].
    intros a Ha Hst.
    destruct (provision_resolved u d env h t0 dom Hr) as (_ & ->).
    apply provisionWith_create_throw.
    rewrite createAccount_outcome, Hu. cbn [maxRetries].
    destruct (createLoop_unavailable u dom 0 initialCreation env (h ++ t0) a Ha
                (ok_422 _ Hst) Hst) as (_ & ->).
    reflexivity.
Qed.

Lemma createRealAccount_random_retry_witness :
  (outcome (createRealAccount None (Some "x.com") (collisionsThenEnv 5 500) [])
   = Throw (Error exhaustedMessage)
   /\ count isCreateRequest
        (events (createRealAccount None (Some "x.com") (collisionsThenEnv 5 500) []))
      = 5%nat)
  /\ (outcome (createRealAccount None (Some "x.com") (collisionsThenEnv 2 500) [])
      = Throw (Error (creationFailedPrefix ^^ "500"))
      /\ count isCreateRequest
           (events (createRealAccount None (Some "x.com") (collisionsThenEnv 2 500) []))
         = 3%nat).
Proof.
  split.
  - apply (createRealAccount_random_retry None (Some "x.com")
             (collisionsThenEnv 5 500) [] eq_refl) with (t0 := [])
            (dom := Some (JStr "x.com")).
    + reflexivity.
    + intros k Hk.
      destruct k as [|[|[|[|[|k]]]]]; try lia; vm_compute; reflexivity.
  - apply (createRealAccount_random_retry None (Some "x.com")
             (collisionsThenEnv 2 500) [] eq_refl) with (t0 := [])
            (dom := Some (JStr "x.com")) (k := 2%nat) (s := 500%Z).
    + reflexivity.
    + lia.
    + intros j Hj. destruct j as [|[|j]]; try lia; vm_compute; reflexivity.
    + vm_compute; reflexivity.
    + reflexivity.
    + discriminate.
Defined.

Lemma createRealAccount_custom_once_witness :
  count isCreateRequest
    (events (createRealAccount (Some "alice") (Some "x.com") (uniformEnv 422 None) []))
  = 1%nat
  /\ outcome (createRealAccount (Some "alice") (Some "x.com") (uniformEnv 422 None) [])
     = Throw (Error usernameUnavailableMessage).
Proof.
  destruct (createRealAccount_custom_once (Some "alice") (Some "x.com")
              (uniformEnv 422 None) [] eq_refl) as (_ & _ & _ & H).
  destruct (H [] (Some (JStr "x.com")) eq_refl) as (Hone & Hthrow).
  split; [exact Hone|].
  apply (Hthrow
           {| att_username := "alice";
              att_password := "aaaaaaaaaaaa";
              att_address := "alice@x.com";
              att_response := respond 422 None |}).
  - vm_compute; reflexivity.
  - reflexivity.
Defined.



(** The domain-retry scenario: empty, empty, then the mixed catalog.  The
    call succeeds with an address at the active domain of the third
    result. *)
Example createRealAccount_third_discovery :
  exists s,
    outcome (createRealAccount None None flakyCatalogEnv []) = Ok s
    /\ emailAddress s = "aaaaaaaaaa@a.com"
    /\ accountId s = Some (JStr "42").
Proof. eexists. split; [vm_compute; reflexivity|]. split; reflexivity. Qed.

(** ** The session *)

(** C6. Every session returned by [createRealAccount] has
    [isPremium] equal to "a custom username was supplied" (a non-empty
    [customUsername], the code's [!!customUsername]); its [expiresAt] is
    [null] exactly in that case, and otherwise is [createdAt] plus ten
    minutes (600000 ms). *)
Theorem createRealAccount_expiry u d env h t s :
  createRealAccount u d env h = (t, Ok s) ->
  isPremium s = truthyStr u
  /\ (expiresAt s = None <-> truthyStr u = true)
  /\ (truthyStr u = false -> expiresAt s = Some (createdAt s + 600000)%Z).
Proof.
  intros Hrun.
  apply createRealAccount_returns in Hrun as (t' & Hrun).
  apply provision_returns in Hrun as (st & tok & h' & t'' & Hfin).
  apply finishSession_returns in Hfin as (_ & _ & _ & Hp & He & _).
  rewrite He, Hp. destruct (truthyStr u).
  - repeat split; auto. discriminate.
  - repeat split; auto; discriminate.
Qed.

Lemma createRealAccount_expiry_witness :
  (exists s,
     outcome (createRealAccount None (Some "x.com")
                (providerEnv 200 (Some account42)) []) = Ok s
     /\ isPremium s = false
     /\ createdAt s = 1700000000000%Z
     /\ expiresAt s = Some 1700000600000%Z)
  /\ (exists s,
        outcome (createRealAccount (Some "alice") (Some "x.com")
                   (providerEnv 200 (Some account42)) []) = Ok s
        /\ isPremium s = true
        /\ expiresAt s = None).
Proof.
  split.
  - destruct (createRealAccount None (Some "x.com")
                (providerEnv 200 (Some account42)) []) as [t [s|e]] eqn:Hrun;
      [|vm_compute in Hrun; discriminate Hrun].
    destruct (createRealAccount_expiry None (Some "x.com")
                (providerEnv 200 (Some account42)) [] t s Hrun) as (Hp & _ & He).
    exists s. split; [reflexivity|]. split; [exact Hp|].
    assert (Hc : createdAt s = 1700000000000%Z).
    { vm_compute in Hrun. now injection Hrun as _ <-. }
    split; [exact Hc|]. rewrite (He eq_refl), Hc. reflexivity.
  - destruct (createRealAccount (Some "alice") (Some "x.com")
                (providerEnv 200 (Some account42)) []) as [t [s|e]] eqn:Hrun;
      [|vm_compute in Hrun; discriminate Hrun].
    destruct (createRealAccount_expiry (Some "alice") (Some "x.com")
                (providerEnv 200 (Some account42)) [] t s Hrun) as (Hp & He & _).
    exists s. split; [reflexivity|]. split; [exact Hp|].
    apply He. reflexivity.
Defined.

(** An empty [customUsername] counts as none: random mode, not premium. *)
Example createRealAccount_empty_username :
  exists s,
    outcome (createRealAccount (Some EmptyString) (Some "x.com")
               (providerEnv 200 (Some account42)) []) = Ok s
    /\ isPremium s = false
    /\ emailAddress s = "aaaaaaaaaa@x.com".
Proof. eexists. split; [vm_compute; reflexivity|]. split; reflexivity. Qed.

(** C10, as amended.  Once the domain, the account and the token are
    obtained, the status of the metadata response plays no part.  If its
    body parses to a JSON value other than [null], the call returns a
    session whose [accountId] is the [id] of that value ([undefined] when
    there is none).  If the body does not parse, the call throws the
    parser's [SyntaxError]; if it parses to [null], the call throws the
    [TypeError] of reading [id]. *)
Theorem createRealAccount_me_unchecked u d env h t1 dom t2 st t3 tok t4 meRes :
  resolveDomain d env h = (t1, Ok dom) ->
  createAccount (truthyStr u) u dom env (h ++ t1) = (t2, Ok st) ->
  login (cr_address st) (cr_password st) env ((h ++ t1) ++ t2) = (t3, Ok tok) ->
  smartFetch meUrl (bearer tok) env (((h ++ t1) ++ t2) ++ t3) = (t4, Ok meRes) ->
  let run := createRealAccount u d env h in
  (forall meData,
     payload meRes = Some meData -> meData <> JNull ->
     exists s,
       outcome run = Ok s
       /\ accountId s = propOf meData "id"
       /\ token s = tok
       /\ emailAddress s = cr_address st)
  /\ (payload meRes = None ->
      outcome run = Throw (SyntaxError "Unexpected token in JSON"))
  /\ (payload meRes = Some JNull ->
      exists msg, outcome run = Throw (TypeError msg)).
Proof.
  intros Hr Hc Hl Hme run. subst run.
  rewrite (createRealAccount_after_login u d env h t1 dom t2 st t3 tok Hr Hc Hl).
  rewrite (finishSession_by_body _ _ _ tok env _ t4 meRes Hme).
  split; [|split].
  - intros meData Hp Hnn. rewrite Hp. unfold propOf.
    destruct (getProp_not_null meData "id" Hnn) as (id & ->).
    eexists. split; [reflexivity|]. repeat split.
  - intros ->. reflexivity.
  - intros ->. eexists. reflexivity.
Qed.

Lemma createRealAccount_me_unchecked_witness :
  (exists s,
     outcome (createRealAccount (Some "alice") (Some "x.com")
                (providerEnv 500 (Some account42)) []) = Ok s
     /\ accountId s = Some (JStr "42")
     /\ token s = Some (JStr "secret")
     /\ emailAddress s = "alice@x.com")
  /\ outcome (createRealAccount (Some "alice") (Some "x.com")
                (providerEnv 500 None) [])
     = Throw (SyntaxError "Unexpected token in JSON")
  /\ (exists msg,
        outcome (createRealAccount (Some "alice") (Some "x.com")
                   (providerEnv 500 (Some JNull)) [])
        = Throw (TypeError msg)).
Proof.
  split; [|split].
  - edestruct (createRealAccount_me_unchecked (Some "alice") (Some "x.com")
                 (providerEnv 500 (Some account42)) []) as (H & _ & _).
    1-4: lazy; reflexivity.
    destruct (H account42 eq_refl) as (s & Ho & Hid & Htok & Haddr);
      [discriminate|].
    exists s. repeat split; assumption.
  - edestruct (createRealAccount_me_unchecked (Some "alice") (Some "x.com")
                 (providerEnv 500 None) []) as (_ & H & _).
    1-4: lazy; reflexivity.
    apply H. reflexivity.
  - edestruct (createRealAccount_me_unchecked (Some "alice") (Some "x.com")
                 (providerEnv 500 (Some JNull)) []) as (_ & _ & H).
    1-4: lazy; reflexivity.
    apply H. reflexivity.
Defined.

(** C10 as stated fails on a body that parses as JSON to [null]: account
    creation and token exchange succeed, the metadata request is answered
    500 with the body [null], and the call throws instead of returning a
    session. *)
Lemma createRealAccount_me_null_counterexample :
  exists t1 dom t2 st t3 tok t4,
    resolveDomain (Some "x.com") (providerEnv 500 (Some JNull)) [] = (t1, Ok dom)
    /\ createAccount true (Some "alice") dom (providerEnv 500 (Some JNull)) ([] ++ t1)
       = (t2, Ok st)
    /\ login (cr_address st) (cr_password st) (providerEnv 500 (Some JNull))
         (([] ++ t1) ++ t2) = (t3, Ok tok)
    /\ smartFetch meUrl (bearer tok) (providerEnv 500 (Some JNull))
         ((([] ++ t1) ++ t2) ++ t3) = (t4, Ok (respond 500 (Some JNull)))
    /\ payload (respond 500 (Some JNull)) = Some JNull
    /\ outcome (createRealAccount (Some "alice") (Some "x.com")
                  (providerEnv 500 (Some JNull)) [])
       = Throw (TypeError "Cannot read properties of null (reading 'id')").
Proof.
  do 7 eexists.
  repeat (split; [lazy; reflexivity|]).
  vm_compute. reflexivity.
Qed.

(** ** Messages *)

(** What [fetchMessageDetails] returns.  It never throws.  When the
    request fails on both routes, or the body does not parse, or parses to
    [null], it returns [null].  For every other response, whatever its
    status, it returns a body chosen in this order: the HTML field when it
    is a non-empty array (its fragments joined without separator) or a
    non-empty string; else the text field when it is truthy; else
    ["No content"].  String fragments are joined by plain concatenation. *)
Lemma fetchMessageDetails_body tok id env h :
  let run := fetchMessageDetails tok id env h in
  let fetched := smartFetch (messageUrl id) (bearer (Some (JStr tok))) env h in
  (exists r, outcome run = Ok r)
  /\ (forall e, outcome fetched = Throw e -> outcome run = Ok None)
  /\ (forall res,
        outcome fetched = Ok res ->
        payload res = None \/ payload res = Some JNull ->
        outcome run = Ok None)
  /\ (forall res data,
        outcome fetched = Ok res -> payload res = Some data -> data <> JNull ->
        exists content,
          outcome run = Ok (Some {| md_body := content; md_hasFullDetails := true |})
          /\ match htmlContent (propOf data "html") with
             | Some s => content = JStr s
             | None =>
                 if truthy (propOf data "text")
                 then Some content = propOf data "text"
                 else content = JStr "No content"
             end)
  /\ (forall frags,
        frags <> [] ->
        htmlContent (Some (JArr (map JStr frags)))
        = Some (String.concat EmptyString frags)).
Proof.
  intros run fetched. subst run fetched.
  split; [apply fetchMessageDetails_total|].
  unfold fetchMessageDetails. rewrite outcome_tryCatch, outcome_bind.
  split; [|split; [|split]].
  - intros e ->. reflexivity.
  - intros res -> [Hp | Hp]; unfold json; rewrite outcome_bind, Hp; reflexivity.
  - intros res data -> Hp Hnn.
    destruct (resolveBody_spec data Hnn) as (content & Hb & Hspec).
    exists content. split; [|exact Hspec].
    unfold json. rewrite outcome_bind, Hp.
    cbn [outcome events ret fst snd]. rewrite outcome_bind.
    unfold liftR. rewrite Hb. reflexivity.
  - intros frags Hne. destruct frags as [|s rest]; [contradiction|].
    cbn [htmlContent map]. f_equal. apply (join_fragments (s :: rest)).
Qed.

Example fetchMessageDetails_body_examples :
  outcome (fetchMessageDetails "secret" "m1" offlineEnv []) = Ok None
  /\ outcome (fetchMessageDetails "secret" "m1" (uniformEnv 200 None) []) = Ok None
  /\ outcome (fetchMessageDetails "secret" "m1" (uniformEnv 200 (Some htmlMessage)) [])
     = Ok (Some {| md_body := JStr "<p>Hi</p><p>there</p>"; md_hasFullDetails := true |})
  /\ outcome (fetchMessageDetails "secret" "m1" (uniformEnv 200 (Some textMessage)) [])
     = Ok (Some {| md_body := JStr "Hi there"; md_hasFullDetails := true |})
  /\ outcome (fetchMessageDetails "secret" "m1" (uniformEnv 200 (Some bareMessage)) [])
     = Ok (Some {| md_body := JStr "No content"; md_hasFullDetails := true |})
  /\ htmlContent (Some (JArr (map JStr ["<p>Hi</p>"; "<p>there</p>"])))
     = Some "<p>Hi</p><p>there</p>".
Proof.
  split; [|split; [|split; [|split; [|split]]]].
  - apply (fetchMessageDetails_body "secret" "m1" offlineEnv [])
      with (e := TypeError "Failed to fetch").
    reflexivity.
  - apply (fetchMessageDetails_body "secret" "m1" (uniformEnv 200 None) [])
      with (res := respond 200 None).
    + reflexivity.
    + left. reflexivity.
  - destruct (fetchMessageDetails_body "secret" "m1"
                (uniformEnv 200 (Some htmlMessage)) []) as (_ & _ & _ & H & _).
    destruct (H (respond 200 (Some htmlMessage)) htmlMessage eq_refl eq_refl)
      as (content & Ho & Hc); [discriminate|].
    cbn in Hc. rewrite Ho, Hc. reflexivity.
  - destruct (fetchMessageDetails_body "secret" "m1"
                (uniformEnv 200 (Some textMessage)) []) as (_ & _ & _ & H & _).
    destruct (H (respond 200 (Some textMessage)) textMessage eq_refl eq_refl)
      as (content & Ho & Hc); [discriminate|].
    cbn in Hc. injection Hc as ->. rewrite Ho. reflexivity.
  - destruct (fetchMessageDetails_body "secret" "m1"
                (uniformEnv 200 (Some bareMessage)) []) as (_ & _ & _ & H & _).
    destruct (H (respond 200 (Some bareMessage)) bareMessage eq_refl eq_refl)
      as (content & Ho & Hc); [discriminate|].
    cbn in Hc. rewrite Ho, Hc. reflexivity.
  - apply (fetchMessageDetails_body "secret" "m1" offlineEnv []).
    discriminate.
Qed.

(** C8, the failing input.  The provider answers the request for the
    message with 404 and a JSON error body: the request failed, the
    response is not [ok], and [fetchMessageDetails] returns a message
    marked as fully loaded whose body is ["No content"], not [null].  The
    status of the response is never looked at. *)
Theorem fetchMessageDetails_details_on_error_status :
  ok (respond 404 (Some (JObj [("message", JStr "Not Found")]))) = false
  /\ fetchMessageDetails "secret" "m1"
       (uniformEnv 404 (Some (JObj [("message", JStr "Not Found")]))) []
     = ([EvFetch "https://api.mail.tm/messages/m1" (bearer (Some (JStr "secret")))],
        Ok (Some {| md_body := JStr "No content"; md_hasFullDetails := true |})).
Proof. split; reflexivity. Qed.

(** [deleteMessage] never throws; it returns [false] exactly when the
    request failed on both routes, and [true] for every response. *)
Lemma deleteMessage_never_throws tok id env h :
  exists b,
    outcome (deleteMessage tok id env h) = Ok b
    /\ (b = false <->
        exists e, outcome (smartFetch (messageUrl id) (deleteInit tok) env h) = Throw e).
Proof.
  rewrite deleteMessage_outcome.
  destruct (outcome (smartFetch _ _ _ _)) as [res|e].
  - exists true. split; [reflexivity|]. split; [discriminate|].
    intros (e & He). discriminate He.
  - exists false. split; [reflexivity|]. split; eauto.
Qed.

(** C9, the failing input.  The server answers the DELETE with 500: the
    message is not deleted, the response is not [ok], and [deleteMessage]
    returns [true]. *)
Theorem deleteMessage_true_on_server_error :
  ok (respond 500 None) = false
  /\ deleteMessage "secret" "m1" (uniformEnv 500 None) []
     = ([EvFetch "https://api.mail.tm/messages/m1" (deleteInit "secret")], Ok true).
Proof. split; reflexivity. Qed.

(** ** Further properties of the service *)

Lemma append_assoc (a b c : string) : (a ^^ b) ^^ c = a ^^ (b ^^ c).
Proof. induction a as [|x a IH]; simpl; [reflexivity | now rewrite IH]. Qed.

Lemma charAt_chars i :
  (i < String.length chars)%nat ->
  exists c, charAt chars i = String c EmptyString /\ isLowerAlnum c = true.
Proof.
  intros Hi.
  do 36 (destruct i as [|i]; [eexists; split; reflexivity|]).
  simpl in Hi. lia.
Qed.

Lemma randomStringFrom_alphabet length : forall result env h,
  exists s,
    outcome (randomStringFrom result length env h) = Ok (result ^^ s)
    /\ String.length s = length
    /\ allChars isLowerAlnum s = true.
Proof.
  induction length as [|n IH]; intros result env h.
  - exists EmptyString. repeat split.
    cbn. f_equal. induction result as [|x r IHr]; simpl; [reflexivity | now rewrite <- IHr].
  - cbn [randomStringFrom]. rewrite outcome_bind.
    change (outcome (randomBelow (String.length chars) env h))
      with (@Ok nat (dice env h mod String.length chars)%nat).
    change (events (randomBelow (String.length chars) env h)) with [EvRandom].
    destruct (charAt_chars (dice env h mod String.length chars)) as (c & -> & Hc).
    { apply Nat.mod_upper_bound. discriminate. }
    destruct (IH (result ^^ String c EmptyString) env (h ++ [EvRandom]))
      as (s & Ho & Hl & Ha).
    exists (String c s). rewrite Ho, append_assoc. repeat split.
    + simpl. now rewrite Hl.
    + unfold allChars in *. simpl. now rewrite Hc, Ha.
Qed.

Lemma randomString_spec length env h :
  exists s,
    randomString length env h = (repeat EvRandom length, Ok s)
    /\ String.length s = length
    /\ allChars isLowerAlnum s = true.
Proof.
  destruct (randomStringFrom_alphabet length EmptyString env h) as (s & Ho & Hl & Ha).
  destruct (randomString_run length env h) as (s' & Ho' & He).
  exists s. split; [|split; assumption].
  rewrite (surjective_run (randomString length env h)), He.
  unfold randomString. rewrite Ho. reflexivity.
Qed.

(** X1. [randomString(length)] always returns a string of exactly
    [length] characters, each a lower-case letter or a digit, and does
    nothing but draw [length] random numbers. *)
Theorem randomString_alphabet length env h :
  exists s,
    randomString length env h = (repeat EvRandom length, Ok s)
    /\ String.length s = length
    /\ allChars isLowerAlnum s = true.
Proof.
  destruct (randomStringFrom_alphabet length EmptyString env h) as (s & Ho & Hl & Ha).
  destruct (randomString_run length env h) as (s' & _ & He).
  exists s. split; [|split; assumption].
  rewrite (surjective_run (randomString length env h)), He.
  unfold randomString. rewrite Ho. reflexivity.
Qed.

Lemma smartFetch_first url options env h :
  exists rest, events (smartFetch url options env h) = EvFetch url options :: rest.
Proof.
  destruct (smartFetch_cases url options env h)
    as [(res & _ & _ & ->) | (_ & ->)]; eexists; reflexivity.
Qed.

(** X2. The credentials of a creation attempt.  The address is
    [username@domain]; the password is 12 fresh characters of [a-z0-9];
    the username is the custom one in custom mode and 10 fresh characters
    of [a-z0-9] otherwise; and the creation request carries exactly this
    address and password. *)
Theorem createAttempt_credentials c u dom env h a :
  outcome (createAttempt c u dom env h) = Ok a ->
  att_address a = att_username a ^^ "@" ^^ toString dom
  /\ String.length (att_password a) = 12%nat
  /\ allChars isLowerAlnum (att_password a) = true
  /\ (if c then att_username a = strOrUndefined u
      else String.length (att_username a) = 10%nat
           /\ allChars isLowerAlnum (att_username a) = true)
  /\ In (EvFetch accountsUrl (postCredentials (att_address a) (att_password a)))
        (events (createAttempt c u dom env h)).
Proof.
  unfold createAttempt.
  assert (Huser : exists user n,
    (if c then ret (strOrUndefined u) else randomString 10) env h
    = (repeat EvRandom n, Ok user)
    /\ (if c then user = strOrUndefined u
        else String.length user = 10%nat /\ allChars isLowerAlnum user = true)).
  { destruct c.
    - exists (strOrUndefined u), 0%nat. split; reflexivity.
    - destruct (randomString_spec 10 env h) as (s & Hr & Hl & Ha).
      exists s, 10%nat. auto. }
  destruct Huser as (user & n & Hu & Hprop).
  rewrite outcome_bind, events_bind, Hu. cbn [outcome events fst snd].
  set (h1 := h ++ repeat EvRandom n).
  destruct (randomString_spec 12 env h1) as (pw & Hp & Hl & Ha).
  rewrite outcome_bind, events_bind, Hp. cbn [outcome events fst snd].
  rewrite outcome_bind, events_bind.
  set (init := postCredentials (user ^^ "@" ^^ toString dom) pw).
  destruct (smartFetch_first accountsUrl init env (h1 ++ repeat EvRandom 12))
    as (rest & Hev).
  destruct (outcome (smartFetch accountsUrl init env _)) as [res|e];
    [|discriminate].
  intros [= <-]. cbn [att_address att_username att_password].
  repeat split; auto.
  rewrite Hev. apply in_or_app. right. apply in_or_app. right.
  left. reflexivity.
Qed.

(** *** Domain discovery: what is kept, and when the second query runs *)

Lemma filterActive_exact items :
  Forall (fun d => d <> JNull) items ->
  filterActive items = Ok (keepActive items).
Proof.
  induction 1 as [|d rest Hd _ IH]; [reflexivity|].
  cbn [filterActive keepActive filter]. unfold isActiveOf.
  destruct (getProp_not_null d "isActive" Hd) as (v & ->).
  rewrite IH. reflexivity.
Qed.

Lemma filterActive_keeps items kept :
  filterActive items = Ok kept -> kept = keepActive items.
Proof.
  revert kept. induction items as [|d rest IH]; intros kept; simpl.
  - now intros [= <-].
  - unfold isActiveOf.
    destruct (getProp d "isActive") as [v|e]; [|discriminate].
    destruct (filterActive rest) as [kept'|e]; [|discriminate].
    intros [= <-]. now rewrite (IH kept' eq_refl).
Qed.

(** X3. What [(data['hydra:member'] || []).filter(d => d.isActive)]
    keeps.  When it yields a list, the member array exists (a missing or
    falsy [hydra:member] counts as the empty array) and the list is that
    array with the entries whose [isActive] is falsy removed: every active
    entry is kept, in catalog order.  Conversely it yields that list
    whenever the response and its entries are not [null]. *)
Theorem activeMembers_exact data :
  (forall ds,
     activeMembers data = Ok ds ->
     exists items, membersOf data = Some items /\ ds = keepActive items)
  /\ (data <> JNull ->
      forall items,
        membersOf data = Some items ->
        Forall (fun d => d <> JNull) items ->
        activeMembers data = Ok (keepActive items)).
Proof.
  unfold activeMembers, membersOf, propOf. split.
  - intros ds.
    destruct (getProp data "hydra:member") as [member|e]; [|discriminate].
    destruct member as [[| b | n | s | items | fields]|]; cbn [truthy];
      try (destruct b); try (destruct (num_nonzero n)); try (destruct (nonEmpty s));
      try discriminate;
      intros H; apply filterActive_keeps in H; eauto.
  - intros Hnn items.
    destruct (getProp_not_null data "hydra:member" Hnn) as (member & ->).
    destruct member as [[| b | n | s | items' | fields]|]; cbn [truthy];
      try (destruct b); try (destruct (num_nonzero n)); try (destruct (nonEmpty s));
      try discriminate;
      intros [= <-] Hall; now apply filterActive_exact.
Qed.

Lemma activeMembers_exact_witness :
  activeMembers mixedCatalog = Ok [domainEntry "a.com" true]
  /\ activeMembers (JObj []) = Ok [].
Proof.
  split.
  - destruct (activeMembers_exact mixedCatalog) as (_ & H).
    refine (H _ [domainEntry "a.com" true; domainEntry "b.com" false] eq_refl _);
      [discriminate | repeat constructor; discriminate].
  - destruct (activeMembers_exact (JObj [])) as (_ & H).
    refine (H _ [] eq_refl _); [discriminate | constructor].
Defined.

Lemma strategyA_outcome env h :
  outcome (strategyA env h)
  = match outcome (smartFetch (domainsUrlA (clock env h)) noInit env (h ++ [EvNow])) with
    | Throw e => Throw e
    | Ok res =>
        if ok res then
          match payload res with
          | None => Throw (SyntaxError "Unexpected token in JSON")
          | Some data =>
              match activeMembers data with
              | Throw e => Throw e
              | Ok ds => Ok (if nonEmptyList ds then Some ds else None)
              end
          end
        else Ok None
    end.
Proof.
  unfold strategyA, bind, dateNow, json, liftR, ret, throw.
  destruct (smartFetch _ _ _ _) as [t1 [res|e]]; [|reflexivity].
  cbn [outcome snd].
  destruct (ok res); [|reflexivity].
  destruct (payload res) as [data|]; [|reflexivity].
  destruct (activeMembers data) as [domains|e]; [|reflexivity].
  destruct (nonEmptyList domains); reflexivity.
Qed.

Lemma strategyB_outcome env h :
  outcome (strategyB env h)
  = match outcome (smartFetch (domainsUrlB (clock env h)) noInit env (h ++ [EvNow])) with
    | Throw e => Throw e
    | Ok res =>
        if ok res then
          match payload res with
          | None => Throw (SyntaxError "Unexpected token in JSON")
          | Some data => activeMembers data
          end
        else Ok []
    end.
Proof.
  unfold strategyB, bind, dateNow, json, liftR, ret, throw.
  destruct (smartFetch _ _ _ _) as [t1 [res|e]]; [|reflexivity].
  cbn [outcome snd].
  destruct (ok res); [|reflexivity].
  destruct (payload res) as [data|]; [|reflexivity].
  destruct (activeMembers data) as [domains|e]; reflexivity.
Qed.

Lemma default_urlB now o : isDefaultQuery (EvFetch (domainsUrlB now) o) = true.
Proof.
  unfold isDefaultQuery, isFetchOf, domainsUrlB, API_BASE. cbn.
  now destruct (showZ now).
Qed.

Lemma quiet_isDefaultQuery : quiet isDefaultQuery.
Proof. apply quiet_isFetchOf. intros; apply proxy_not_api. Qed.

Lemma getAvailableDomains_outcome env h :
  outcome (getAvailableDomains env h)
  = match outcome (strategyA env h) with
    | Ok (Some ds) => Ok ds
    | Ok None =>
        match outcome (strategyB env (h ++ events (strategyA env h))) with
        | Ok ds => Ok ds
        | Throw _ => Ok []
        end
    | Throw _ => Ok []
    end.
Proof.
  unfold getAvailableDomains. rewrite outcome_tryCatch, outcome_bind.
  destruct (outcome (strategyA env h)) as [[ds|]|e]; reflexivity.
Qed.

Lemma getAvailableDomains_default_count env h :
  count isDefaultQuery (events (getAvailableDomains env h))
  = match outcome (strategyA env h) with Ok None => 1%nat | _ => 0%nat end.
Proof.
  pose proof quiet_isDefaultQuery as Hq. pose proof Hq as (Hnow & _ & Hcon & _).
  unfold getAvailableDomains.
  rewrite events_tryCatch, outcome_bind, events_bind, !count_app.
  rewrite strategyA_events, count_cons, Hnow, smartFetch_count_quiet by exact Hq.
  change (isDefaultQuery (EvFetch (domainsUrlA (clock env h)) noInit)) with false.
  set (hA := h ++ EvNow :: _).
  assert (HcB : forall h', count isDefaultQuery (events (strategyB env h')) = 1%nat).
  { intros h'. rewrite strategyB_events, count_cons, Hnow.
    rewrite smartFetch_count_quiet by exact Hq. now rewrite default_urlB. }
  assert (Hh : forall e h', count isDefaultQuery
            (events ((console Err "Critical: Could not fetch domains." (Some e) ;;;
                      ret (@nil JSON)) env h')) = 0%nat).
  { intros e h'. reflexivity. }
  destruct (outcome (strategyA env h)) as [[ds|]|e]; cbn [events outcome ret fst snd].
  - rewrite count_nil. lia.
  - rewrite HcB. destruct (outcome (strategyB env hA)); rewrite ?Hh, ?count_nil; lia.
  - rewrite Hh, count_nil. lia.
Qed.

(** X4. The second query is not a fallback for every failure.  When the
    paginated request fails on both routes, or is answered [ok] with a
    body that does not parse or whose members cannot be filtered,
    [getAvailableDomains] returns the empty list without issuing the
    default query. *)
Theorem getAvailableDomains_no_second_query_on_throw env h :
  let first := smartFetch (domainsUrlA (clock env h)) noInit env (h ++ [EvNow]) in
  (exists e, outcome first = Throw e)
  \/ (exists res,
        outcome first = Ok res /\ ok res = true
        /\ (payload res = None
            \/ exists data e, payload res = Some data /\ activeMembers data = Throw e)) ->
  outcome (getAvailableDomains env h) = Ok []
  /\ count isDefaultQuery (events (getAvailableDomains env h)) = 0%nat.
Proof.
  intros first Hfail. subst first.
  rewrite getAvailableDomains_outcome, getAvailableDomains_default_count,
    strategyA_outcome.
  destruct Hfail as [(e & ->) | (res & -> & -> & [-> | (data & e & -> & ->)])];
    split; reflexivity.
Qed.

Lemma getAvailableDomains_no_second_query_on_throw_witness :
  (outcome (getAvailableDomains offlineEnv []) = Ok []
   /\ count isDefaultQuery (events (getAvailableDomains offlineEnv [])) = 0%nat)
  /\ (outcome (getAvailableDomains (uniformEnv 200 None) []) = Ok []
      /\ count isDefaultQuery (events (getAvailableDomains (uniformEnv 200 None) []))
         = 0%nat).
Proof.
  split.
  - apply (getAvailableDomains_no_second_query_on_throw offlineEnv []).
    left. eexists. reflexivity.
  - apply (getAvailableDomains_no_second_query_on_throw (uniformEnv 200 None) []).
    right. exists (respond 200 None). repeat split. now left.
Defined.

(** X5. When the paginated request is answered, but not [ok] or with no
    active entry, exactly one default query follows and its answer decides:
    an [ok] catalog gives its active entries, a response that is not [ok]
    gives the empty list. *)
Theorem getAvailableDomains_second_query env h res :
  let first := smartFetch (domainsUrlA (clock env h)) noInit env (h ++ [EvNow]) in
  outcome first = Ok res ->
  ok res = false
  \/ (exists data, payload res = Some data /\ activeMembers data = Ok []) ->
  let h2 := h ++ EvNow :: events first in
  let second := smartFetch (domainsUrlB (clock env h2)) noInit env (h2 ++ [EvNow]) in
  count isDefaultQuery (events (getAvailableDomains env h)) = 1%nat
  /\ (forall res2 data2 ds,
        outcome second = Ok res2 -> ok res2 = true ->
        payload res2 = Some data2 -> activeMembers data2 = Ok ds ->
        outcome (getAvailableDomains env h) = Ok ds)
  /\ (forall res2,
        outcome second = Ok res2 -> ok res2 = false ->
        outcome (getAvailableDomains env h) = Ok []).
Proof.
  intros first Hfirst Hempty h2 second. subst first second h2.
  assert (HA : outcome (strategyA env h) = Ok None).
  { rewrite strategyA_outcome, Hfirst.
    destruct Hempty as [-> | (data & Hp & Ha)]; [reflexivity|].
    destruct (ok res); [|reflexivity]. now rewrite Hp, Ha. }
  rewrite getAvailableDomains_outcome, getAvailableDomains_default_count, HA.
  rewrite strategyA_events, strategyB_outcome.
  split; [reflexivity|]. split.
  - intros res2 data2 ds -> -> -> ->. reflexivity.
  - intros res2 -> ->. reflexivity.
Qed.

Lemma getAvailableDomains_second_query_witness :
  count isDefaultQuery (events (getAvailableDomains defaultOnlyEnv [])) = 1%nat
  /\ outcome (getAvailableDomains defaultOnlyEnv []) = Ok [domainEntry "a.com" true]
  /\ outcome (getAvailableDomains (uniformEnv 500 None) []) = Ok [].
Proof.
  split; [|split].
  - apply (getAvailableDomains_second_query defaultOnlyEnv []
             (respond 200 (Some (catalog [])))).
    + reflexivity.
    + right. exists (catalog []). split; reflexivity.
  - eapply (getAvailableDomains_second_query defaultOnlyEnv []
              (respond 200 (Some (catalog [])))).
    + reflexivity.
    + right. exists (catalog []). split; reflexivity.
    + reflexivity.
    + reflexivity.
    + reflexivity.
    + reflexivity.
  - eapply (getAvailableDomains_second_query (uniformEnv 500 None) []
              (respond 500 None)).
    + reflexivity.
    + left. reflexivity.
    + reflexivity.
    + reflexivity.
Defined.

Lemma createAttempt_credentials_witness :
  exists a,
    outcome (createAttempt false None (Some (JStr "x.com")) (uniformEnv 201 None) [])
    = Ok a
    /\ att_address a = "aaaaaaaaaa@x.com"
    /\ String.length (att_password a) = 12%nat.
Proof.
  destruct (createAttempt false None (Some (JStr "x.com")) (uniformEnv 201 None) [])
    as [t [a|e]] eqn:Hrun; [|vm_compute in Hrun; discriminate Hrun].
  assert (Ho : outcome (createAttempt false None (Some (JStr "x.com"))
                          (uniformEnv 201 None) []) = Ok a) by now rewrite Hrun.
  destruct (createAttempt_credentials false None (Some (JStr "x.com"))
              (uniformEnv 201 None) [] a Ho) as (Haddr & Hlen & _).
  exists a. split; [reflexivity|]. split; [|exact Hlen].
  vm_compute in Hrun. injection Hrun as _ <-. reflexivity.
Defined.

(** *** The provisioning call: which endpoints it reaches, and in which order *)

Lemma domainLoop_untouched q n : forall ds0 env h,
  quiet q ->
  (forall now, q (EvFetch (domainsUrlA now) noInit) = false) ->
  (forall now, q (EvFetch (domainsUrlB now) noInit) = false) ->
  q (EvSleep 500) = false ->
  count q (events (domainLoop n ds0 env h)) = 0%nat.
Proof.
  induction n as [|n IH]; intros ds0 env h Hq HA HB Hs; [reflexivity|].
  destruct (getAvailableDomains_total env h) as (ds & Hout).
  assert (Hg : count q (events (getAvailableDomains env h)) = 0%nat).
  { rewrite getAvailableDomains_count by assumption. now rewrite HA. }
  destruct ds as [|d ds].
  - destruct (domainLoop_retry n ds0 env h Hout) as (-> & _).
    rewrite count_app, count_cons, Hg, Hs, IH by assumption. reflexivity.
  - destruct (domainLoop_stop n ds0 env h (d :: ds) Hout) as (-> & _);
      [discriminate | exact Hg].
Qed.

Lemma resolveDomain_untouched q d env h :
  quiet q ->
  (forall now, q (EvFetch (domainsUrlA now) noInit) = false) ->
  (forall now, q (EvFetch (domainsUrlB now) noInit) = false) ->
  q (EvSleep 500) = false ->
  count q (events (resolveDomain d env h)) = 0%nat.
Proof.
  intros Hq HA HB Hs. destruct (truthyStr d) eqn:Hd.
  - now rewrite resolveDomain_custom.
  - rewrite resolveDomain_count by assumption. now apply domainLoop_untouched.
Qed.

Lemma quiet_isMeRequest : quiet isMeRequest.
Proof. apply quiet_isFetchOf. reflexivity. Qed.

Lemma quiet_isTokenRequest : quiet isTokenRequest.
Proof. apply quiet_isFetchOf. reflexivity. Qed.

Lemma createLoop_at_least_one c u dom n st env h :
  (1 <= count isCreateRequest (events (createLoop c u dom (S n) st env h)))%nat.
Proof.
  destruct (createLoop_cases c u dom n st env h)
    as [(-> & _) | (-> & a & Ha & Hok & Hst)].
  - rewrite (createAttempt_count isCreateRequest c u dom env h true);
      [lia | exact quiet_isCreateRequest | reflexivity].
  - destruct (createLoop_collision u dom n st env h a Ha Hok Hst) as (-> & _).
    rewrite count_app.
    rewrite (createAttempt_count isCreateRequest false u dom env h true);
      [lia | exact quiet_isCreateRequest | reflexivity].
Qed.

(** X6. With a non-empty [customDomain] the catalog is never consulted:
    the call issues no domain query and no pause, makes at least one
    creation request, and every creation request registers an address at
    exactly that domain. *)
Theorem createRealAccount_custom_domain u d env h :
  truthyStr d = true ->
  let run := createRealAccount u d env h in
  count isPaginatedQuery (events run) = 0%nat
  /\ count isDefaultQuery (events run) = 0%nat
  /\ count isSleep (events run) = 0%nat
  /\ (1 <= count isCreateRequest (events run))%nat
  /\ Forall (addressedTo (option_map JStr d)) (events run).
Proof.
  intros Hd run. subst run.
  pose proof (resolveDomain_custom d env h Hd) as Hr.
  rewrite (createRealAccount_step1_count isPaginatedQuery u d env h
             quiet_isPaginatedQuery) by reflexivity.
  rewrite (createRealAccount_step1_count isDefaultQuery u d env h
             quiet_isDefaultQuery) by reflexivity.
  rewrite (createRealAccount_step1_count isSleep u d env h quiet_isSleep)
    by reflexivity.
  rewrite createRealAccount_create_count, Hr. cbn [events fst].
  repeat split.
  - destruct (truthyStr u); apply createLoop_at_least_one.
  - rewrite createRealAccount_events.
    destruct (provision_resolved u d env h [] _ Hr) as (-> & _).
    apply Forall_app. split; [apply provisionWith_addressed|].
    destruct (outcome (provision u d env h)); repeat constructor.
    intros Hc. discriminate Hc.
Qed.

Lemma createRealAccount_custom_domain_witness :
  count isPaginatedQuery
    (events (createRealAccount None (Some "x.com") (uniformEnv 422 None) [])) = 0%nat
  /\ (1 <= count isCreateRequest
             (events (createRealAccount None (Some "x.com") (uniformEnv 422 None) [])))%nat.
Proof.
  destruct (createRealAccount_custom_domain None (Some "x.com")
              (uniformEnv 422 None) [] eq_refl) as (Hp & _ & _ & Hc & _).
  split; [exact Hp | exact Hc].
Defined.

Lemma login_events address pw env h :
  events (login address pw env h)
  = events (smartFetch tokenUrl (postCredentials address pw) env h).
Proof.
  unfold login. rewrite events_bind.
  destruct (outcome (smartFetch _ _ _ _)) as [res|e]; [|apply app_nil_r].
  destruct (negb (ok res)); [apply app_nil_r|].
  unfold json, bind, liftR, ret, throw.
  destruct (payload res); apply app_nil_r.
Qed.

Lemma login_outcome address pw env h :
  outcome (login address pw env h)
  = match outcome (smartFetch tokenUrl (postCredentials address pw) env h) with
    | Throw e => Throw e
    | Ok tokenRes =>
        if ok tokenRes then
          match payload tokenRes with
          | None => Throw (SyntaxError "Unexpected token in JSON")
          | Some tokenData => getProp tokenData "token"
          end
        else Throw (Error loginFailedMessage)
    end.
Proof.
  unfold login. rewrite outcome_bind.
  destruct (outcome (smartFetch _ _ _ _)) as [res|e]; [|reflexivity].
  destruct (ok res); [|reflexivity].
  unfold json, bind, liftR, ret, throw.
  destruct (payload res); reflexivity.
Qed.

(** The whole call, once the account is created: events and outcome are
    those of the login and whatever follows it. *)
Lemma createRealAccount_created u d env h t1 dom t2 st :
  resolveDomain d env h = (t1, Ok dom) ->
  createAccount (truthyStr u) u dom env (h ++ t1) = (t2, Ok st) ->
  let h2 := (h ++ t1) ++ t2 in
  let lg := login (cr_address st) (cr_password st) env h2 in
  outcome (provision u d env h)
  = match outcome lg with
    | Ok tok =>
        outcome (finishSession (truthyStr u) (cr_address st) (cr_password st) tok env
                   (h2 ++ events lg))
    | Throw e => Throw e
    end
  /\ events (provision u d env h)
     = t1 ++ t2 ++ events lg
       ++ match outcome lg with
          | Ok tok =>
              events (finishSession (truthyStr u) (cr_address st) (cr_password st)
                        tok env (h2 ++ events lg))
          | Throw _ => []
          end.
Proof.
  intros Hr Hc h2 lg. subst lg h2.
  destruct (provision_resolved u d env h t1 dom Hr) as (-> & ->).
  unfold provisionWith.
  rewrite outcome_bind, events_bind, Hc. cbn [outcome events fst snd].
  rewrite outcome_bind, events_bind. split; reflexivity.
Qed.

(** X7. A refused login.  When the account is created and the token
    request is answered with a status outside 200-299, the call throws the
    "login failed" error; the token request carried the credentials of the
    created account, and the account-metadata endpoint is never
    contacted. *)
Theorem createRealAccount_login_refused u d env h t1 dom t2 st t3 tokenRes :
  resolveDomain d env h = (t1, Ok dom) ->
  createAccount (truthyStr u) u dom env (h ++ t1) = (t2, Ok st) ->
  smartFetch tokenUrl (postCredentials (cr_address st) (cr_password st)) env
    ((h ++ t1) ++ t2) = (t3, Ok tokenRes) ->
  ok tokenRes = false ->
  let run := createRealAccount u d env h in
  outcome run = Throw (Error loginFailedMessage)
  /\ In (EvFetch tokenUrl (postCredentials (cr_address st) (cr_password st)))
        (events run)
  /\ count isMeRequest (events run) = 0%nat.
Proof.
  intros Hr Hc Ht Hok run. subst run.
  destruct (createRealAccount_created u d env h t1 dom t2 st Hr Hc) as (Ho & He).
  assert (Hlo : outcome (login (cr_address st) (cr_password st) env ((h ++ t1) ++ t2))
                = Throw (Error loginFailedMessage)).
  { rewrite login_outcome, Ht. cbn [outcome snd]. now rewrite Hok. }
  rewrite Hlo in Ho, He. rewrite login_events, Ht in He. cbn [events fst] in He.
  split; [now rewrite createRealAccount_outcome|].
  rewrite createRealAccount_events, He, Ho.
  destruct (smartFetch_first tokenUrl (postCredentials (cr_address st) (cr_password st))
              env ((h ++ t1) ++ t2)) as (rest & Hfirst).
  rewrite Ht in Hfirst. cbn [events fst] in Hfirst. split.
  - rewrite Hfirst. apply in_or_app. left.
    apply in_or_app. right. apply in_or_app. right.
    apply in_or_app. left. left. reflexivity.
  - rewrite !count_app, count_cons, !count_nil.
    pose proof (resolveDomain_untouched isMeRequest d env h quiet_isMeRequest) as H1.
    rewrite Hr in H1. cbn [events fst] in H1. rewrite H1 by reflexivity.
    pose proof (createAccount_events (truthyStr u) u dom env (h ++ t1)) as H2.
    rewrite Hc in H2. cbn [events fst] in H2. rewrite H2.
    pose proof (createLoop_count isMeRequest (truthyStr u) u dom false
                  (maxRetries (truthyStr u)) initialCreation env (h ++ t1)
                  quiet_isMeRequest) as H3.
    cbv beta iota in H3.
    pose proof (smartFetch_count_quiet isMeRequest tokenUrl
                  (postCredentials (cr_address st) (cr_password st)) env
                  ((h ++ t1) ++ t2) quiet_isMeRequest) as H4.
    rewrite Ht in H4. cbn [events fst] in H4. rewrite H4.
    specialize (H3 (fun _ => eq_refl)). cbn. lia.
Qed.

Lemma createRealAccount_login_refused_witness :
  outcome (createRealAccount (Some "alice") (Some "x.com") (loginRefusedEnv 401) [])
  = Throw (Error loginFailedMessage)
  /\ count isMeRequest
       (events (createRealAccount (Some "alice") (Some "x.com") (loginRefusedEnv 401) []))
     = 0%nat.
Proof.
  edestruct (createRealAccount_login_refused (Some "alice") (Some "x.com")
               (loginRefusedEnv 401) []) as (Ho & _ & Hme).
  1-3: lazy; reflexivity.
  - reflexivity.
  - split; [exact Ho | exact Hme].
Defined.

(** Random mode, [k] attempts answered 422 and the next one answered in
    200-299: the loop stops there with the credentials of that attempt. *)
Lemma createLoop_success_at u dom k : forall n st env h s,
  (k < n)%nat ->
  (forall j, (j < k)%nat -> attemptStatus env u dom h j = Some 422%Z) ->
  attemptStatus env u dom h k = Some s ->
  is2xx s = true ->
  exists a,
    outcome (createAttempt false u dom env (attemptStart env u dom h k)) = Ok a
    /\ outcome (createLoop false u dom n st env h)
       = Ok {| cr_address := att_address a; cr_password := att_password a;
               cr_accountCreated := true |}
    /\ count isCreateRequest (events (createLoop false u dom n st env h)) = S k.
Proof.
  induction k as [|k IH]; intros n st env h s Hlt Hprev Hk H2;
    (destruct n as [|n]; [lia|]).
  - destruct (attemptStatus_0 env u dom h s Hk) as (a & Ha & Hst).
    exists a. split; [exact Ha|].
    destruct (createLoop_created false u dom n st env h a Ha) as (-> & ->).
    + unfold ok. rewrite Hst. exact H2.
    + split; [reflexivity|].
      apply (createAttempt_count isCreateRequest false u dom env h true);
        [exact quiet_isCreateRequest | reflexivity].
  - destruct (attemptStatus_0 env u dom h 422) as (a0 & Ha0 & Hst0).
    { apply Hprev. lia. }
    destruct (createLoop_collision u dom n st env h a0 Ha0 (ok_422 _ Hst0) Hst0)
      as (-> & ->).
    match goal with |- context [createLoop false u dom n ?s0 env ?h'] =>
      destruct (IH n s0 env h' s) as (a & Ha & Ho & Hn) end; auto.
    { lia. }
    { intros j Hj. apply (Hprev (S j)). lia. }
    exists a. split; [exact Ha|]. split; [exact Ho|].
    rewrite !count_app, warnAfter_count, Hn by exact quiet_isCreateRequest.
    rewrite (createAttempt_count isCreateRequest false u dom env h true);
      [lia | exact quiet_isCreateRequest | reflexivity].
Qed.

(** X8. Random mode stops at the first success.  Once the domain is
    resolved, if the first [k] attempts are answered 422 and the next one
    is answered in 200-299, the call issues exactly [k + 1] creation
    requests and then exactly one token request, which carries the address
    and password of that last attempt. *)
Theorem createRealAccount_first_success u d env h t0 dom k s :
  truthyStr u = false ->
  resolveDomain d env h = (t0, Ok dom) ->
  (k < 5)%nat ->
  (forall j, (j < k)%nat -> attemptStatus env u dom (h ++ t0) j = Some 422%Z) ->
  attemptStatus env u dom (h ++ t0) k = Some s ->
  is2xx s = true ->
  let run := createRealAccount u d env h in
  exists a,
    outcome (createAttempt false u dom env (attemptStart env u dom (h ++ t0) k)) = Ok a
    /\ count isCreateRequest (events run) = S k
    /\ count isTokenRequest (events run) = 1%nat
    /\ In (EvFetch tokenUrl (postCredentials (att_address a) (att_password a)))
          (events run).
Proof.
  intros Hu Hr Hk Hprev Hs H2 run. subst run.
  destruct (createLoop_success_at u dom k 5 initialCreation env (h ++ t0) s
              Hk Hprev Hs H2) as (a & Ha & Hloop & Hn).
  exists a. split; [exact Ha|].
  rewrite createRealAccount_create_count, Hr, Hu. cbn [maxRetries].
  split; [exact Hn|].
  set (st := {| cr_address := att_address a; cr_password := att_password a;
                cr_accountCreated := true |}).
  assert (Hc : createAccount (truthyStr u) u dom env (h ++ t0)
               = (events (createAccount false u dom env (h ++ t0)), Ok st)).
  { rewrite Hu. rewrite (surjective_run (createAccount false u dom env (h ++ t0))) at 1.
    rewrite createAccount_outcome. cbn [maxRetries]. rewrite Hloop. reflexivity. }
  destruct (createRealAccount_created u d env h t0 dom _ st Hr Hc) as (_ & He).
  rewrite createRealAccount_events, He.
  set (h2 := (h ++ t0) ++ _) in *.
  set (lg := login (cr_address st) (cr_password st) env h2) in *.
  assert (Hq := quiet_isTokenRequest).
  split.
  - rewrite !count_app.
    pose proof (resolveDomain_untouched isTokenRequest d env h Hq) as H1.
    rewrite Hr in H1. cbn [events fst] in H1. rewrite H1 by reflexivity.
    rewrite createAccount_events.
    pose proof (createLoop_count isTokenRequest false u dom false
                  (maxRetries false) initialCreation env (h ++ t0) Hq
                  (fun _ => eq_refl)) as H3.
    cbv beta iota in H3.
    assert (Hlg : count isTokenRequest (events lg) = 1%nat).
    { subst lg. rewrite login_events.
      now rewrite (smartFetch_count_quiet isTokenRequest) by exact Hq. }
    rewrite Hlg.
    destruct (outcome lg) as [tok|e];
      [rewrite finishSession_count by (exact Hq || reflexivity) | rewrite count_nil];
      destruct (outcome (provision u d env h));
      rewrite ?count_cons, ?count_nil; cbn [isTokenRequest isFetchOf]; lia.
  - destruct (smartFetch_first tokenUrl (postCredentials (cr_address st) (cr_password st))
                env h2) as (rest & Hfirst).
    subst lg. rewrite login_events, Hfirst.
    apply in_or_app. left.
    apply in_or_app. right. apply in_or_app. right.
    apply in_or_app. left. left. reflexivity.
Qed.

Lemma createRealAccount_first_success_witness :
  count isCreateRequest
    (events (createRealAccount None (Some "x.com") (collisionsThenProviderEnv 2) []))
  = 3%nat
  /\ count isTokenRequest
       (events (createRealAccount None (Some "x.com") (collisionsThenProviderEnv 2) []))
     = 1%nat.
Proof.
  destruct (createRealAccount_first_success None (Some "x.com")
              (collisionsThenProviderEnv 2) [] [] (Some (JStr "x.com")) 2 201)
    as (a & _ & Hc & Ht & _).
  - reflexivity.
  - reflexivity.
  - lia.
  - intros j Hj. destruct j as [|[|j]]; try lia; vm_compute; reflexivity.
  - vm_compute. reflexivity.
  - reflexivity.
  - split; [exact Hc | exact Ht].
Defined.

Lemma smartFetch_split url options env h :
  exists rest,
    events (smartFetch url options env h) = EvFetch url options :: rest
    /\ forall q, quiet q -> count q rest = 0%nat.
Proof.
  destruct (smartFetch_cases url options env h)
    as [(res & _ & _ & ->) | (_ & ->)]; eexists; (split; [reflexivity|]).
  - reflexivity.
  - intros q (Hnow & _ & _ & Hp). now rewrite !count_cons, Hnow, Hp.
Qed.

Lemma createAttempt_shape c u dom env h a :
  outcome (createAttempt c u dom env h) = Ok a ->
  exists l rest,
    events (createAttempt c u dom env h)
    = l ++ EvFetch accountsUrl (postCredentials (att_address a) (att_password a))
           :: rest
    /\ count isCreateRequest rest = 0%nat.
Proof.
  unfold createAttempt.
  assert (Huser : exists user n,
    (if c then ret (strOrUndefined u) else randomString 10) env h
    = (repeat EvRandom n, Ok user)).
  { destruct c.
    - exists (strOrUndefined u), 0%nat. reflexivity.
    - destruct (randomString_spec 10 env h) as (s & Hr & _). exists s, 10%nat. auto. }
  destruct Huser as (user & n & Hu).
  rewrite outcome_bind, events_bind, Hu. cbn [outcome events fst snd].
  set (h1 := h ++ repeat EvRandom n).
  destruct (randomString_spec 12 env h1) as (pw & Hp & _).
  rewrite outcome_bind, events_bind, Hp. cbn [outcome events fst snd].
  rewrite outcome_bind, events_bind.
  set (init := postCredentials (user ^^ "@" ^^ toString dom) pw).
  destruct (smartFetch_split accountsUrl init env (h1 ++ repeat EvRandom 12))
    as (rest & Hev & Hrest).
  destruct (outcome (smartFetch accountsUrl init env _)) as [res|e];
    [|discriminate].
  intros [= <-]. cbn [att_address att_password events ret fst].
  exists (repeat EvRandom n ++ repeat EvRandom 12), rest.
  rewrite Hev, app_nil_r, <- app_assoc.
  split; [reflexivity | apply Hrest, quiet_isCreateRequest].
Qed.

Lemma createLoop_last_request c u dom n : forall st env h st',
  outcome (createLoop c u dom n st env h) = Ok st' ->
  cr_accountCreated st = false ->
  cr_accountCreated st' = true ->
  exists l rest,
    events (createLoop c u dom n st env h)
    = l ++ EvFetch accountsUrl (postCredentials (cr_address st') (cr_password st'))
           :: rest
    /\ count isCreateRequest rest = 0%nat.
Proof.
  induction n as [|n IH]; intros st env h st' Ho Hf Ht.
  - cbn in Ho. injection Ho as <-. congruence.
  - destruct (outcome (createAttempt c u dom env h)) as [a|e] eqn:Ha.
    + destruct (ok (att_response a)) eqn:Hok.
      * destruct (createLoop_created c u dom n st env h a Ha Hok) as (He & Ho').
        rewrite Ho' in Ho. injection Ho as <-. rewrite He.
        now apply createAttempt_shape.
      * destruct (Z.eq_dec (status (att_response a)) 422) as [Hst|Hst].
        -- destruct c.
           ++ destruct (createLoop_unavailable u dom n st env h a Ha Hok Hst)
                as (_ & Ho'). congruence.
           ++ destruct (createLoop_collision u dom n st env h a Ha Hok Hst)
                as (He & Ho').
              rewrite Ho' in Ho.
              match type of Ho with outcome (createLoop _ _ _ _ ?s0 _ ?h') = _ =>
                destruct (IH s0 env h' st' Ho Hf Ht) as (l & rest & Hev & Hrest) end.
              exists (events (createAttempt false u dom env h)
                      ++ warnAfter (createAttempt false u dom env h) ++ l), rest.
              rewrite He, Hev, <- !app_assoc. split; [reflexivity | exact Hrest].
        -- destruct (createLoop_failed c u dom n st env h a Ha Hok Hst) as (_ & Ho').
           congruence.
    + destruct (createLoop_throw c u dom n st env h e Ha) as (_ & Ho'). congruence.
Qed.

Lemma finishSession_events_first c address pw tok env h :
  exists rest,
    events (finishSession c address pw tok env h) = EvFetch meUrl (bearer tok) :: rest
    /\ count isCreateRequest rest = 0%nat.
Proof.
  unfold finishSession. rewrite events_bind.
  destruct (smartFetch_split meUrl (bearer tok) env h) as (rest & -> & Hrest).
  eexists. split; [reflexivity|].
  rewrite count_app, Hrest by exact quiet_isCreateRequest.
  destruct (outcome (smartFetch _ _ _ _)) as [res|e]; [|reflexivity].
  unfold json, bind, liftR, ret, throw, dateNow.
  destruct (payload res) as [data|]; [|reflexivity].
  destruct (getProp data "id"); reflexivity.
Qed.

(** X9. The session matches what was registered.  In the trace of a call
    that returns a session, the last creation request registered exactly
    the session's [emailAddress] and [password]; it is followed by a token
    request with the same credentials, and then by the account-metadata
    request carrying the session's [token] as bearer. *)
Theorem createRealAccount_session_credentials u d env h t s :
  createRealAccount u d env h = (t, Ok s) ->
  exists l1 l2 l3 l4,
    t = l1 ++ EvFetch accountsUrl (postCredentials (emailAddress s) (password s))
        :: l2 ++ EvFetch tokenUrl (postCredentials (emailAddress s) (password s))
        :: l3 ++ EvFetch meUrl (bearer (token s)) :: l4
    /\ count isCreateRequest l2 = 0%nat
    /\ count isCreateRequest l3 = 0%nat
    /\ count isCreateRequest l4 = 0%nat.
Proof.
  intros Hrun.
  assert (Ht : t = events (provision u d env h)).
  { pose proof (createRealAccount_events u d env h) as He.
    pose proof (createRealAccount_outcome u d env h) as Ho.
    rewrite Hrun in He, Ho. cbn [events outcome fst snd] in He, Ho.
    rewrite <- Ho in He. now rewrite app_nil_r in He. }
  apply createRealAccount_returns in Hrun as (t' & Hrun).
  rewrite Hrun in Ht. cbn [events fst] in Ht. subst t'.
  unfold provision, provisionWith in Hrun.
  apply bind_inv in Hrun as [(t1 & dom & tA & Hr & Hrun & ->) | (e & _ & [=])].
  apply bind_inv in Hrun as [(t2 & st & tB & Hc & Hrun & ->) | (e & _ & [=])].
  apply bind_inv in Hrun as [(t3 & tok & t4 & Hl & Hfin & ->) | (e & _ & [=])].
  pose proof (finishSession_returns _ _ _ _ _ _ _ _ Hfin) as (Ha & Hp & Htok & _).
  (* the creation request *)
  pose proof (createAccount_events (truthyStr u) u dom env (h ++ t1)) as He2.
  pose proof (createAccount_outcome (truthyStr u) u dom env (h ++ t1)) as Ho2.
  rewrite Hc in He2, Ho2. cbn [events outcome fst snd] in He2, Ho2.
  destruct (outcome (createLoop _ _ _ _ _ _ _)) as [st0|e] eqn:Hloop; [|discriminate].
  destruct (cr_accountCreated st0) eqn:Hcreated; [|discriminate].
  injection Ho2 as ->.
  destruct (createLoop_last_request _ _ _ _ _ _ _ st0 Hloop eq_refl Hcreated)
    as (l & l2 & Hev & Hl2).
  (* the token request *)
  destruct (smartFetch_split tokenUrl (postCredentials (cr_address st0) (cr_password st0))
              env ((h ++ t1) ++ t2)) as (l3 & Hev3 & Hl3).
  pose proof (login_events (cr_address st0) (cr_password st0) env ((h ++ t1) ++ t2))
    as He3.
  rewrite Hl, Hev3 in He3. cbn [events fst] in He3.
  (* the metadata request *)
  destruct (finishSession_events_first (truthyStr u) (cr_address st0) (cr_password st0)
              tok env (((h ++ t1) ++ t2) ++ t3)) as (l4 & Hev4 & Hl4).
  rewrite Hfin in Hev4. cbn [events fst] in Hev4.
  exists (t1 ++ l), l2, l3, l4.
  rewrite Ha, Hp, Htok, He2, Hev, He3, Hev4, <- !app_assoc.
  repeat split; auto. apply Hl3, quiet_isCreateRequest.
Qed.

Lemma createRealAccount_session_credentials_witness :
  exists s l1 l2 l3 l4,
    emailAddress s = "alice@x.com"
    /\ events (createRealAccount (Some "alice") (Some "x.com")
                 (providerEnv 200 (Some account42)) [])
       = l1 ++ EvFetch accountsUrl (postCredentials (emailAddress s) (password s))
         :: l2 ++ EvFetch tokenUrl (postCredentials (emailAddress s) (password s))
         :: l3 ++ EvFetch meUrl (bearer (token s)) :: l4.
Proof.
  destruct (createRealAccount (Some "alice") (Some "x.com")
              (providerEnv 200 (Some account42)) []) as [t [s|e]] eqn:Hrun;
    [|vm_compute in Hrun; discriminate Hrun].
  destruct (createRealAccount_session_credentials _ _ _ _ _ _ Hrun)
    as (l1 & l2 & l3 & l4 & Ht & _).
  exists s, l1, l2, l3, l4. split; [|exact Ht].
  vm_compute in Hrun. injection Hrun as _ <-. reflexivity.
Defined.

(** *** Listing messages *)

Lemma fetchMessages_outcome tok env h :
  outcome (fetchMessages tok env h)
  = match outcome (smartFetch messagesUrl (bearer (Some (JStr tok))) env h) with
    | Throw _ => Ok []
    | Ok res =>
        if ok res then
          match payload res with
          | None => Ok []
          | Some data =>
              match mapMembers data with
              | Ok msgs => Ok msgs
              | Throw _ => Ok []
              end
          end
        else Ok []
    end.
Proof.
  unfold fetchMessages. rewrite outcome_tryCatch, outcome_bind.
  destruct (outcome (smartFetch _ _ _ _)) as [res|e]; [|reflexivity].
  destruct (ok res); [|reflexivity]. cbn [negb].
  unfold json. rewrite outcome_bind.
  destruct (payload res) as [data|]; [|reflexivity].
  cbn [outcome events ret fst snd]. unfold liftR. cbn [outcome snd].
  destruct (mapMembers data); reflexivity.
Qed.

Lemma mapResult_throw {A B} (f : A -> Result B) l x e :
  In x l -> f x = Throw e -> exists e', mapResult f l = Throw e'.
Proof.
  induction l as [|y rest IH]; intros Hin Hx; [contradiction|].
  simpl. destruct Hin as [-> | Hin].
  - rewrite Hx. eauto.
  - destruct (f y); [|eauto].
    destruct (IH Hin Hx) as (e' & ->). eauto.
Qed.

Lemma mapResult_map {A B} (f : A -> Result B) l ys :
  mapResult f l = Ok ys -> Forall2 (fun x y => f x = Ok y) l ys.
Proof.
  revert ys. induction l as [|x rest IH]; intros ys; simpl.
  - intros [= <-]. constructor.
  - destruct (f x) as [y|e] eqn:Hx; [|discriminate].
    destruct (mapResult f rest) as [ys'|e]; [|discriminate].
    intros [= <-]. constructor; auto.
Qed.

(** X10. [fetchMessages] never throws and degrades to the empty list: when
    the request fails on both routes, when the status is outside 200-299,
    when the body does not parse, and also when a single listed message
    cannot be converted (here: it has no [from]), in which case the
    well-formed messages of the same page are dropped with it. *)
Theorem fetchMessages_degrades tok env h :
  let fetched := smartFetch messagesUrl (bearer (Some (JStr tok))) env h in
  (exists msgs, outcome (fetchMessages tok env h) = Ok msgs)
  /\ ((exists e, outcome fetched = Throw e) -> outcome (fetchMessages tok env h) = Ok [])
  /\ (forall res,
        outcome fetched = Ok res ->
        ok res = false \/ payload res = None ->
        outcome (fetchMessages tok env h) = Ok [])
  /\ (forall res data members m,
        outcome fetched = Ok res -> payload res = Some data ->
        propOf data "hydra:member" = Some (JArr members) ->
        In m members -> propOf m "from" = None ->
        outcome (fetchMessages tok env h) = Ok []).
Proof.
  intros fetched. subst fetched. rewrite fetchMessages_outcome.
  split; [|split; [|split]].
  - destruct (outcome (smartFetch _ _ _ _)) as [res|e]; [|eauto].
    destruct (ok res); [|eauto].
    destruct (payload res) as [data|]; [|eauto].
    destruct (mapMembers data); eauto.
  - intros (e & ->). reflexivity.
  - intros res -> [-> | Hp]; [reflexivity|].
    rewrite Hp. now destruct (ok res).
  - intros res data members m -> -> Hmem Hin Hfrom.
    destruct (ok res); [|reflexivity].
    assert (Hthrow : exists e, mapMembers data = Throw e).
    { unfold mapMembers. unfold propOf in Hmem.
      destruct (getProp data "hydra:member") as [v|e]; [|discriminate].
      subst v.
      assert (Hm : exists e, toEmailMessage m = Throw e).
      { unfold toEmailMessage. unfold propOf in Hfrom.
        destruct m; cbn [getProp] in *; rewrite ?Hfrom; eexists; reflexivity. }
      destruct Hm as (e & Hm).
      apply (mapResult_throw toEmailMessage members m e Hin Hm). }
    destruct Hthrow as (e & ->). reflexivity.
Qed.

Lemma fetchMessages_degrades_witness :
  outcome (fetchMessages "secret" offlineEnv []) = Ok []
  /\ outcome (fetchMessages "secret" (uniformEnv 401 None) []) = Ok []
  /\ outcome (fetchMessages "secret"
                (uniformEnv 200
                   (Some (inbox [listedMessage "m1" "Ann" "ann@a.com" "Hi"; brokenMessage])))
                []) = Ok [].
Proof.
  split; [|split].
  - apply (fetchMessages_degrades "secret" offlineEnv []).
    eexists. reflexivity.
  - apply (fetchMessages_degrades "secret" (uniformEnv 401 None) [])
      with (res := respond 401 None); [reflexivity | now left].
  - eapply (fetchMessages_degrades "secret" _ []).
    + reflexivity.
    + reflexivity.
    + reflexivity.
    + right. left. reflexivity.
    + reflexivity.
Defined.

Lemma getProp_propOf j k : j <> JNull -> getProp j k = Ok (propOf j k).
Proof.
  intros Hj. unfold propOf. destruct (getProp_not_null j k Hj) as (v & ->).
  reflexivity.
Qed.

Lemma toEmailMessage_summarises m em :
  toEmailMessage m = Ok em -> summarises m em.
Proof.
  unfold toEmailMessage, summarises.
  destruct (getProp m "id") as [id|e] eqn:Hid; [|discriminate].
  assert (Hm : m <> JNull) by (intros ->; discriminate Hid).
  rewrite (getProp_propOf m "id" Hm) in Hid. injection Hid as <-.
  rewrite !(getProp_propOf m _ Hm).
  destruct (propOf m "from") as [from|]; [|discriminate].
  destruct (getPropAny (Some from) "name") as [name|e] eqn:Hname; [|discriminate].
  assert (Hf : from <> JNull) by (intros ->; discriminate Hname).
  cbn [getPropAny propOfAny] in *.
  rewrite (getProp_propOf from "name" Hf) in Hname. injection Hname as <-.
  rewrite (getProp_propOf from "address" Hf).
  destruct (truthy (propOf from "name")).
  - intros [= <-]. cbn. repeat split.
  - destruct (localPart (propOf from "address")) as [sender|e] eqn:Hl; [|discriminate].
    intros [= <-]. cbn. repeat split.
    destruct (propOf from "address") as [[| | | s | |]|]; try discriminate.
    injection Hl as <-. now exists s.
Qed.

(** X11. A non-empty listing mirrors the provider's page.  When
    [fetchMessages] returns messages, the response was in 200-299 and its
    [hydra:member] is an array with one entry per returned message, in the
    same order; each summary takes [id], [subject], sender address, read
    flag and date from its entry, shows the [intro] as preview (or
    ["No preview available"]), is marked as not having full details, and
    names the sender by [from.name], or by the part of [from.address]
    before the first [@] when the name is empty. *)
Theorem fetchMessages_summaries tok env h msgs :
  outcome (fetchMessages tok env h) = Ok msgs ->
  msgs <> [] ->
  exists res data members,
    outcome (smartFetch messagesUrl (bearer (Some (JStr tok))) env h) = Ok res
    /\ ok res = true
    /\ payload res = Some data
    /\ propOf data "hydra:member" = Some (JArr members)
    /\ Forall2 summarises members msgs.
Proof.
  rewrite fetchMessages_outcome. intros Ho Hne.
  destruct (outcome (smartFetch _ _ _ _)) as [res|e]; [|congruence].
  destruct (ok res) eqn:Hok; [|congruence].
  destruct (payload res) as [data|] eqn:Hp; [|congruence].
  destruct (mapMembers data) as [l|e] eqn:Hm; [|congruence].
  injection Ho as ->.
  unfold mapMembers in Hm.
  destruct (getProp data "hydra:member") as [[[| | | | members |]|]|e] eqn:Hmem;
    try discriminate.
  exists res, data, members. repeat split; auto.
  - unfold propOf. now rewrite Hmem.
  - apply mapResult_map in Hm.
    eapply Forall2_impl; [|exact Hm].
    intros m em. apply toEmailMessage_summarises.
Qed.

Lemma fetchMessages_summaries_witness :
  exists msgs members,
    outcome (fetchMessages "secret"
               (uniformEnv 200
                  (Some (inbox [listedMessage "m1" "" "ann@a.com" "Hi";
                                listedMessage "m2" "Bob" "bob@b.org" ""]))) [])
    = Ok msgs
    /\ Forall2 summarises members msgs
    /\ map msg_sender msgs = [Some (JStr "ann"); Some (JStr "Bob")]
    /\ map msg_preview msgs
       = [Some (JStr "Hi"); Some (JStr "No preview available")].
Proof.
  destruct (fetchMessages "secret"
              (uniformEnv 200
                 (Some (inbox [listedMessage "m1" "" "ann@a.com" "Hi";
                               listedMessage "m2" "Bob" "bob@b.org" ""]))) [])
    as [t [msgs|e]] eqn:Hrun; [|vm_compute in Hrun; discriminate Hrun].
  assert (Hm : msgs <> []).
  { vm_compute in Hrun. injection Hrun as _ <-. discriminate. }
  destruct (fetchMessages_summaries "secret"
              (uniformEnv 200
                 (Some (inbox [listedMessage "m1" "" "ann@a.com" "Hi";
                               listedMessage "m2" "Bob" "bob@b.org" ""]))) [] msgs)
    as (res & data & members & H).
  - now rewrite Hrun.
  - exact Hm.
  - exists msgs, members. split; [reflexivity|].
    destruct H as (_ & _ & _ & _ & HF). split; [exact HF|].
    vm_compute in Hrun. injection Hrun as _ <-. split; reflexivity.
Defined.

(** ** The application shell *)

Lemma twoDigits n :
  (n < 60)%nat ->
  exists d1 d2,
    (if (Z.of_nat n <? 10)%Z then "0" else EmptyString) ^^ showZ (Z.of_nat n)
    = String d1 (String d2 EmptyString)
    /\ isDigit d1 = true /\ isDigit d2 = true
    /\ (10 * digitValue d1 + digitValue d2 = Z.of_nat n)%Z.
Proof.
  intros Hn.
  do 60 (destruct n as [|n]; [do 2 eexists; repeat split; reflexivity|]).
  lia.
Qed.

Lemma roundHalfEven_bounds x y :
  (0 < y)%Z -> (x / y <= roundHalfEven x y <= x / y + 1)%Z.
Proof.
  intros Hy. unfold roundHalfEven.
  destruct (2 * (x mod y) <? y)%Z; [lia|].
  destruct (y <? 2 * (x mod y))%Z; [lia|].
  destruct (Z.even (x / y)); lia.
Qed.

Lemma roundHalfEven_up x y :
  (0 < y)%Z -> (roundHalfEven x y = x / y + 1)%Z -> (y <= 2 * (x mod y))%Z.
Proof.
  intros Hy. unfold roundHalfEven.
  destruct (2 * (x mod y) <? y)%Z eqn:H1; [lia|].
  apply Z.ltb_ge in H1. lia.
Qed.

Lemma binade_le a b : (binade a b <= Z.log2 a - Z.log2 b)%Z.
Proof. unfold binade. destruct (_ <? _)%Z; lia. Qed.

(** Below [2^53] the rounding of the quotient never reaches the next
    integer: flooring the double quotient is integer division. *)
Lemma floorQuotient_exact a b :
  (0 <= a < 2 ^ 53)%Z -> (0 < b)%Z -> floorQuotient a b = (a / b)%Z.
Proof.
  intros Ha Hb. unfold floorQuotient.
  destruct (a =? 0)%Z eqn:H0.
  - apply Z.eqb_eq in H0. subst a. reflexivity.
  - apply Z.eqb_neq in H0.
    rewrite Z.abs_eq, Z.sgn_pos by lia.
    set (s := (52 - binade a b)%Z).
    assert (Hla : (Z.log2 a < 53)%Z) by (apply Z.log2_lt_pow2; lia).
    pose proof (binade_le a b) as He.
    pose proof (Z.log2_nonneg b) as Hlb0.
    assert (Hs : (Z.log2 b <= s)%Z) by (subst s; lia).
    unfold pow2. rewrite (Z.max_r 0 s), (Z.max_l 0 (- s)) by lia.
    change (2 ^ 0)%Z with 1%Z. rewrite !Z.mul_1_r, Z.mul_1_l.
    set (P := (2 ^ s)%Z).
    assert (HP : (b < 2 * P)%Z).
    { subst P. destruct (Z.log2_spec b Hb) as (_ & Hlt).
      rewrite <- Z.pow_succ_r by lia.
      eapply Z.lt_le_trans; [exact Hlt|].
      apply Z.pow_le_mono_r; lia. }
    assert (HP0 : (0 < P)%Z) by (subst P; apply Z.pow_pos_nonneg; lia).
    pose proof (roundHalfEven_bounds (a * P) b Hb) as Hm.
    pose proof (roundHalfEven_up (a * P) b Hb) as Hup.
    set (m := roundHalfEven (a * P) b) in *.
    pose proof (Z.div_mod a b ltac:(lia)) as Hab.
    pose proof (Z.mod_pos_bound a b Hb) as Hr.
    pose proof (Z.div_mod (a * P) b ltac:(lia)) as HX.
    pose proof (Z.mod_pos_bound (a * P) b Hb) as Ht.
    set (n := (a / b)%Z) in *. set (r := (a mod b)%Z) in *.
    set (f := (a * P / b)%Z) in *. set (t := ((a * P) mod b)%Z) in *.
    symmetry. apply Z.div_unique with (r := (m - n * P)%Z); [|lia].
    left.
    assert (Hf1 : (n * P <= f)%Z).
    { subst f. apply Z.div_le_lower_bound; [lia|]. rewrite Hab. nia. }
    assert (Hf2 : (f <= n * P + P - 1)%Z).
    { assert (f < n * P + P)%Z; [|lia].
      subst f. apply Z.div_lt_upper_bound; [lia|]. rewrite Hab. nia. }
    split; [lia|].
    destruct (Z.eq_dec m (f + 1)) as [Hmf|Hmf]; [|lia].
    specialize (Hup Hmf).
    destruct (Z.eq_dec f (n * P + P - 1)) as [Hff|Hff]; [|lia].
    exfalso.
    assert (Heq : ((b * n + r) * P = b * (n * P + P - 1) + t)%Z)
      by (rewrite <- Hab, <- Hff; exact HX).
    assert (t = b - (b - r) * P)%Z by lia.
    nia.
Qed.

(** X12. [formatTime] on a number of milliseconds from 0 up to [2^53]
    prints the minutes in decimal, a colon, and exactly two digits for the
    seconds; the seconds are below 60, and minutes and seconds together are
    the whole seconds of the input.  In that range the rounding of the two
    divisions does not show. *)
Theorem formatTime_shape ms :
  (0 <= ms < 2 ^ 53)%Z ->
  exists d1 d2,
    formatTime ms = showZ (ms / 60000) ^^ ":" ^^ String d1 (String d2 EmptyString)
    /\ isDigit d1 = true /\ isDigit d2 = true
    /\ (10 * digitValue d1 + digitValue d2 < 60)%Z
    /\ (60 * (ms / 60000) + (10 * digitValue d1 + digitValue d2) = ms / 1000)%Z.
Proof.
  intros Hms. unfold formatTime.
  rewrite Z.rem_mod_nonneg by lia.
  pose proof (Z.mod_pos_bound ms 60000 ltac:(lia)) as Hb.
  rewrite !floorQuotient_exact by lia.
  set (s := (ms mod 60000 / 1000)%Z).
  assert (Hs : (0 <= s < 60)%Z).
  { subst s. split; [apply Z.div_pos; lia | apply Z.div_lt_upper_bound; lia]. }
  destruct (twoDigits (Z.to_nat s)) as (d1 & d2 & Htxt & H1 & H2 & Hval); [lia|].
  rewrite Z2Nat.id in Htxt, Hval by lia.
  exists d1, d2. rewrite Htxt. repeat split; auto; try lia.
  rewrite Hval. subst s.
  pose proof (Z.div_mod ms 60000 ltac:(lia)) as Hdm.
  rewrite Hdm at 3.
  replace (60000 * (ms / 60000))%Z with ((60 * (ms / 60000)) * 1000)%Z by lia.
  rewrite Z.div_add_l by lia. reflexivity.
Qed.

Lemma formatTime_shape_witness :
  formatTime 600000 = "10:00" /\ formatTime 61999 = "1:01" /\ formatTime 0 = "0:00".
Proof.
  destruct (formatTime_shape 600000 ltac:(lia)) as (d1 & d2 & H & _).
  repeat split; reflexivity.
Defined.

(** Beyond [2^53] the rounding shows: the exact quotient of [2^70] by
    60000 lies between 19676527011956855 and 19676527011956856, and the
    minutes printed are the latter. *)
Example formatTime_rounds :
  formatTime (2 ^ 70) = "19676527011956856:03"
  /\ (2 ^ 70 / 60000 = 19676527011956855)%Z.
Proof. split; reflexivity. Qed.

Lemma handleCreateSession_outcome st env h :
  outcome (handleCreateSession st env h)
  = Ok (setIsRefreshing false
          match outcome (createRealAccount None None env h) with
          | Ok s => newSessionState s (setError None (setIsRefreshing true st))
          | Throw e =>
              setError (Some (messageOr e createFailedFallback))
                (setError None (setIsRefreshing true st))
          end).
Proof.
  unfold handleCreateSession.
  rewrite outcome_bind, outcome_tryCatch, outcome_bind.
  destruct (outcome (createRealAccount None None env h)); reflexivity.
Qed.

Lemma handlePremiumCreate_outcome username domain st env h :
  outcome (handlePremiumCreate username domain st env h)
  = match outcome (createRealAccount (Some username) (Some domain) env h) with
    | Ok s => Ok (newSessionState s st)
    | Throw e => Throw e
    end.
Proof.
  unfold handlePremiumCreate. rewrite outcome_bind.
  destruct (outcome (createRealAccount _ _ env h)); reflexivity.
Qed.

Lemma extendSession_run st env h :
  extendSession st env h
  = match session st with
    | None => ([], Ok st)
    | Some s =>
        if isPremium s then ([], Ok st)
        else ([EvNow],
              Ok (setTimeLeft SESSION_DURATION_MS
                    (setSession
                       (Some (withExpiry s (Some (clock env h + SESSION_DURATION_MS)%Z)))
                       st)))
    end.
Proof.
  unfold extendSession. destruct (session st) as [s|]; [|reflexivity].
  destruct (isPremium s); reflexivity.
Qed.

Lemma countdownTick_run s st env h :
  countdownTick s st env h
  = match expiresAt s with
    | None => ([], Ok (st, false))
    | Some expires =>
        ([EvNow],
         Ok (setTimeLeft (Z.max 0 (expires - clock env h)) st,
             (expires - clock env h <=? 0)%Z))
    end.
Proof.
  unfold countdownTick. destruct (expiresAt s) as [expires|]; [|reflexivity].
  unfold bind, dateNow, ret. cbn.
  destruct (expires - clock env h <=? 0)%Z eqn:Hle.
  - apply Z.leb_le in Hle. now rewrite Z.max_l by lia.
  - apply Z.leb_gt in Hle. now rewrite Z.max_r by lia.
Qed.

Lemma pollEmails_outcome st env h :
  outcome (pollEmails st env h)
  = Ok match sessionToken st with
       | None => st
       | Some tok =>
           match outcome (fetchMessages (toString tok) env h) with
           | Ok newMessages => setEmails (mergePoll newMessages (emails st)) st
           | Throw _ => st
           end
       end.
Proof.
  unfold pollEmails. destruct (sessionToken st) as [tok|]; [|reflexivity].
  rewrite outcome_bind.
  pose proof (fetchMessages_outcome (toString tok) env h) as Ho.
  destruct (outcome (fetchMessages (toString tok) env h)) as [l|e]; [reflexivity|].
  exfalso.
  destruct (outcome (smartFetch _ _ _ _)) as [res|e']; [|discriminate].
  destruct (ok res); [|discriminate].
  destruct (payload res) as [d|]; [|discriminate].
  destruct (mapMembers d); discriminate.
Qed.

Lemma fetchBody_outcome st env h :
  exists st',
    outcome (fetchBody st env h) = Ok st'
    /\ session st' = session st /\ timeLeft st' = timeLeft st
    /\ selectedEmailId st' = selectedEmailId st
    /\ (emails st' = emails st
        \/ exists sel d,
             selectedEmailId st = Some sel
             /\ md_hasFullDetails d = true
             /\ emails st'
                = map (fun e => if hasId sel e then withDetails e d else e) (emails st)).
Proof.
  unfold fetchBody.
  destruct (selectedEmailId st) as [sel|] eqn:Hsel; [|exists st; repeat split; auto].
  destruct (sessionToken st) as [tok|]; [|exists st; repeat split; auto].
  destruct (negb (nonEmpty sel)); [exists st; repeat split; auto|].
  destruct (find (hasId sel) (emails st)) as [email|]; [|exists st; repeat split; auto].
  destruct (negb (msg_hasFullDetails email)); [|exists st; repeat split; auto].
  rewrite outcome_bind.
  destruct (fetchMessageDetails_total (toString tok) sel env h) as (r & Hr).
  rewrite Hr. destruct r as [d|]; [|exists st; repeat split; auto].
  eexists. split; [reflexivity|]. cbn. repeat split; auto.
  right. exists sel, d. repeat split; auto.
  revert Hr. unfold fetchMessageDetails. rewrite outcome_tryCatch, outcome_bind.
  destruct (outcome (smartFetch _ _ _ _)) as [res|e]; [|discriminate].
  unfold json. rewrite outcome_bind.
  destruct (payload res) as [data|]; [|discriminate].
  cbn [outcome events ret fst snd]. rewrite outcome_bind. unfold liftR.
  cbn [outcome snd].
  destruct (resolveBody data); [|discriminate].
  intros [= <-]. reflexivity.
Qed.

Lemma handleDeleteEmail_outcome id st env h :
  outcome (handleDeleteEmail id st env h)
  = Ok match sessionToken st with
       | None => (st, None)
       | Some tok =>
           let st1 := setEmails (filter (fun e => negb (hasId id e)) (emails st)) st in
           let st2 :=
             match selectedEmailId st with
             | Some sel => if String.eqb sel id then setSelectedEmailId None st1 else st1
             | None => st1
             end in
           match outcome (smartFetch (messageUrl id) (deleteInit (toString tok)) env h) with
           | Ok _ => (st2, None)
           | Throw _ => (setEmails (emails st) st2, Some deleteFailedAlert)
           end
       end.
Proof.
  unfold handleDeleteEmail. destruct (sessionToken st) as [tok|]; [|reflexivity].
  cbv zeta. rewrite outcome_bind, deleteMessage_outcome.
  destruct (outcome (smartFetch _ _ _ _)); reflexivity.
Qed.

(** X13. The time left is never negative.  Every handler that writes
    [timeLeft] leaves it at zero or above when started that way, and the
    countdown tick of a limited session sets it to the time until expiry,
    cut off at zero, clearing its interval exactly when that time is up. *)
Theorem timeLeft_never_negative st env h :
  (0 <= timeLeft st)%Z ->
  (0 <= timeLeft (fst (countdownStart st)))%Z
  /\ (forall s st' cleared,
        outcome (countdownTick s st env h) = Ok (st', cleared) ->
        (0 <= timeLeft st')%Z
        /\ forall expires,
             expiresAt s = Some expires ->
             timeLeft st' = Z.max 0 (expires - clock env h)
             /\ (cleared = true <-> (expires <= clock env h)%Z))
  /\ (forall st', outcome (handleCreateSession st env h) = Ok st' ->
                  (0 <= timeLeft st')%Z)
  /\ (forall username domain st',
        outcome (handlePremiumCreate username domain st env h) = Ok st' ->
        (0 <= timeLeft st')%Z)
  /\ (forall st', outcome (extendSession st env h) = Ok st' -> (0 <= timeLeft st')%Z).
Proof.
  intros H0. split; [|split; [|split; [|split]]].
  - unfold countdownStart. destruct (session st) as [s|]; [|exact H0].
    destruct (isPremium s); cbn; [discriminate | exact H0].
  - intros s st' cleared. rewrite countdownTick_run.
    destruct (expiresAt s) as [expires|]; cbn [outcome snd]; intros [= <- <-].
    + split; [cbn; lia|]. intros e [= <-]. split; [reflexivity|].
      rewrite Z.leb_le. lia.
    + split; [exact H0|]. discriminate.
  - intros st'. rewrite handleCreateSession_outcome. intros [= <-].
    destruct (outcome (createRealAccount None None env h)); cbn; [discriminate | exact H0].
  - intros username domain st'. rewrite handlePremiumCreate_outcome.
    destruct (outcome (createRealAccount _ _ env h)); [|discriminate].
    intros [= <-]. cbn. discriminate.
  - intros st'. rewrite extendSession_run.
    destruct (session st) as [s|]; [destruct (isPremium s)|];
      cbn [outcome snd]; intros [= <-]; cbn; [exact H0 | discriminate | exact H0].
Qed.

Lemma timeLeft_never_negative_witness :
  exists st' cleared,
    outcome (countdownTick (sampleSession false) (sampleState false [] None)
               (uniformEnv 200 None) []) = Ok (st', cleared)
    /\ timeLeft st' = 600000%Z /\ cleared = false.
Proof.
  destruct (timeLeft_never_negative (sampleState false [] None) (uniformEnv 200 None) [])
    as (_ & Htick & _); [cbn; discriminate|].
  do 2 eexists. split; [reflexivity|].
  destruct (Htick (sampleSession false) _ _ eq_refl) as (_ & Hexp).
  destruct (Hexp _ eq_refl) as (Htl & _).
  split; [exact Htl | reflexivity].
Defined.

(** X14. The poll's diff.  The list kept after a poll always has as many
    messages as the new listing.  It is the previous list only when both
    have the same length and either are empty or start with strictly equal
    ids; then the previous list is kept whatever else differs below the
    first message.  Otherwise it is the new listing. *)
Theorem mergePoll_diff newMessages prevEmails :
  List.length (mergePoll newMessages prevEmails) = List.length newMessages
  /\ (mergePoll newMessages prevEmails = newMessages
      \/ mergePoll newMessages prevEmails = prevEmails)
  /\ (List.length newMessages <> List.length prevEmails ->
      mergePoll newMessages prevEmails = newMessages)
  /\ (forall n0 p0 ns ps,
        newMessages = n0 :: ns -> prevEmails = p0 :: ps ->
        List.length ns = List.length ps ->
        mergePoll newMessages prevEmails
        = if strictEq (msg_id n0) (msg_id p0) then prevEmails else newMessages).
Proof.
  unfold mergePoll.
  destruct (List.length newMessages =? List.length prevEmails)%nat eqn:Hlen.
  - apply Nat.eqb_eq in Hlen. cbn [negb].
    split; [|split; [|split]].
    + destruct newMessages as [|n0 ns], prevEmails as [|p0 ps]; try discriminate;
        try reflexivity.
      destruct (strictEq (msg_id n0) (msg_id p0)); cbn [negb]; auto.
    + destruct newMessages as [|n0 ns], prevEmails as [|p0 ps]; auto.
      destruct (strictEq (msg_id n0) (msg_id p0)); auto.
    + intros Hne. contradiction.
    + intros n0 p0 ns ps -> -> _.
      destruct (strictEq (msg_id n0) (msg_id p0)); reflexivity.
  - apply Nat.eqb_neq in Hlen. cbn [negb].
    split; [reflexivity|]. split; [now left|]. split; [reflexivity|].
    intros n0 p0 ns ps -> -> Hl. simpl in Hlen. congruence.
Qed.

Lemma mergePoll_diff_witness :
  mergePoll [summaryOf "m1" false; summaryOf "m2" false]
            [summaryOf "m1" true; summaryOf "m0" false]
  = [summaryOf "m1" true; summaryOf "m0" false]
  /\ mergePoll [summaryOf "m1" false] [] = [summaryOf "m1" false].
Proof.
  split.
  - destruct (mergePoll_diff [summaryOf "m1" false; summaryOf "m2" false]
                [summaryOf "m1" true; summaryOf "m0" false]) as (_ & _ & _ & H).
    rewrite (H _ _ _ _ eq_refl eq_refl eq_refl). reflexivity.
  - apply (mergePoll_diff [summaryOf "m1" false] []). discriminate.
Defined.

(** X15. A failed poll empties the inbox.  With a session token, when the
    listing request fails on both routes or is answered outside 200-299,
    [pollEmails] replaces a non-empty list of messages by the empty list;
    it never throws, and without a token it does nothing. *)
Theorem pollEmails_failure_clears st env h :
  (exists st', outcome (pollEmails st env h) = Ok st')
  /\ (sessionToken st = None -> pollEmails st env h = ([], Ok st))
  /\ (forall tok,
        sessionToken st = Some tok ->
        let fetched := smartFetch messagesUrl (bearer tok) env h in
        (exists e, outcome fetched = Throw e)
        \/ (exists res, outcome fetched = Ok res /\ ok res = false) ->
        emails st <> [] ->
        outcome (pollEmails st env h) = Ok (setEmails [] st)).
Proof.
  split; [|split].
  - rewrite pollEmails_outcome. eauto.
  - intros Hnone. unfold pollEmails. now rewrite Hnone.
  - intros tok Htok fetched Hfail Hne. subst fetched.
    rewrite pollEmails_outcome, Htok, fetchMessages_outcome.
    change (bearer (Some (JStr (toString tok)))) with (bearer tok).
    assert (Hmerge : mergePoll [] (emails st) = []).
    { unfold mergePoll. destruct (emails st); [contradiction | reflexivity]. }
    destruct Hfail as [(e & ->) | (res & -> & ->)]; now rewrite Hmerge.
Qed.

Lemma pollEmails_failure_clears_witness :
  outcome (pollEmails (sampleState false [summaryOf "m1" true] None) offlineEnv [])
  = Ok (sampleState false [] None).
Proof.
  destruct (pollEmails_failure_clears (sampleState false [summaryOf "m1" true] None)
              offlineEnv []) as (_ & _ & H).
  apply (H (Some (JStr "secret")) eq_refl).
  - left. eexists. reflexivity.
  - discriminate.
Defined.

Lemma hasId_withDetails sel e d : hasId sel (withDetails e d) = hasId sel e.
Proof. reflexivity. Qed.

Lemma find_map_withDetails sel d l :
  find (hasId sel) (map (fun e => if hasId sel e then withDetails e d else e) l)
  = option_map (fun e => withDetails e d) (find (hasId sel) l).
Proof.
  induction l as [|e l IH]; [reflexivity|]. simpl.
  destruct (hasId sel e) eqn:He.
  - now rewrite hasId_withDetails, He.
  - now rewrite He.
Qed.

Lemma fetchBody_selected st env h sel tok email :
  selectedEmailId st = Some sel -> nonEmpty sel = true ->
  sessionToken st = Some tok ->
  find (hasId sel) (emails st) = Some email ->
  msg_hasFullDetails email = false ->
  events (fetchBody st env h) = events (fetchMessageDetails (toString tok) sel env h)
  /\ outcome (fetchBody st env h)
     = Ok match outcome (fetchMessageDetails (toString tok) sel env h) with
          | Ok (Some d) =>
              setEmails (map (fun e => if hasId sel e then withDetails e d else e)
                           (emails st)) st
          | _ => st
          end.
Proof.
  intros Hsel Hne Htok Hfind Hfull. unfold fetchBody.
  rewrite Hsel, Htok, Hne, Hfind, Hfull. cbn [negb].
  rewrite events_bind, outcome_bind.
  destruct (fetchMessageDetails_total (toString tok) sel env h) as (r & Hr).
  rewrite Hr. destruct r as [d|]; cbn [events outcome ret fst snd];
    now rewrite app_nil_r.
Qed.

Lemma loadedAs_map sel d l :
  md_hasFullDetails d = true ->
  Forall2 (loadedAs sel d) l
    (map (fun e => if hasId sel e then withDetails e d else e) l).
Proof.
  intros Hd. induction l as [|e l IH]; [constructor|].
  cbn [map]. constructor; [|exact IH].
  unfold loadedAs. destruct (hasId sel e); [|reflexivity].
  cbn. rewrite Hd. repeat split.
Qed.

(** X16. Loading a message body.  [fetchBody] never throws and changes at
    most the list of messages; their order and ids stay, and so does every
    message that is not the selected one.  With a token, a selection and a
    listed message of that id: when the message is already fully loaded
    nothing is requested and nothing changes; otherwise the details are
    requested once, and when they arrive every message with the selected id
    gets the fetched body and [hasFullDetails = true] and keeps its other
    fields, while a [null] answer changes nothing.  After an update a
    second run makes no request and changes nothing. *)
Theorem fetchBody_once st env h :
  exists st',
    outcome (fetchBody st env h) = Ok st'
    /\ st' = setEmails (emails st') st
    /\ session st' = session st
    /\ selectedEmailId st' = selectedEmailId st
    /\ map msg_id (emails st') = map msg_id (emails st)
    /\ (forall sel e,
          selectedEmailId st = Some sel -> In e (emails st) -> hasId sel e = false ->
          In e (emails st'))
    /\ (forall sel tok email,
          selectedEmailId st = Some sel -> nonEmpty sel = true ->
          sessionToken st = Some tok ->
          find (hasId sel) (emails st) = Some email ->
          let fetched := fetchMessageDetails (toString tok) sel env h in
          (msg_hasFullDetails email = true -> fetchBody st env h = ([], Ok st))
          /\ (msg_hasFullDetails email = false ->
              events (fetchBody st env h) = events fetched
              /\ (outcome fetched = Ok None -> st' = st)
              /\ forall d,
                   outcome fetched = Ok (Some d) ->
                   Forall2 (loadedAs sel d) (emails st) (emails st')))
    /\ (emails st' <> emails st ->
        forall env' h', fetchBody st' env' h' = ([], Ok st')).
Proof.
  destruct (fetchBody_outcome st env h)
    as (st' & Ho & Hs & Htl & Hsel & Hcases).
  exists st'. split; [exact Ho|].
  assert (Hshape : st' = setEmails (emails st') st).
  { revert Ho. unfold fetchBody.
    destruct (selectedEmailId st) as [sel|]; [|now intros [= <-]; destruct st].
    destruct (sessionToken st) as [tok|]; [|now intros [= <-]; destruct st].
    destruct (negb (nonEmpty sel)); [now intros [= <-]; destruct st|].
    destruct (find (hasId sel) (emails st)) as [email|];
      [|now intros [= <-]; destruct st].
    destruct (negb (msg_hasFullDetails email)); [|now intros [= <-]; destruct st].
    rewrite outcome_bind.
    destruct (outcome (fetchMessageDetails _ _ _ _)) as [[d|]|e];
      cbn [outcome ret snd]; intros [= <-]; now destruct st. }
  split; [exact Hshape|]. split; [exact Hs|]. split; [exact Hsel|].
  assert (Hnew : forall sel tok email,
            selectedEmailId st = Some sel -> nonEmpty sel = true ->
            sessionToken st = Some tok ->
            find (hasId sel) (emails st) = Some email ->
            let fetched := fetchMessageDetails (toString tok) sel env h in
            (msg_hasFullDetails email = true -> fetchBody st env h = ([], Ok st))
            /\ (msg_hasFullDetails email = false ->
                events (fetchBody st env h) = events fetched
                /\ (outcome fetched = Ok None -> st' = st)
                /\ forall d,
                     outcome fetched = Ok (Some d) ->
                     Forall2 (loadedAs sel d) (emails st) (emails st'))).
  { intros sel tok email Hsel0 Hne Htok Hfind fetched. subst fetched. split.
    - intros Hfull. unfold fetchBody.
      now rewrite Hsel0, Htok, Hne, Hfind, Hfull.
    - intros Hfull.
      destruct (fetchBody_selected st env h sel tok email Hsel0 Hne Htok Hfind Hfull)
        as (He & Ho').
      split; [exact He|]. rewrite Ho in Ho'. split.
      + intros Hnone. rewrite Hnone in Ho'. now injection Ho' as ->.
      + intros d Hd. rewrite Hd in Ho'. injection Ho' as ->. cbn [emails setEmails].
        apply loadedAs_map.
        revert Hd. unfold fetchMessageDetails.
        rewrite outcome_tryCatch, outcome_bind.
        destruct (outcome (smartFetch _ _ _ _)) as [res|e]; [|discriminate].
        unfold json. rewrite outcome_bind.
        destruct (payload res) as [data|]; [|discriminate].
        cbn [outcome events ret fst snd]. rewrite outcome_bind. unfold liftR.
        cbn [outcome snd].
        destruct (resolveBody data); [|discriminate].
        intros [= <-]. reflexivity. }
  assert (Hlast : emails st' <> emails st ->
                  forall env' h', fetchBody st' env' h' = ([], Ok st')).
  { destruct Hcases as [He | (sel & d & Hsel' & Hfull & He)]; [congruence|].
    intros _ env' h'. unfold fetchBody.
    rewrite Hsel, Hsel'. unfold sessionToken. rewrite Hs.
    destruct (session st) as [s|]; [|reflexivity].
    destruct (truthy (token s)); [|reflexivity].
    destruct (negb (nonEmpty sel)); [reflexivity|].
    rewrite He, find_map_withDetails.
    destruct (find (hasId sel) (emails st)) as [email|]; [|reflexivity].
    cbn. rewrite Hfull. reflexivity. }
  split; [|split; [|split; [exact Hnew | exact Hlast]]].
  - destruct Hcases as [-> | (sel & d & _ & _ & ->)]; [reflexivity|].
    rewrite map_map. apply map_ext. intros e. now destruct (hasId sel e).
  - intros sel0 e Hsel0 Hin Hid.
    destruct Hcases as [-> | (sel & d & Hsel' & _ & ->)]; [exact Hin|].
    rewrite Hsel' in Hsel0. injection Hsel0 as <-.
    apply in_map_iff. exists e. now rewrite Hid.
Qed.

(** The body arrives and is not asked for twice. *)
Example fetchBody_scenario :
  exists st',
    outcome (fetchBody (sampleState false [summaryOf "m1" false; summaryOf "m2" false]
                          (Some "m1")) mailboxEnv []) = Ok st'
    /\ map msg_body (emails st')
       = [Some (JStr "<p>Hi</p><p>there</p>"); Some (JStr "Hi")]
    /\ map msg_hasFullDetails (emails st') = [true; false]
    /\ fetchBody st' mailboxEnv [] = ([], Ok st').
Proof. eexists. repeat split; reflexivity. Qed.

(** A request answered 404 with a JSON error body: the message is shown
    with the body ["No content"] and counts as fully loaded, so its body is
    not asked for again. *)
Example fetchBody_error_status :
  exists st',
    outcome (fetchBody (sampleState false [summaryOf "m1" false] (Some "m1"))
               (uniformEnv 404 (Some (JObj [("message", JStr "Not Found")]))) [])
    = Ok st'
    /\ map msg_body (emails st') = [Some (JStr "No content")]
    /\ map msg_hasFullDetails (emails st') = [true]
    /\ fetchBody st' mailboxEnv [] = ([], Ok st').
Proof. eexists. repeat split; reflexivity. Qed.

(** X17. Deleting a message.  [handleDeleteEmail] never throws.  With a
    session token: when the provider answers the request at all, no
    message with the given id is left, the other messages keep their order,
    and nothing is alerted; when the request fails on both routes, the
    list is restored exactly as it was and the failure is alerted.  In both
    cases a selection of the deleted id is cleared and not restored. *)
Theorem handleDeleteEmail_optimistic id st env h tok :
  sessionToken st = Some tok ->
  let fetched := smartFetch (messageUrl id) (deleteInit (toString tok)) env h in
  exists st',
    selectedEmailId st'
    = (if strictEq (option_map JStr (selectedEmailId st)) (Some (JStr id))
       then None else selectedEmailId st)
    /\ session st' = session st
    /\ ((exists res, outcome fetched = Ok res) ->
        outcome (handleDeleteEmail id st env h) = Ok (st', None)
        /\ emails st' = filter (fun e => negb (hasId id e)) (emails st)
        /\ Forall (fun e => hasId id e = false) (emails st'))
    /\ ((exists e, outcome fetched = Throw e) ->
        outcome (handleDeleteEmail id st env h) = Ok (st', Some deleteFailedAlert)
        /\ emails st' = emails st).
Proof.
  intros Htok fetched. subst fetched.
  rewrite handleDeleteEmail_outcome, Htok. cbv zeta.
  set (st1 := setEmails _ st).
  set (st2 := match selectedEmailId st with
              | Some sel => if String.eqb sel id then setSelectedEmailId None st1 else st1
              | None => st1 end).
  assert (Hsel : selectedEmailId st2
                 = (if strictEq (option_map JStr (selectedEmailId st)) (Some (JStr id))
                    then None else selectedEmailId st)).
  { subst st2 st1. destruct (selectedEmailId st) as [sel|] eqn:Hs; cbn.
    - destruct (String.eqb sel id); cbn; auto.
    - exact Hs. }
  assert (Hses : session st2 = session st).
  { subst st2 st1. destruct (selectedEmailId st) as [sel|]; [|reflexivity].
    destruct (String.eqb sel id); reflexivity. }
  assert (Hem : emails st2 = filter (fun e => negb (hasId id e)) (emails st)).
  { subst st2 st1. destruct (selectedEmailId st) as [sel|]; [|reflexivity].
    destruct (String.eqb sel id); reflexivity. }
  destruct (outcome (smartFetch _ _ _ _)) as [res|e].
  - exists st2. split; [exact Hsel|]. split; [exact Hses|]. split.
    + intros _. split; [reflexivity|]. split; [exact Hem|].
      rewrite Hem. apply Forall_forall. intros e He.
      apply filter_In in He as (_ & He). now apply negb_true_iff in He.
    + intros (e & He). discriminate He.
  - exists (setEmails (emails st) st2). split; [exact Hsel|]. split; [exact Hses|]. split.
    + intros (res & Hres). discriminate Hres.
    + intros _. split; reflexivity.
Qed.

Lemma handleDeleteEmail_optimistic_witness :
  outcome (handleDeleteEmail "m1"
             (sampleState false [summaryOf "m1" false; summaryOf "m2" false] (Some "m1"))
             mailboxEnv [])
  = Ok (sampleState false [summaryOf "m2" false] None, None)
  /\ outcome (handleDeleteEmail "m1"
                (sampleState false [summaryOf "m1" false; summaryOf "m2" false] (Some "m1"))
                offlineEnv [])
     = Ok (sampleState false [summaryOf "m1" false; summaryOf "m2" false] None,
           Some deleteFailedAlert).
Proof.
  split.
  - destruct (handleDeleteEmail_optimistic "m1"
                (sampleState false [summaryOf "m1" false; summaryOf "m2" false] (Some "m1"))
                mailboxEnv [] (Some (JStr "secret")) eq_refl)
      as (st' & _ & _ & Hok & _).
    destruct Hok as (Ho & _); [eexists; reflexivity|].
    rewrite Ho. vm_compute in Ho. injection Ho as <-. reflexivity.
  - destruct (handleDeleteEmail_optimistic "m1"
                (sampleState false [summaryOf "m1" false; summaryOf "m2" false] (Some "m1"))
                offlineEnv [] (Some (JStr "secret")) eq_refl)
      as (st' & _ & _ & _ & Hfail).
    destruct Hfail as (Ho & _); [eexists; reflexivity|].
    rewrite Ho. vm_compute in Ho. injection Ho as <-. reflexivity.
Defined.

Lemma fetchBody_once_witness :
  exists st',
    outcome (fetchBody (sampleState false [summaryOf "m1" false; summaryOf "m2" false]
                          (Some "m1")) mailboxEnv []) = Ok st'
    /\ Forall2 (loadedAs "m1"
                  {| md_body := JStr "<p>Hi</p><p>there</p>";
                     md_hasFullDetails := true |})
         [summaryOf "m1" false; summaryOf "m2" false] (emails st')
    /\ In (summaryOf "m2" false) (emails st')
    /\ fetchBody st' offlineEnv [] = ([], Ok st').
Proof.
  destruct (fetchBody_once
              (sampleState false [summaryOf "m1" false; summaryOf "m2" false] (Some "m1"))
              mailboxEnv []) as (st' & Ho & _ & _ & _ & _ & Hother & Hload & Hagain).
  exists st'. split; [exact Ho|]. split; [|split].
  - destruct (Hload "m1" (Some (JStr "secret")) (summaryOf "m1" false)
                eq_refl eq_refl eq_refl eq_refl) as (_ & H).
    destruct (H eq_refl) as (_ & _ & Hd). apply Hd. reflexivity.
  - apply (Hother "m1"); [reflexivity | right; left; reflexivity | reflexivity].
  - apply Hagain. vm_compute in Ho. injection Ho as <-. discriminate.
Defined.

Lemma createRealAccount_wellformed u d env h s :
  outcome (createRealAccount u d env h) = Ok s ->
  isPremium s = truthyStr u
  /\ (isPremium s = true <-> expiresAt s = None).
Proof.
  intros Ho.
  assert (Hrun : createRealAccount u d env h
                 = (events (createRealAccount u d env h), Ok s)).
  { rewrite (surjective_run (createRealAccount u d env h)) at 1. now rewrite Ho. }
  apply createRealAccount_returns in Hrun as (t' & Hrun).
  apply provision_returns in Hrun as (st & tok & h' & t'' & Hfin).
  apply finishSession_returns in Hfin as (_ & _ & _ & Hp & He & _).
  split; [exact Hp|]. rewrite He, Hp.
  destruct (truthyStr u); split; auto; discriminate.
Qed.

(** X18. A session is unlimited exactly when it is premium, and stays so.
    If every session of the state has [expiresAt = null] exactly when
    [isPremium] holds, the same is true after each handler: creating a
    session, creating a premium session, extending the session (which
    leaves a premium session untouched), polling, loading a body and
    deleting a message. *)
Theorem premiumUnlimited_preserved st env h :
  premiumUnlimited st ->
  (forall st', outcome (handleCreateSession st env h) = Ok st' -> premiumUnlimited st')
  /\ (forall username domain st',
        outcome (handlePremiumCreate username domain st env h) = Ok st' ->
        premiumUnlimited st')
  /\ (forall st', outcome (extendSession st env h) = Ok st' -> premiumUnlimited st')
  /\ (forall st', outcome (pollEmails st env h) = Ok st' -> premiumUnlimited st')
  /\ (forall st', outcome (fetchBody st env h) = Ok st' -> premiumUnlimited st')
  /\ (forall id st' alerted,
        outcome (handleDeleteEmail id st env h) = Ok (st', alerted) ->
        premiumUnlimited st').
Proof.
  intros Hinv. unfold premiumUnlimited in *.
  split; [|split; [|split; [|split; [|split]]]].
  - intros st'. rewrite handleCreateSession_outcome. intros [= <-].
    destruct (outcome (createRealAccount None None env h)) as [s|e] eqn:Ho.
    + cbn. intros s' [= <-]. now apply (createRealAccount_wellformed None None env h).
    + cbn. exact Hinv.
  - intros username domain st'. rewrite handlePremiumCreate_outcome.
    destruct (outcome (createRealAccount _ _ env h)) as [s|e] eqn:Ho; [|discriminate].
    intros [= <-]. cbn. intros s' [= <-].
    now apply (createRealAccount_wellformed (Some username) (Some domain) env h).
  - intros st'. rewrite extendSession_run.
    destruct (session st) as [s|] eqn:Hs.
    + destruct (isPremium s) eqn:Hp; cbn [outcome snd]; intros [= <-].
      * now rewrite Hs.
      * cbn. intros s' [= <-]. cbn. rewrite Hp. split; discriminate.
    + cbn [outcome snd]. intros [= <-]. now rewrite Hs.
  - intros st'. rewrite pollEmails_outcome. intros [= <-].
    destruct (sessionToken st); [|exact Hinv].
    destruct (outcome (fetchMessages _ env h)); exact Hinv.
  - intros st' Ho.
    destruct (fetchBody_outcome st env h) as (st0 & Ho0 & Hs & _).
    rewrite Ho in Ho0. injection Ho0 as <-. now rewrite Hs.
  - intros id st' alerted. rewrite handleDeleteEmail_outcome.
    destruct (sessionToken st); [|intros [= <- _]; exact Hinv].
    cbv zeta.
    destruct (outcome (smartFetch _ _ _ _)); intros [= <- _];
      destruct (selectedEmailId st) as [sel|]; try exact Hinv;
      destruct (String.eqb sel id); exact Hinv.
Qed.

Lemma premiumUnlimited_preserved_witness :
  exists st',
    outcome (extendSession (sampleState true [] None) (uniformEnv 200 None) []) = Ok st'
    /\ premiumUnlimited st'
    /\ st' = sampleState true [] None.
Proof.
  assert (Hinv : premiumUnlimited (sampleState true [] None)).
  { intros s [= <-]. split; reflexivity. }
  destruct (premiumUnlimited_preserved (sampleState true [] None)
              (uniformEnv 200 None) [] Hinv) as (_ & _ & Hext & _).
  eexists. split; [reflexivity|]. split; [|reflexivity].
  apply Hext. reflexivity.
Defined.

(** X19. [handleCreateSession] never throws and always ends with
    [isRefreshing = false].  On success the new session is a limited one,
    the message list and the selection are reset, the error is cleared and
    ten minutes are left.  On failure the session and the messages stay as
    they were and a non-empty error text is shown. *)
Theorem handleCreateSession_settles st env h :
  exists st',
    outcome (handleCreateSession st env h) = Ok st'
    /\ isRefreshing st' = false
    /\ ((exists s,
           outcome (createRealAccount None None env h) = Ok s
           /\ session st' = Some s /\ isPremium s = false
           /\ emails st' = [] /\ selectedEmailId st' = None
           /\ error st' = None /\ timeLeft st' = 600000%Z)
        \/ (exists e msg,
              outcome (createRealAccount None None env h) = Throw e
              /\ session st' = session st /\ emails st' = emails st
              /\ error st' = Some msg /\ nonEmpty msg = true)).
Proof.
  rewrite handleCreateSession_outcome. eexists. split; [reflexivity|].
  destruct (outcome (createRealAccount None None env h)) as [s|e] eqn:Ho.
  - split; [reflexivity|]. left. exists s. repeat split.
    now destruct (createRealAccount_wellformed None None env h s Ho) as (-> & _).
  - split; [reflexivity|]. right. exists e, (messageOr e createFailedFallback).
    repeat split. unfold messageOr.
    destruct (nonEmpty (messageOf e)) eqn:Hm; [exact Hm | reflexivity].
Qed.

(** ** The premium dialog *)

Lemma utf16Length_nonEmpty s : (3 <= utf16Length s)%nat -> nonEmpty s = true.
Proof. destruct s; simpl; [lia | reflexivity]. Qed.

Lemma handlePaymentAndCreate_valid m st env h :
  (3 <= utf16Length (modal_username m))%nat ->
  nonEmpty (modal_selectedDomain m) = true ->
  let created :=
    createRealAccount (Some (modal_username m)) (Some (modal_selectedDomain m)) env
      (h ++ [EvSleep 1500]) in
  let m1 := setModalError None (setIsProcessing true m) in
  events (handlePaymentAndCreate m st env h) = EvSleep 1500 :: events created
  /\ outcome (handlePaymentAndCreate m st env h)
     = Ok match outcome created with
          | Ok s =>
              (setIsProcessing false m1,
               setIsPremiumModalOpen false (newSessionState s st))
          | Throw e =>
              (setIsProcessing false
                 (setModalError (Some (messageOr e creationErrorFallback)) m1), st)
          end.
Proof.
  intros Hlen Hdom created m1. subst created m1.
  unfold handlePaymentAndCreate.
  rewrite (utf16Length_nonEmpty _ Hlen), Hdom.
  assert (Hlt : (utf16Length (modal_username m) <? 3)%nat = false)
    by (apply Nat.ltb_ge; exact Hlen).
  rewrite Hlt. cbn [negb orb].
  rewrite events_bind, outcome_bind. cbn [sleep emit events outcome fst snd].
  rewrite events_bind, outcome_bind, events_tryCatch, outcome_tryCatch.
  rewrite events_bind, outcome_bind.
  unfold handlePremiumCreate. rewrite events_bind, outcome_bind.
  destruct (outcome (createRealAccount _ _ env (h ++ [EvSleep 1500]))) as [s|e];
    cbn [events outcome ret fst snd app]; rewrite ?app_nil_r; split; reflexivity.
Qed.

Lemma registers_other address t :
  count isCreateRequest t = 0%nat -> Forall (registers address) t.
Proof.
  intros H0. eapply Forall_impl; [|apply count_0_Forall, H0].
  intros e He Hc. rewrite He in Hc. discriminate.
Qed.

Lemma smartFetch_registers address pw env h :
  Forall (registers address)
    (events (smartFetch accountsUrl (postCredentials address pw) env h)).
Proof.
  destruct (smartFetch_split accountsUrl (postCredentials address pw) env h)
    as (rest & -> & Hrest).
  constructor.
  - intros _. now exists pw.
  - apply registers_other, Hrest, quiet_isCreateRequest.
Qed.

(** In custom mode the address of an attempt is the given username at the
    given domain. *)
Lemma createAttempt_custom u dom env h :
  let address := strOrUndefined u ^^ "@" ^^ toString dom in
  Forall (registers address) (events (createAttempt true u dom env h))
  /\ forall a,
       outcome (createAttempt true u dom env h) = Ok a -> att_address a = address.
Proof.
  intros address. subst address. unfold createAttempt.
  rewrite events_bind, outcome_bind. cbn [events outcome ret fst snd app].
  rewrite app_nil_r.
  destruct (randomString_run 12 env h) as (pw & Hpo & Hpe).
  rewrite events_bind, outcome_bind, Hpo, Hpe, events_bind, outcome_bind.
  split.
  - repeat (apply Forall_app; split).
    + apply registers_other, count_repeat_random, quiet_isCreateRequest.
    + apply smartFetch_registers.
    + destruct (outcome (smartFetch _ _ _ _)); constructor.
  - intros a. destruct (outcome (smartFetch _ _ _ _)) as [res|e]; [|discriminate].
    now intros [= <-].
Qed.

Lemma createLoop_custom u dom st env h :
  let address := strOrUndefined u ^^ "@" ^^ toString dom in
  Forall (registers address) (events (createLoop true u dom 1 st env h))
  /\ forall st',
       outcome (createLoop true u dom 1 st env h) = Ok st' ->
       cr_address st' = address.
Proof.
  intros address.
  destruct (createAttempt_custom u dom env h) as (Hreg & Haddr).
  fold address in Hreg, Haddr.
  destruct (createLoop_cases true u dom 0 st env h) as [(He & _) | (Hc & _)];
    [|discriminate].
  split; [now rewrite He|].
  intros st'.
  destruct (outcome (createAttempt true u dom env h)) as [a|e] eqn:Ha.
  - destruct (ok (att_response a)) eqn:Hok.
    + destruct (createLoop_created true u dom 0 st env h a Ha Hok) as (_ & ->).
      intros [= <-]. now apply Haddr.
    + destruct (Z.eq_dec (status (att_response a)) 422) as [Hst|Hst].
      * now destruct (createLoop_unavailable u dom 0 st env h a Ha Hok Hst)
          as (_ & ->).
      * now destruct (createLoop_failed true u dom 0 st env h a Ha Hok Hst)
          as (_ & ->).
  - now destruct (createLoop_throw true u dom 0 st env h e Ha) as (_ & ->).
Qed.

(** With a username and a domain given, every creation request of the
    call registers that username at that domain, and so does the session
    it returns. *)
Lemma createRealAccount_custom_address username domain env h :
  nonEmpty username = true -> nonEmpty domain = true ->
  let run := createRealAccount (Some username) (Some domain) env h in
  Forall (registers (username ^^ "@" ^^ domain)) (events run)
  /\ forall s, outcome run = Ok s -> emailAddress s = username ^^ "@" ^^ domain.
Proof.
  intros Hu Hd run. subst run.
  set (u := Some username). set (d := Some domain).
  assert (Hr : resolveDomain d env h = ([], Ok (Some (JStr domain))))
    by (apply resolveDomain_custom; exact Hd).
  destruct (provision_resolved u d env h [] _ Hr) as (Hev & Hout).
  destruct (createLoop_custom u (Some (JStr domain)) initialCreation env (h ++ []))
    as (Hreg & Haddr).
  change (strOrUndefined u ^^ "@" ^^ toString (Some (JStr domain)))
    with (username ^^ "@" ^^ domain) in Hreg, Haddr.
  assert (Htu : truthyStr u = true) by exact Hu.
  split.
  - rewrite createRealAccount_events, Hev. cbn [app].
    apply Forall_app. split.
    + unfold provisionWith. rewrite events_bind. apply Forall_app. split.
      * rewrite createAccount_events, Htu. exact Hreg.
      * destruct (outcome (createAccount _ _ _ _ _)) as [st|e]; [|constructor].
        rewrite events_bind. apply Forall_app. split.
        -- apply registers_other, login_count;
             [exact quiet_isCreateRequest | reflexivity].
        -- destruct (outcome (login _ _ _ _)) as [tok|e]; [|constructor].
           apply registers_other, finishSession_count;
             [exact quiet_isCreateRequest | reflexivity].
    + destruct (outcome (provision u d env h)); repeat constructor.
      intros Hc. discriminate Hc.
  - intros s. rewrite createRealAccount_outcome, Hout.
    unfold provisionWith. rewrite outcome_bind, createAccount_outcome, Htu.
    cbn [maxRetries].
    destruct (outcome (createLoop true u _ 1 initialCreation env (h ++ [])))
      as [st|e] eqn:Hloop; [|discriminate].
    destruct (cr_accountCreated st); [|discriminate].
    cbn [outcome events fst snd]. rewrite outcome_bind.
    destruct (login _ _ env _) as [t3 [tok|e]] eqn:Hl; [|discriminate].
    cbn [outcome events fst snd]. intros Hfin.
    match type of Hfin with outcome ?run = _ =>
      assert (Hrun : run = (events run, Ok s))
        by (rewrite (surjective_run run) at 1; now rewrite Hfin) end.
    apply finishSession_returns in Hrun as (-> & _).
    now apply Haddr.
Qed.

(** X20. The premium form.  [handlePaymentAndCreate] never throws.  A
    username shorter than three UTF-16 units, or an empty domain, is
    rejected with an error text and without any effect.  Otherwise it waits
    1500 ms and creates the account in custom mode for the typed username
    at the chosen domain: exactly one creation request, registering that
    very address, and no catalog query.  On success the state holds a
    premium session without expiry for that address and the dialog is
    closed; on failure the application state is untouched and an error
    text is shown.  Either way [isProcessing] ends up [false]. *)
Theorem handlePaymentAndCreate_validated m st env h :
  let run := handlePaymentAndCreate m st env h in
  let address := modal_username m ^^ "@" ^^ modal_selectedDomain m in
  (exists r, outcome run = Ok r)
  /\ ((utf16Length (modal_username m) < 3)%nat
      \/ nonEmpty (modal_selectedDomain m) = false ->
      exists msg, run = ([], Ok (setModalError (Some msg) m, st)))
  /\ ((3 <= utf16Length (modal_username m))%nat ->
      nonEmpty (modal_selectedDomain m) = true ->
      exists rest,
        events run = EvSleep 1500 :: rest
        /\ count isCreateRequest (events run) = 1%nat
        /\ Forall (registers address) (events run)
        /\ count isPaginatedQuery (events run) = 0%nat
        /\ exists m' st',
             outcome run = Ok (m', st')
             /\ modal_isProcessing m' = false
             /\ ((modal_error m' = None
                  /\ isPremiumModalOpen st' = false
                  /\ exists s, session st' = Some s
                               /\ emailAddress s = address
                               /\ isPremium s = true /\ expiresAt s = None)
                 \/ (st' = st
                     /\ exists msg, modal_error m' = Some msg /\ nonEmpty msg = true))).
Proof.
  intros run address. subst run address.
  assert (Hinvalid :
    (utf16Length (modal_username m) < 3)%nat
    \/ nonEmpty (modal_selectedDomain m) = false ->
    exists msg, handlePaymentAndCreate m st env h
                = ([], Ok (setModalError (Some msg) m, st))).
  { intros Hbad. unfold handlePaymentAndCreate.
    destruct (negb (nonEmpty (modal_username m))
              || (utf16Length (modal_username m) <? 3)%nat) eqn:Hu.
    - eexists. reflexivity.
    - apply orb_false_iff in Hu as (_ & Hu). apply Nat.ltb_ge in Hu.
      destruct Hbad as [Hbad | ->]; [lia|]. eexists. reflexivity. }
  assert (Hvalid :
    (3 <= utf16Length (modal_username m))%nat ->
    nonEmpty (modal_selectedDomain m) = true ->
    exists rest,
      events (handlePaymentAndCreate m st env h) = EvSleep 1500 :: rest
      /\ count isCreateRequest (events (handlePaymentAndCreate m st env h)) = 1%nat
      /\ Forall (registers (modal_username m ^^ "@" ^^ modal_selectedDomain m))
           (events (handlePaymentAndCreate m st env h))
      /\ count isPaginatedQuery (events (handlePaymentAndCreate m st env h)) = 0%nat
      /\ exists m' st',
           outcome (handlePaymentAndCreate m st env h) = Ok (m', st')
           /\ modal_isProcessing m' = false
           /\ ((modal_error m' = None
                /\ isPremiumModalOpen st' = false
                /\ exists s, session st' = Some s
                             /\ emailAddress s
                                = modal_username m ^^ "@" ^^ modal_selectedDomain m
                             /\ isPremium s = true /\ expiresAt s = None)
               \/ (st' = st
                   /\ exists msg, modal_error m' = Some msg /\ nonEmpty msg = true))).
  { intros Hlen Hdom.
    destruct (handlePaymentAndCreate_valid m st env h Hlen Hdom) as (He & Ho).
    rewrite He, Ho. eexists. split; [reflexivity|].
    destruct (createRealAccount_custom_address (modal_username m)
                (modal_selectedDomain m) env (h ++ [EvSleep 1500])
                (utf16Length_nonEmpty _ Hlen) Hdom) as (Hreg & Haddr).
    set (u := Some (modal_username m)) in *.
    set (d := Some (modal_selectedDomain m)) in *.
    assert (Hu : truthyStr u = true) by (apply utf16Length_nonEmpty, Hlen).
    assert (Hd : truthyStr d = true) by exact Hdom.
    split; [|split; [|split]].
    - rewrite count_cons. cbn [isCreateRequest isFetchOf].
      rewrite createRealAccount_create_count, (resolveDomain_custom d env _ Hd), Hu.
      cbn [maxRetries]. cbn [plus].
      apply (createLoop_custom_once isCreateRequest u _ initialCreation env _ true);
        [exact quiet_isCreateRequest | reflexivity].
    - constructor; [intros Hc; discriminate Hc | exact Hreg].
    - rewrite count_cons. cbn [isPaginatedQuery isFetchOf].
      rewrite (createRealAccount_step1_count isPaginatedQuery u d env _
                 quiet_isPaginatedQuery) by reflexivity.
      now rewrite (resolveDomain_custom d env _ Hd).
    - destruct (outcome (createRealAccount u d env (h ++ [EvSleep 1500])))
        as [s|e] eqn:Hc.
      + do 2 eexists. split; [reflexivity|]. split; [reflexivity|]. left.
        split; [reflexivity|]. split; [reflexivity|]. exists s.
        destruct (createRealAccount_wellformed u d env _ s Hc) as (Hp & Hiff).
        rewrite Hu in Hp. split; [reflexivity|].
        split; [now apply Haddr|]. split; [exact Hp|].
        now apply Hiff.
      + do 2 eexists. split; [reflexivity|]. split; [reflexivity|]. right.
        split; [reflexivity|]. exists (messageOr e creationErrorFallback).
        split; [reflexivity|]. unfold messageOr.
        destruct (nonEmpty (messageOf e)) eqn:Hm; [exact Hm | reflexivity]. }
  split; [|split; [exact Hinvalid | exact Hvalid]].
  destruct (le_lt_dec 3 (utf16Length (modal_username m))) as [Hlen | Hlen].
  - destruct (nonEmpty (modal_selectedDomain m)) eqn:Hdom.
    + destruct (Hvalid Hlen eq_refl) as (_ & _ & _ & _ & _ & m' & st' & Ho & _). eauto.
    + destruct Hinvalid as (msg & ->); [now right|]. eexists. reflexivity.
  - destruct Hinvalid as (msg & ->); [now left|]. eexists. reflexivity.
Qed.

Lemma handlePaymentAndCreate_validated_witness :
  (exists msg,
     handlePaymentAndCreate
       {| modal_username := "al"; modal_selectedDomain := "x.com";
          modal_isProcessing := false; modal_error := None |}
       (sampleState false [] None) (providerEnv 200 (Some account42)) []
     = ([], Ok (setModalError (Some msg)
                  {| modal_username := "al"; modal_selectedDomain := "x.com";
                     modal_isProcessing := false; modal_error := None |},
                sampleState false [] None)))
  /\ count isCreateRequest
       (events (handlePaymentAndCreate
                  {| modal_username := "alice"; modal_selectedDomain := "x.com";
                     modal_isProcessing := false; modal_error := None |}
                  (sampleState false [] None) (providerEnv 200 (Some account42)) []))
     = 1%nat
  /\ Forall (registers "alice@x.com")
       (events (handlePaymentAndCreate
                  {| modal_username := "alice"; modal_selectedDomain := "x.com";
                     modal_isProcessing := false; modal_error := None |}
                  (sampleState false [] None) (providerEnv 200 (Some account42)) [])).
Proof.
  split.
  - apply (handlePaymentAndCreate_validated
             {| modal_username := "al"; modal_selectedDomain := "x.com";
                modal_isProcessing := false; modal_error := None |}).
    left. apply Nat.ltb_lt. reflexivity.
  - destruct (handlePaymentAndCreate_validated
                {| modal_username := "alice"; modal_selectedDomain := "x.com";
                   modal_isProcessing := false; modal_error := None |}
                (sampleState false [] None) (providerEnv 200 (Some account42)) [])
      as (_ & _ & H).
    destruct H as (rest & _ & Hc & Hreg & _);
      [apply Nat.leb_le; reflexivity | reflexivity |].
    split; [exact Hc | exact Hreg].
Defined.

Lemma comFirst_typed a b :
  hasStringDomain a -> hasStringDomain b ->
  comFirst a b
  = Ok (if isCom a then (if isCom b then 0 else -1)
        else (if isCom b then 1 else 0))%Z.
Proof.
  intros (sa & Ha) (sb & Hb).
  unfold comFirst, domainEndsWithCom, isCom, propOf. rewrite Ha, Hb.
  destruct (endsWith sa ".com"), (endsWith sb ".com"); reflexivity.
Qed.

Lemma insertSorted_partition x coms others :
  hasStringDomain x ->
  Forall hasStringDomain coms -> Forall hasStringDomain others ->
  Forall (fun d => isCom d = true) coms ->
  Forall (fun d => isCom d = false) others ->
  insertSorted comFirst x (coms ++ others)
  = Ok (if isCom x then coms ++ x :: others else coms ++ others ++ [x]).
Proof.
  intros Hx Hc Ho Hcom Hoth.
  induction coms as [|c coms IHc].
  - clear Hc Hcom. cbn [app].
    induction others as [|o others IHo].
    + cbn. now destruct (isCom x).
    + inversion Ho as [|? ? Ho1 Ho2]; subst. inversion Hoth as [|? ? Hn1 Hn2]; subst.
      cbn [insertSorted]. rewrite (comFirst_typed o x Ho1 Hx), Hn1.
      destruct (isCom x) eqn:Hcx; cbn [Z.ltb Z.compare].
      * reflexivity.
      * rewrite (IHo Ho2 Hn2). reflexivity.
  - inversion Hc as [|? ? Hc1 Hc2]; subst. inversion Hcom as [|? ? Hm1 Hm2]; subst.
    cbn [insertSorted app]. rewrite (comFirst_typed c x Hc1 Hx), Hm1.
    destruct (isCom x) eqn:Hcx; cbn [Z.ltb Z.compare];
      rewrite (IHc Hc2 Hm2); reflexivity.
Qed.

Lemma sortFrom_partition l : forall done,
  Forall hasStringDomain (done ++ l) ->
  sortFrom comFirst (comsFirst done) l = Ok (comsFirst (done ++ l)).
Proof.
  induction l as [|x l IH]; intros done Hall.
  - now rewrite app_nil_r.
  - apply Forall_app in Hall as (Hd & Hxl).
    inversion Hxl as [|? ? Hx Hl]; subst.
    cbn [sortFrom]. unfold comsFirst at 1.
    rewrite insertSorted_partition; auto.
    + replace (if isCom x
               then filter isCom done ++ x :: filter (fun d => negb (isCom d)) done
               else filter isCom done ++ filter (fun d => negb (isCom d)) done ++ [x])
        with (comsFirst (done ++ [x])).
      * replace (done ++ x :: l) with ((done ++ [x]) ++ l)
          by (now rewrite <- app_assoc).
        apply IH. rewrite <- app_assoc. apply Forall_app. split; [exact Hd|].
        constructor; assumption.
      * unfold comsFirst. rewrite !filter_app. cbn [filter].
        destruct (isCom x); cbn [negb]; now rewrite ?app_nil_r, <- ?app_assoc.
    + apply Forall_forall. intros d Hin. apply filter_In in Hin as (Hin & _).
      rewrite Forall_forall in Hd. auto.
    + apply Forall_forall. intros d Hin. apply filter_In in Hin as (Hin & _).
      rewrite Forall_forall in Hd. auto.
    + apply Forall_forall. intros d Hin. now apply filter_In in Hin as (_ & Hin).
    + apply Forall_forall. intros d Hin. apply filter_In in Hin as (_ & Hin).
      now apply negb_true_iff in Hin.
Qed.

(** The comparator reads the name of both entries. *)
Lemma comFirst_ok a b c :
  comFirst a b = Ok c -> hasStringDomain a /\ hasStringDomain b.
Proof.
  unfold comFirst, domainEndsWithCom, hasStringDomain.
  destruct (getProp a "domain") as [[ja|]|ea]; try discriminate.
  destruct ja; try discriminate.
  destruct (getProp b "domain") as [[jb|]|eb];
    [destruct jb| |];
    try (destruct (endsWith _ ".com"); discriminate).
  intros _. split; eexists; reflexivity.
Qed.

Lemma insertSorted_Forall (P : JSON -> Prop) compare x sorted : forall r,
  insertSorted compare x sorted = Ok r ->
  (Forall P r <-> P x /\ Forall P sorted).
Proof.
  induction sorted as [|y rest IH]; intros r.
  - cbn. intros [= <-]. split.
    + intros H. inversion H; subst. auto.
    + intros (Hx & _). now constructor.
  - cbn [insertSorted]. destruct (compare y x) as [c|e]; [|discriminate].
    destruct (0 <? c)%Z.
    + intros [= <-]. split.
      * intros H. inversion H; subst. auto.
      * intros (Hx & H). now constructor.
    + destruct (insertSorted compare x rest) as [rest'|e]; [|discriminate].
      intros [= <-]. specialize (IH rest' eq_refl). split.
      * intros H. inversion H as [|? ? Hy Hr]; subst.
        apply IH in Hr as (Hx & Hr). split; [exact Hx | now constructor].
      * intros (Hx & H). inversion H as [|? ? Hy Hr]; subst.
        constructor; [exact Hy | apply IH; auto].
Qed.

Lemma insertSorted_length compare x sorted : forall r,
  insertSorted compare x sorted = Ok r -> List.length r = S (List.length sorted).
Proof.
  induction sorted as [|y rest IH]; intros r.
  - cbn. now intros [= <-].
  - cbn [insertSorted]. destruct (compare y x) as [c|e]; [|discriminate].
    destruct (0 <? c)%Z.
    + now intros [= <-].
    + destruct (insertSorted compare x rest) as [rest'|e]; [|discriminate].
      intros [= <-]. cbn [List.length]. now rewrite (IH rest' eq_refl).
Qed.

(** A sort of two entries or more that does not throw has compared every
    entry, so every entry has a string name. *)
Lemma sortFrom_typed l : forall sorted r,
  sortFrom comFirst sorted l = Ok r ->
  ((2 <= List.length sorted)%nat -> Forall hasStringDomain sorted) ->
  (2 <= List.length sorted + List.length l)%nat ->
  Forall hasStringDomain (sorted ++ l).
Proof.
  induction l as [|x rest IH]; intros sorted r Hs Hq Hlen.
  - rewrite app_nil_r. apply Hq. cbn [List.length] in Hlen. lia.
  - cbn [sortFrom] in Hs.
    destruct (insertSorted comFirst x sorted) as [sorted'|e] eqn:Hins; [|discriminate].
    pose proof (insertSorted_length _ _ _ _ Hins) as Hl.
    pose proof (insertSorted_Forall hasStringDomain _ _ _ _ Hins) as HF.
    assert (Hq' : (2 <= List.length sorted')%nat -> Forall hasStringDomain sorted').
    { intros H2. apply HF. rewrite Hl in H2.
      destruct sorted as [|y tl]; [cbn [List.length] in H2; lia|].
      cbn [insertSorted] in Hins.
      destruct (comFirst y x) as [c|e] eqn:Hc; [|discriminate].
      apply comFirst_ok in Hc as (Hy & Hx). split; [exact Hx|].
      destruct tl as [|z tl']; [now repeat constructor|].
      apply Hq. cbn [List.length]. lia. }
    specialize (IH sorted' r Hs Hq').
    cbn [List.length] in Hlen. rewrite Hl in IH.
    specialize (IH ltac:(cbn [List.length]; lia)).
    apply Forall_app in IH as (H1 & H2).
    apply HF in H1 as (Hx & H1).
    apply Forall_app. split; [exact H1 | now constructor].
Qed.

Lemma sortWith_throws ds :
  (2 <= List.length ds)%nat -> Exists (fun d => ~ hasStringDomain d) ds ->
  exists e, sortWith comFirst ds = Throw e.
Proof.
  intros Hlen Hex. unfold sortWith.
  destruct (sortFrom comFirst [] ds) as [r|e] eqn:Hs; [|now exists e].
  exfalso.
  assert (Hall : Forall hasStringDomain ([] ++ ds)).
  { eapply sortFrom_typed; [exact Hs | cbn; lia | cbn [List.length]; lia]. }
  cbn [app] in Hall. apply Exists_exists in Hex as (d & Hin & Hd).
  rewrite Forall_forall in Hall. auto.
Qed.

Lemma loadDomains_outcome prev env h :
  exists c, outcome (loadDomains prev env h) = Ok c /\ choice_isLoading c = false.
Proof.
  unfold loadDomains. rewrite outcome_bind, outcome_tryCatch.
  destruct (outcome (bind getAvailableDomains _ env h)) as [c|e];
    eexists; split; reflexivity.
Qed.

Lemma loadDomains_typed prev env h ds :
  outcome (getAvailableDomains env h) = Ok ds ->
  Forall hasStringDomain ds ->
  exists c,
    outcome (loadDomains prev env h) = Ok c
    /\ choice_domains c
       = filter isCom ds ++ filter (fun d => negb (isCom d)) ds
    /\ match choice_domains c with
       | first :: _ =>
           choice_selectedDomain c = propOf first "domain"
           /\ choice_error c = None
           /\ (existsb isCom ds = true -> isCom first = true)
       | [] =>
           ds = []
           /\ choice_selectedDomain c = choice_selectedDomain prev
           /\ choice_error c = Some noDomainsFoundMessage
       end.
Proof.
  intros Hout Hall.
  pose proof (sortFrom_partition ds [] Hall) as Hsort.
  change (comsFirst []) with (@nil JSON) in Hsort. cbn [app] in Hsort.
  unfold loadDomains. rewrite outcome_bind, outcome_tryCatch, outcome_bind, Hout.
  rewrite outcome_bind. unfold liftR at 1. cbn [outcome events fst snd].
  unfold sortWith. rewrite Hsort. fold (comsFirst ds).
  destruct (comsFirst ds) as [|first rest] eqn:Hcf.
  - eexists. split; [reflexivity|]. cbn. repeat split.
    unfold comsFirst in Hcf. apply app_eq_nil in Hcf as (Hc & Hn).
    destruct ds as [|d ds']; [reflexivity|]. exfalso.
    cbn in Hc, Hn. destruct (isCom d); discriminate.
  - assert (Hfirst : In first ds).
    { assert (Hin : In first (comsFirst ds)) by (rewrite Hcf; now left).
      unfold comsFirst in Hin. apply in_app_or in Hin as [Hin | Hin];
        now apply filter_In in Hin. }
    rewrite Forall_forall in Hall. destruct (Hall first Hfirst) as (s & Hs).
    rewrite outcome_bind. unfold liftR. cbn [outcome events fst snd]. rewrite Hs.
    eexists. split; [reflexivity|]. cbn. repeat split.
    + unfold propOf. now rewrite Hs.
    + intros Hex. apply existsb_exists in Hex as (d & Hd & Hcom).
      unfold comsFirst in Hcf.
      destruct (filter isCom ds) as [|c cs] eqn:Hf.
      * exfalso. assert (Hin : In d (filter isCom ds)) by (apply filter_In; auto).
        rewrite Hf in Hin. contradiction.
      * cbn in Hcf. injection Hcf as <- _.
        assert (Hin : In c (filter isCom ds)) by (rewrite Hf; now left).
        now apply filter_In in Hin.
Qed.

Lemma loadDomains_sort_throws prev env h ds e :
  outcome (getAvailableDomains env h) = Ok ds ->
  sortWith comFirst ds = Throw e ->
  outcome (loadDomains prev env h)
  = Ok {| choice_domains := choice_domains prev;
          choice_selectedDomain := choice_selectedDomain prev;
          choice_isLoading := false;
          choice_error := Some connectionErrorMessage |}.
Proof.
  intros Hout Hsort.
  unfold loadDomains. rewrite outcome_bind, outcome_tryCatch, outcome_bind, Hout.
  rewrite outcome_bind. unfold liftR at 1. cbn [outcome events fst snd].
  rewrite Hsort. reflexivity.
Qed.

(** X21. The domains offered by the dialog.  [loadDomains] never throws
    and always ends with [isLoading = false].  When the discovered entries
    have string names, the dialog offers exactly those entries, the ones
    ending in [.com] first and both groups in catalog order; the
    preselected domain is the name of the first one offered; and when
    nothing was discovered the list is empty, the selection is kept and the
    "no domains found" error is shown.  When two entries or more were
    discovered and one of them has no string name, the comparator throws:
    the dialog keeps the list and the selection it had and shows the
    connection error. *)
Theorem loadDomains_com_first prev env h :
  exists c,
    outcome (loadDomains prev env h) = Ok c
    /\ choice_isLoading c = false
    /\ forall ds,
         outcome (getAvailableDomains env h) = Ok ds ->
         (Forall hasStringDomain ds ->
          choice_domains c
          = filter isCom ds ++ filter (fun d => negb (isCom d)) ds
          /\ match choice_domains c with
             | first :: _ =>
                 choice_selectedDomain c = propOf first "domain"
                 /\ choice_error c = None
                 /\ (existsb isCom ds = true -> isCom first = true)
             | [] =>
                 ds = []
                 /\ choice_selectedDomain c = choice_selectedDomain prev
                 /\ choice_error c = Some noDomainsFoundMessage
             end)
         /\ ((2 <= List.length ds)%nat ->
             Exists (fun d => ~ hasStringDomain d) ds ->
             choice_domains c = choice_domains prev
             /\ choice_selectedDomain c = choice_selectedDomain prev
             /\ choice_error c = Some connectionErrorMessage).
Proof.
  destruct (loadDomains_outcome prev env h) as (c & Ho & Hload).
  exists c. split; [exact Ho|]. split; [exact Hload|].
  intros ds Hout. split.
  - intros Hall.
    destruct (loadDomains_typed prev env h ds Hout Hall) as (c' & Ho' & H).
    rewrite Ho in Ho'. injection Ho' as <-. exact H.
  - intros Hlen Hex.
    destruct (sortWith_throws ds Hlen Hex) as (e & Hs).
    rewrite (loadDomains_sort_throws prev env h ds e Hout Hs) in Ho.
    injection Ho as <-. repeat split.
Qed.

Lemma loadDomains_com_first_witness :
  (exists c,
     outcome (loadDomains emptyChoice (uniformEnv 200 (Some threeDomainsCatalog)) [])
     = Ok c
     /\ choice_isLoading c = false
     /\ choice_domains c
        = [domainEntry "b.com" true; domainEntry "d.com" true;
           domainEntry "a.org" true; domainEntry "c.net" true]
     /\ choice_selectedDomain c = Some (JStr "b.com"))
  /\ (exists c,
        outcome (loadDomains emptyChoice (uniformEnv 200 (Some namelessCatalog)) [])
        = Ok c
        /\ choice_isLoading c = false
        /\ choice_domains c = []
        /\ choice_error c = Some connectionErrorMessage).
Proof.
  split.
  - destruct (loadDomains_com_first emptyChoice
                (uniformEnv 200 (Some threeDomainsCatalog)) [])
      as (c & Ho & Hload & H).
    destruct (H [domainEntry "a.org" true; domainEntry "b.com" true;
                 domainEntry "c.net" true; domainEntry "d.com" true] eq_refl)
      as (Htyped & _).
    destruct Htyped as (Hd & Hsel); [repeat constructor; eexists; reflexivity|].
    exists c. split; [exact Ho|]. split; [exact Hload|]. split; [exact Hd|].
    rewrite Hd in Hsel. cbn in Hsel. now destruct Hsel as (-> & _).
  - destruct (loadDomains_com_first emptyChoice
                (uniformEnv 200 (Some namelessCatalog)) [])
      as (c & Ho & Hload & H).
    destruct (H [domainEntry "a.com" true; JObj [("isActive", JBool true)]] eq_refl)
      as (_ & Hthrown).
    destruct Hthrown as (Hd & _ & He).
    + cbn [List.length]. lia.
    + apply Exists_cons_tl, Exists_cons_hd. intros (s & Hs). discriminate Hs.
    + exists c. split; [exact Ho|]. split; [exact Hload|]. split; [exact Hd | exact He].
Defined.

(** ** Failures of the creation request that are not collisions *)

(** X22. Only a 422 is retried.  Once the domain is resolved, if the
    first creation request fails on both routes, the call throws that very
    error after this single attempt, in random mode as in custom mode; and
    in custom mode a status outside 200-299 other than 422 throws the error
    whose message ends with the status. *)
Theorem createRealAccount_no_retry_on_failure u d env h t0 dom :
  resolveDomain d env h = (t0, Ok dom) ->
  let first := createAttempt (truthyStr u) u dom env (h ++ t0) in
  let run := createRealAccount u d env h in
  (forall e,
     outcome first = Throw e ->
     outcome run = Throw e /\ count isCreateRequest (events run) = 1%nat)
  /\ (forall a,
        truthyStr u = true ->
        outcome first = Ok a ->
        is2xx (status (att_response a)) = false ->
        status (att_response a) <> 422%Z ->
        outcome run
        = Throw (Error (creationFailedPrefix ^^ showZ (status (att_response a))))
        /\ count isCreateRequest (events run) = 1%nat).
Proof.
  intros Hr first run. subst first run.
  rewrite createRealAccount_create_count, createRealAccount_outcome, Hr.
  destruct (provision_resolved u d env h t0 dom Hr) as (_ & ->).
  assert (Hn : exists n, maxRetries (truthyStr u) = S n).
  { destruct (truthyStr u); eexists; reflexivity. }
  destruct Hn as (n & Hn). rewrite Hn.
  assert (Hone : count isCreateRequest
                   (events (createAttempt (truthyStr u) u dom env (h ++ t0))) = 1%nat).
  { apply (createAttempt_count isCreateRequest (truthyStr u) u dom env (h ++ t0) true);
      [exact quiet_isCreateRequest | reflexivity]. }
  split.
  - intros e He.
    destruct (createLoop_throw (truthyStr u) u dom n initialCreation env (h ++ t0) e He)
      as (Hev & Ho).
    rewrite Hev. split; [|exact Hone].
    apply provisionWith_create_throw.
    rewrite createAccount_outcome, Hn. now rewrite Ho.
  - intros a Hu Ha H2 H422.
    destruct (createLoop_failed (truthyStr u) u dom n initialCreation env (h ++ t0) a
                Ha H2 H422) as (Hev & Ho).
    rewrite Hev. split; [|exact Hone].
    apply provisionWith_create_throw.
    rewrite createAccount_outcome, Hn. now rewrite Ho.
Qed.

Lemma createRealAccount_no_retry_on_failure_witness :
  (outcome (createRealAccount None (Some "x.com") offlineEnv [])
   = Throw (TypeError "Failed to fetch")
   /\ count isCreateRequest (events (createRealAccount None (Some "x.com") offlineEnv []))
      = 1%nat)
  /\ (outcome (createRealAccount (Some "alice") (Some "x.com") (uniformEnv 500 None) [])
      = Throw (Error (creationFailedPrefix ^^ "500"))
      /\ count isCreateRequest
           (events (createRealAccount (Some "alice") (Some "x.com")
                      (uniformEnv 500 None) []))
         = 1%nat).
Proof.
  split.
  - apply (createRealAccount_no_retry_on_failure None (Some "x.com") offlineEnv []
             [] (Some (JStr "x.com")) eq_refl).
    vm_compute. reflexivity.
  - destruct (createRealAccount_no_retry_on_failure (Some "alice") (Some "x.com")
                (uniformEnv 500 None) [] [] (Some (JStr "x.com")) eq_refl) as (_ & H).
    apply (H {| att_username := "alice"; att_password := "aaaaaaaaaaaa";
                att_address := "alice@x.com"; att_response := respond 500 None |}).
    + reflexivity.
    + vm_compute. reflexivity.
    + reflexivity.
    + discriminate.
Defined.

(** X23. The query budget of domain discovery.  Every call of
    [getAvailableDomains] sends exactly one paginated query and at most
    one default query to the provider, never pauses, and never contacts the
    account, token or account-metadata endpoints. *)
Theorem getAvailableDomains_query_budget env h :
  let t := events (getAvailableDomains env h) in
  count isPaginatedQuery t = 1%nat
  /\ (count isDefaultQuery t <= 1)%nat
  /\ count isSleep t = 0%nat
  /\ count isCreateRequest t = 0%nat
  /\ count isTokenRequest t = 0%nat
  /\ count isMeRequest t = 0%nat.
Proof.
  cbv zeta.
  rewrite getAvailableDomains_paginated, getAvailableDomains_no_sleep,
    getAvailableDomains_no_create, getAvailableDomains_default_count.
  rewrite !getAvailableDomains_count
    by (exact quiet_isTokenRequest || exact quiet_isMeRequest || reflexivity).
  repeat split.
  destruct (outcome (strategyA env h)) as [[ds|]|e]; lia.
Qed.
